(** * The shared-memory data publisher of osrm-backend

    A shallow embedding of [include/storage/shared_datatype.hpp] and
    [src/storage/storage.cpp]: the block layout of a shared region
    ([DataLayout]), the canaries that bracket every block, the sizing pass
    ([Storage::PopulateLayout]), the populate pass ([Storage::PopulateData])
    and the publication protocol ([Storage::Run]).

    Machine integers are values of [Z] with their wrap-around written out:
    [uint64_t], [std::size_t] and [uintptr_t] wrap at [2^64], [unsigned] and
    [std::uint32_t] at [2^32].  Addresses are the [uintptr_t] value of a
    [char *]. *)

From Stdlib Require Import ZArith List Lia Bool Ascii String.
From stdpp Require Import base numbers list strings.

Local Open Scope Z_scope.

(** ** Machine words *)

Module Word.

Definition wrap (w x : Z) : Z := x mod 2 ^ w.

Definition wrap64 : Z -> Z := wrap 64.
Definition wrap32 : Z -> Z := wrap 32.

Definition in_range (w x : Z) : bool := (0 <=? x) && (x <? 2 ^ w).

End Word.

Import Word.

(** ** Blocks *)

(** Modelled from the spec: [storage/block.hpp] is not among the sources.  A
    block descriptor carries the number of entries and the byte size (both
    unsigned 64-bit), and the entry size and entry alignment (both
    [unsigned]). *)
Record Block : Type := mkBlock
  { num_entries : Z;
    byte_size : Z;
    entry_size : Z;
    entry_align : Z }.

(** The value-initialised block of [DataLayout() : blocks{} {}]. *)
Definition zero_block : Block := mkBlock 0 0 0 0.

#[global] Instance Block_inhabited : Inhabited Block := populate zero_block.

(** Size and alignment of an element type; what [sizeof(T)] and [alignof(T)]
    give for the template argument of [make_block<T>]. *)
Record TypeInfo : Type := mkTypeInfo
  { sizeof : Z;
    alignof : Z }.

(** Modelled from the spec: [make_block<T>(n)] of [storage/block.hpp]
    produces a descriptor with entry size [sizeof(T)], entry alignment
    [alignof(T)], entry count [n] and byte size [n * sizeof(T)], the product
    being taken in unsigned 64-bit arithmetic. *)
Definition make_block (T : TypeInfo) (n : Z) : Block :=
  mkBlock n (wrap64 (sizeof T * n)) (sizeof T) (alignof T).

(** ** The canary *)

(** [const constexpr char CANARY[4] = {'O', 'S', 'R', 'M'};] *)
Definition CANARY : list ascii := ["O"; "S"; "R"; "M"]%char.

Definition sizeof_CANARY : Z := Z.of_nat (length CANARY).

(** ** The layout *)

(** [enum BlockID]: the enumerators are the indices of [blocks]. *)
Abbreviation BlockID := nat (only parsing).

Module BID.
Definition NAME_CHAR_DATA : BlockID := 0%nat.
Definition EDGE_BASED_NODE_DATA_LIST : BlockID := 1%nat.
Definition ANNOTATION_DATA_LIST : BlockID := 2%nat.
Definition CH_GRAPH_NODE_LIST : BlockID := 3%nat.
Definition CH_GRAPH_EDGE_LIST : BlockID := 4%nat.
Definition CH_EDGE_FILTER_0 : BlockID := 5%nat.
Definition CH_EDGE_FILTER_1 : BlockID := 6%nat.
Definition CH_EDGE_FILTER_2 : BlockID := 7%nat.
Definition CH_EDGE_FILTER_3 : BlockID := 8%nat.
Definition CH_EDGE_FILTER_4 : BlockID := 9%nat.
Definition CH_EDGE_FILTER_5 : BlockID := 10%nat.
Definition CH_EDGE_FILTER_6 : BlockID := 11%nat.
Definition CH_EDGE_FILTER_7 : BlockID := 12%nat.
Definition COORDINATE_LIST : BlockID := 13%nat.
Definition OSM_NODE_ID_LIST : BlockID := 14%nat.
Definition TURN_INSTRUCTION : BlockID := 15%nat.
Definition ENTRY_CLASSID : BlockID := 16%nat.
Definition R_SEARCH_TREE : BlockID := 17%nat.
Definition R_SEARCH_TREE_LEVELS : BlockID := 18%nat.
Definition GEOMETRIES_INDEX : BlockID := 19%nat.
Definition GEOMETRIES_NODE_LIST : BlockID := 20%nat.
Definition GEOMETRIES_FWD_WEIGHT_LIST : BlockID := 21%nat.
Definition GEOMETRIES_REV_WEIGHT_LIST : BlockID := 22%nat.
Definition GEOMETRIES_FWD_DURATION_LIST : BlockID := 23%nat.
Definition GEOMETRIES_REV_DURATION_LIST : BlockID := 24%nat.
Definition GEOMETRIES_FWD_DATASOURCES_LIST : BlockID := 25%nat.
Definition GEOMETRIES_REV_DATASOURCES_LIST : BlockID := 26%nat.
Definition HSGR_CHECKSUM : BlockID := 27%nat.
Definition TIMESTAMP : BlockID := 28%nat.
Definition FILE_INDEX_PATH : BlockID := 29%nat.
Definition DATASOURCES_NAMES : BlockID := 30%nat.
Definition PROPERTIES : BlockID := 31%nat.
Definition BEARING_CLASSID : BlockID := 32%nat.
Definition BEARING_OFFSETS : BlockID := 33%nat.
Definition BEARING_BLOCKS : BlockID := 34%nat.
Definition BEARING_VALUES : BlockID := 35%nat.
Definition ENTRY_CLASS : BlockID := 36%nat.
Definition LANE_DATA_ID : BlockID := 37%nat.
Definition PRE_TURN_BEARING : BlockID := 38%nat.
Definition POST_TURN_BEARING : BlockID := 39%nat.
Definition TURN_LANE_DATA : BlockID := 40%nat.
Definition LANE_DESCRIPTION_OFFSETS : BlockID := 41%nat.
Definition LANE_DESCRIPTION_MASKS : BlockID := 42%nat.
Definition TURN_WEIGHT_PENALTIES : BlockID := 43%nat.
Definition TURN_DURATION_PENALTIES : BlockID := 44%nat.
Definition MLD_LEVEL_DATA : BlockID := 45%nat.
Definition MLD_PARTITION : BlockID := 46%nat.
Definition MLD_CELL_TO_CHILDREN : BlockID := 47%nat.
Definition MLD_CELL_WEIGHTS_0 : BlockID := 48%nat.
Definition MLD_CELL_WEIGHTS_1 : BlockID := 49%nat.
Definition MLD_CELL_WEIGHTS_2 : BlockID := 50%nat.
Definition MLD_CELL_WEIGHTS_3 : BlockID := 51%nat.
Definition MLD_CELL_WEIGHTS_4 : BlockID := 52%nat.
Definition MLD_CELL_WEIGHTS_5 : BlockID := 53%nat.
Definition MLD_CELL_WEIGHTS_6 : BlockID := 54%nat.
Definition MLD_CELL_WEIGHTS_7 : BlockID := 55%nat.
Definition MLD_CELL_DURATIONS_0 : BlockID := 56%nat.
Definition MLD_CELL_DURATIONS_1 : BlockID := 57%nat.
Definition MLD_CELL_DURATIONS_2 : BlockID := 58%nat.
Definition MLD_CELL_DURATIONS_3 : BlockID := 59%nat.
Definition MLD_CELL_DURATIONS_4 : BlockID := 60%nat.
Definition MLD_CELL_DURATIONS_5 : BlockID := 61%nat.
Definition MLD_CELL_DURATIONS_6 : BlockID := 62%nat.
Definition MLD_CELL_DURATIONS_7 : BlockID := 63%nat.
Definition MLD_CELL_SOURCE_BOUNDARY : BlockID := 64%nat.
Definition MLD_CELL_DESTINATION_BOUNDARY : BlockID := 65%nat.
Definition MLD_CELLS : BlockID := 66%nat.
Definition MLD_CELL_LEVEL_OFFSETS : BlockID := 67%nat.
Definition MLD_GRAPH_NODE_LIST : BlockID := 68%nat.
Definition MLD_GRAPH_EDGE_LIST : BlockID := 69%nat.
Definition MLD_GRAPH_NODE_TO_OFFSET : BlockID := 70%nat.
Definition MANEUVER_OVERRIDES : BlockID := 71%nat.
Definition MANEUVER_OVERRIDE_NODE_SEQUENCES : BlockID := 72%nat.
End BID.

Definition NUM_BLOCKS : nat := 73%nat.

(** [struct DataLayout { std::array<Block, NUM_BLOCKS> blocks; ... }] *)
Record DataLayout : Type := mkDataLayout
  { blocks : list Block }.

(** [DataLayout() : blocks{} {}] *)
Definition new_DataLayout : DataLayout :=
  mkDataLayout (replicate NUM_BLOCKS zero_block).

(** [blocks[bid] = std::move(block)].  An index outside the array is
    undefined behaviour in the source; here it leaves the layout unchanged. *)
Definition SetBlock (layout : DataLayout) (bid : BlockID) (block : Block)
  : DataLayout :=
  mkDataLayout (<[bid := block]> (blocks layout)).

Definition GetBlockEntries (layout : DataLayout) (bid : BlockID) : Z :=
  num_entries (blocks layout !!! bid).

Definition GetBlockSize (layout : DataLayout) (bid : BlockID) : Z :=
  byte_size (blocks layout !!! bid).

(** [GetSizeOfLayout]: the loop accumulates into a [uint64_t]. *)
Definition GetSizeOfLayout (layout : DataLayout) : Z :=
  fold_left
    (fun result i =>
       wrap64 (result +
               wrap64 (2 * sizeof_CANARY + GetBlockSize layout i +
                       entry_align (blocks layout !!! i))))
    (seq 0 NUM_BLOCKS) 0.

(** [align(align, size, ptr)]:
    [(intptr - 1u + align) & -align] in [uintptr_t] arithmetic. *)
Definition align (al : Z) (ptr : Z) : Z :=
  Z.land (wrap64 (wrap64 (ptr - 1) + al)) (wrap64 (- al)).

(** [static_cast<char *>(ptr) + n] *)
Definition ptr_add (ptr n : Z) : Z := wrap64 (ptr + n).

(** One iteration of the loop of [GetAlignedBlockPtr]. *)
Definition skip_block (layout : DataLayout) (ptr : Z) (i : nat) : Z :=
  let ptr := ptr_add ptr sizeof_CANARY in
  let ptr := align (entry_align (blocks layout !!! i)) ptr in
  let ptr := ptr_add ptr (GetBlockSize layout i) in
  ptr_add ptr sizeof_CANARY.

Definition GetAlignedBlockPtr (layout : DataLayout) (ptr : Z) (bid : BlockID)
  : Z :=
  let ptr := fold_left (skip_block layout) (seq 0 bid) ptr in
  let ptr := ptr_add ptr sizeof_CANARY in
  align (entry_align (blocks layout !!! bid)) ptr.

(** The address just behind the end canary of the last block: the pointer the
    loop of [GetAlignedBlockPtr] holds after [NUM_BLOCKS] iterations. *)
Definition layout_end (layout : DataLayout) (ptr : Z) : Z :=
  fold_left (skip_block layout) (seq 0 NUM_BLOCKS) ptr.

(** Offsets are distances from the base, as [uintptr_t] differences. *)
Definition offset_from (base ptr : Z) : Z := wrap64 (ptr - base).

Definition aligned_offset_of (layout : DataLayout) (base : Z) (bid : BlockID)
  : Z :=
  offset_from base (GetAlignedBlockPtr layout base bid).

(** *** Well-formed layouts *)

(** A positive power of two that fits the [unsigned] alignment field. *)
Definition is_pow2 (a : Z) : bool :=
  existsb (fun k => a =? 2 ^ Z.of_nat k) (seq 0 32).

Definition block_ok (b : Block) : bool :=
  in_range 64 (byte_size b) && is_pow2 (entry_align b).

(** Every one of the [NUM_BLOCKS] blocks has been set, with a positive
    power-of-two alignment. *)
Definition layout_ok (layout : DataLayout) : bool :=
  (length (blocks layout) =? NUM_BLOCKS)%nat && forallb block_ok (blocks layout).

(** The sum the layout size stands for, as a mathematical integer. *)
Definition block_bound (b : Block) : Z :=
  2 * sizeof_CANARY + byte_size b + entry_align b.

Definition bound_sum (bs : list Block) : Z :=
  foldr (fun b acc => block_bound b + acc) 0 bs.

Definition size_sum (layout : DataLayout) : Z := bound_sum (blocks layout).

(** The base address is a multiple of every block's alignment. *)
Definition base_aligned (layout : DataLayout) (base : Z) : bool :=
  forallb (fun b => base mod entry_align b =? 0) (blocks layout).

(** Rounding up to a multiple of [a], over the integers. *)
Definition up (a p : Z) : Z := a * ((p + a - 1) / a).

(** *** The replay definition of the specification

    Over the integers, as the specification words it: a position is not
    reduced to 64 bits. *)

Module Replay.

(** Advance a position by [n] bytes. *)
Definition advance (p n : Z) : Z := p + n.

(** The least multiple of [a] that is not below [p]. *)
Definition round_up (a p : Z) : Z := up a p.

(** For each earlier block: advance by a canary, round up to the block's
    alignment, advance by its byte size, advance by a canary. *)
Fixpoint earlier (bs : list Block) (p : Z) : Z :=
  match bs with
  | [] => p
  | b :: bs' =>
      earlier bs'
        (advance
           (advance (round_up (entry_align b) (advance p 4)) (byte_size b)) 4)
  end.

(** Finally advance by a canary and round up to the queried block's
    alignment. *)
Definition payload (layout : DataLayout) (base : Z) (bid : BlockID) : Z :=
  round_up (entry_align (blocks layout !!! bid))
    (advance (earlier (take bid (blocks layout)) base) 4).

End Replay.

(** *** Exact positions over the integers

    The positions of the replay as a fold over the blocks, the way the loop
    of the code runs; used to state how much room the blocks take. *)

(** The position behind a block (start canary, padding, payload, end
    canary) that starts at [p]. *)
Definition skipZ (p : Z) (b : Block) : Z :=
  up (entry_align b) (p + 4) + byte_size b + 4.

Definition endZ (bs : list Block) (p : Z) : Z := fold_left skipZ bs p.

Definition payloadZ (bs : list Block) (b : Block) (p : Z) : Z :=
  up (entry_align b) (endZ bs p + 4).

(** *** Sample layouts *)

(** A layout with entries of 1, 4 and 8 bytes in turn, block [i] holding [i]
    entries. *)
Definition demo_layout : DataLayout :=
  mkDataLayout
    (map (fun i =>
            let w := match Z.of_nat i mod 3 with 0 => 1 | 1 => 4 | _ => 8 end in
            make_block (mkTypeInfo w w) (Z.of_nat i))
       (seq 0 NUM_BLOCKS)).

(** Layouts whose first block is close to [2^64] bytes long; the other
    blocks are empty blocks of bytes. *)
Definition long_layout (n : Z) : DataLayout :=
  SetBlock (mkDataLayout (replicate NUM_BLOCKS (make_block (mkTypeInfo 1 1) 0)))
    BID.NAME_CHAR_DATA (make_block (mkTypeInfo 1 1) n).

(** ** Shared memory *)

(** The bytes of the address space, by address. *)
Definition Memory : Type := Z -> ascii.

(** A region as the operating system hands it out: filled with zero bytes. *)
Definition zero_memory : Memory := fun _ => zero.

(** [std::copy(first, last, dest)]: the bytes of [data] land at [dest],
    [dest + 1], ... *)
Definition copy_to (mem : Memory) (dest : Z) (data : list ascii) : Memory :=
  fun a =>
    if (dest <=? a) && (a <? dest + Z.of_nat (length data))
    then nth (Z.to_nat (a - dest)) data zero
    else mem a.

(** A reader that copies [n] bytes of a file to [dest]; byte [j] of the data
    is [data j]. *)
Definition read_to (mem : Memory) (dest n : Z) (data : Z -> ascii) : Memory :=
  fun a => if (dest <=? a) && (a <? dest + n) then data (a - dest) else mem a.

(** The [n] bytes found at [src]. *)
Definition bytes_at (mem : Memory) (src : Z) (n : nat) : list ascii :=
  map (fun j => mem (src + Z.of_nat j)) (seq 0 n).

(** [std::equal(CANARY, CANARY + sizeof(CANARY), ptr)] *)
Definition canary_alive (mem : Memory) (ptr : Z) : bool :=
  bool_decide (bytes_at mem ptr (length CANARY) = CANARY).

(** ** Exceptions and the store *)

Inductive CanarySide : Type := StartCanary | EndCanary.

(** Modelled from the spec: the readers of [storage/io.hpp] and
    [makeSharedMemory] are not among the sources.  The spec gives them the
    failures of a file without the expected fingerprint, of an unreadable
    file or a short read, and of a segment that the operating system
    refuses. *)
Inductive failure : Type :=
  | FingerprintMismatch (path : string)
  | IOFailure (path : string) (cause : string)
  | RegionAllocationFailed (bytes : Z).

(** The [util::exception]s thrown by the code, by their message:
    "Only 8 metrics are supported at the same time.",
    "Connectivity checksum c in f does not equal to checksum c' in f'", and
    "Start (End) canary of block corrupted. (name)"; and what the code lets
    pass from the readers and from [makeSharedMemory]. *)
Inductive exception : Type :=
  | TooManyMetrics (max : Z)
  | ChecksumMismatch (graph_checksum : Z) (graph_file : string)
                     (turns_checksum : Z) (turns_file : string)
  | CanaryCorrupt (side : CanarySide) (bid : BlockID)
  | Failure (f : failure).

Inductive result (A : Type) : Type :=
  | Ok (a : A)
  | Throw (e : exception).

Arguments Ok {A} a.
Arguments Throw {A} e.

(** Code that writes shared memory and may throw. *)
Definition Mem (A : Type) : Type := Memory -> result (A * Memory).

Definition ret {A} (a : A) : Mem A := fun mem => Ok (a, mem).

Definition bind {A B} (m : Mem A) (k : A -> Mem B) : Mem B :=
  fun mem =>
    match m mem with
    | Ok (a, mem') => k a mem'
    | Throw e => Throw e
    end.

Definition throw {A} (e : exception) : Mem A := fun _ => Throw e.

Definition modify (f : Memory -> Memory) : Mem unit := fun mem => Ok (tt, f mem).

Notation "'let*' x ':=' m 'in' k" := (bind m (fun x => k))
  (at level 10, x name, m at level 100, k at level 200).
Notation "'exec' m 'in' k" := (bind m (fun _ => k))
  (at level 10, m at level 100, k at level 200).

(** A loop over a list of indices that collects what the body returns. *)
Fixpoint for_each {A} (body : nat -> Mem A) (indices : list nat) : Mem (list A) :=
  match indices with
  | [] => ret []
  | i :: rest =>
      let* a := body i in
      let* l := for_each body rest in
      ret (a :: l)
  end.

(** [util::irange<std::size_t>(first, last)] *)
Definition irange (first last : nat) : list nat := seq first (last - first).

(** [GetBlockPtr<T, WRITE_CANARY>(shared_memory, bid)].  The canary pointers
    are [char *] sums and wrap around like every address.  The memory has a
    byte at every address: where the process faults on an address outside
    its segments (at the start canary of an unset block, whose pointer is
    null), the model reads or writes that byte, and the four bytes of a
    canary that begins less than four bytes before [2^64] are the bytes at
    the next integers.  The statements about blocks carry the hypotheses
    that put the block with both canaries inside the region. *)
Definition GetBlockPtr (WRITE_CANARY : bool) (layout : DataLayout)
    (shared_memory : Z) (bid : BlockID) : Mem Z :=
  fun mem =>
    let ptr := GetAlignedBlockPtr layout shared_memory bid in
    let start_canary_ptr := ptr_add ptr (- sizeof_CANARY) in
    let end_canary_ptr := ptr_add ptr (GetBlockSize layout bid) in
    if WRITE_CANARY then
      let mem := copy_to mem start_canary_ptr CANARY in
      let mem := copy_to mem end_canary_ptr CANARY in
      Ok (ptr, mem)
    else
      let start_canary_alive := canary_alive mem start_canary_ptr in
      let end_canary_alive := canary_alive mem end_canary_ptr in
      if negb start_canary_alive then Throw (CanaryCorrupt StartCanary bid)
      else if negb end_canary_alive then Throw (CanaryCorrupt EndCanary bid)
      else Ok (ptr, mem).

(** ** The input files *)

(** The element types that [make_block<T>] is instantiated with. *)
Inductive CType : Type :=
  | T_char | T_unsigned | T_uint32 | T_uint64
  | T_TurnLaneMask | T_TurnBearing | T_TurnInstruction | T_LaneDataID
  | T_EntryClassID | T_EdgeBasedNode | T_NodeBasedEdgeAnnotation
  | T_QueryGraph_NodeArrayEntry | T_QueryGraph_EdgeArrayEntry
  | T_RTreeNode | T_ProfileProperties | T_TurnPenalty | T_Coordinate
  | T_PackedOSMIDs_block | T_NodeID | T_SegmentWeight_block
  | T_SegmentDuration_block | T_DatasourceID | T_Datasources
  | T_DiscreteBearing | T_BearingClassID | T_RangeTable_BlockT
  | T_EntryClass | T_LaneTupleIdPair | T_StorageManeuverOverride
  | T_LevelData | T_PartitionID | T_CellID | T_CellData
  | T_EdgeWeight | T_EdgeDuration
  | T_MLGraph_NodeArrayEntry | T_MLGraph_EdgeArrayEntry | T_MLGraph_EdgeOffset.

Definition all_CTypes : list CType :=
  [ T_char; T_unsigned; T_uint32; T_uint64;
    T_TurnLaneMask; T_TurnBearing; T_TurnInstruction; T_LaneDataID;
    T_EntryClassID; T_EdgeBasedNode; T_NodeBasedEdgeAnnotation;
    T_QueryGraph_NodeArrayEntry; T_QueryGraph_EdgeArrayEntry;
    T_RTreeNode; T_ProfileProperties; T_TurnPenalty; T_Coordinate;
    T_PackedOSMIDs_block; T_NodeID; T_SegmentWeight_block;
    T_SegmentDuration_block; T_DatasourceID; T_Datasources;
    T_DiscreteBearing; T_BearingClassID; T_RangeTable_BlockT;
    T_EntryClass; T_LaneTupleIdPair; T_StorageManeuverOverride;
    T_LevelData; T_PartitionID; T_CellID; T_CellData;
    T_EdgeWeight; T_EdgeDuration;
    T_MLGraph_NodeArrayEntry; T_MLGraph_EdgeArrayEntry; T_MLGraph_EdgeOffset ].

(** What the compiler fixes: the size and alignment of each element type. *)
Definition ABI : Type := CType -> TypeInfo.

(** Every alignment is a positive power of two that fits [unsigned]. *)
Definition abi_ok (abi : ABI) : bool :=
  forallb (fun T => is_pow2 (alignof (abi T))) all_CTypes.

(** [.osrm.hsgr]: checksum, node array, edge array, the number of metrics
    with their edge filters, and the connectivity checksum. *)
Record HsgrFile : Type := mkHsgrFile
  { hsgr_num_nodes : Z;
    hsgr_num_edges : Z;
    hsgr_num_metrics : Z;
    hsgr_connectivity_checksum : Z }.

(** [.osrm.partition] *)
Record PartitionFile : Type := mkPartitionFile
  { partition_entries_count : Z;
    children_entries_count : Z }.

(** [.osrm.cells] *)
Record CellsFile : Type := mkCellsFile
  { source_node_count : Z;
    destination_node_count : Z;
    cell_count : Z;
    level_offsets_count : Z }.

(** [.osrm.cell_metrics]: the number of metrics, and per metric the length
    of the weights and of the durations vector. *)
Record CellMetricsFile : Type := mkCellMetricsFile
  { num_metric : Z;
    weights_count : nat -> Z;
    durations_count : nat -> Z }.

(** [.osrm.mldgr] *)
Record MldgrFile : Type := mkMldgrFile
  { mldgr_num_nodes : Z;
    mldgr_num_edges : Z;
    mldgr_num_node_offsets : Z;
    mldgr_connectivity_checksum : Z }.

(** The input set under the configured base path: what the readers of
    [storage/io.hpp] and of the [files] namespaces return for each file.
    Counts are the unsigned 64-bit length prefixes, checksums are
    [std::uint32_t] values; an optional file is [None] when
    [boost::filesystem::exists] says no.  [block_data bid j] is byte [j] of
    what the file holds for block [bid].  The record stands for files that
    the readers accept: each has its fingerprint and is as long as its
    length prefixes say.  A pass whose reader fails is a pass that throws a
    [Failure]; the publisher takes it as a parameter of [Run_with]. *)
Record StorageConfig : Type := mkStorageConfig
  { absolute_file_index_path : list ascii;
    name_file_size : Z;
    tls_num_offsets : Z;
    tls_num_masks : Z;
    number_of_original_edges : Z;
    edges_connectivity_checksum : Z;
    nodes_number : Z;
    annotations_number : Z;
    hsgr : option HsgrFile;
    tree_size : Z;
    tree_levels_size : Z;
    timestamp_size : Z;
    number_of_weight_penalties : Z;
    number_of_duration_penalties : Z;
    coordinate_list_size : Z;
    num_id_blocks : Z;
    number_of_geometries_indices : Z;
    number_of_compressed_geometries : Z;
    number_of_segment_weight_blocks : Z;
    number_of_rev_weight_blocks : Z;
    number_of_segment_duration_blocks : Z;
    num_discreate_bearings : Z;
    num_bearing_classes : Z;
    bearing_blocks : Z;
    bearing_offsets : Z;
    num_entry_classes : Z;
    lane_tuple_count : Z;
    number_of_overrides : Z;
    number_of_nodes : Z;
    partition : option PartitionFile;
    cells : option CellsFile;
    cell_metrics : option CellMetricsFile;
    mldgr : option MldgrFile;
    block_data : BlockID -> Z -> ascii }.

(** [static constexpr std::size_t NUM_METRICS = 8;] *)
Definition NUM_METRICS : Z := 8.

Import BID.

(** ** The sizing pass *)

Section Sizing.

Variable abi : ABI.

(** [make_block<T>(n)] at the element type [T]. *)
Definition block_of (T : CType) (n : Z) : Block := make_block (abi T) n.

(** A loop [for (index : irange(first, last)) layout.SetBlock(id0 + index,
    block index)]. *)
Definition set_blocks (layout : DataLayout) (id0 : BlockID)
    (first last : nat) (block : nat -> Block) : DataLayout :=
  fold_left (fun layout index => SetBlock layout (id0 + index) (block index))
    (irange first last) layout.

(** The [.osrm.hsgr] part of [PopulateLayout]. *)
Definition layout_hsgr (config : StorageConfig) (layout : DataLayout)
  : result DataLayout :=
  match hsgr config with
  | Some reader =>
      let num_nodes := hsgr_num_nodes reader in
      let num_edges := hsgr_num_edges reader in
      let num_metrics := hsgr_num_metrics reader in
      if NUM_METRICS <? num_metrics then Throw (TooManyMetrics NUM_METRICS)
      else
        let layout := SetBlock layout HSGR_CHECKSUM (block_of T_unsigned 1) in
        let layout :=
          SetBlock layout CH_GRAPH_NODE_LIST
            (block_of T_QueryGraph_NodeArrayEntry num_nodes) in
        let layout :=
          SetBlock layout CH_GRAPH_EDGE_LIST
            (block_of T_QueryGraph_EdgeArrayEntry num_edges) in
        let layout :=
          set_blocks layout CH_EDGE_FILTER_0 0 (Z.to_nat num_metrics)
            (fun _ => block_of T_unsigned num_edges) in
        let layout :=
          set_blocks layout CH_EDGE_FILTER_0 (Z.to_nat num_metrics)
            (Z.to_nat NUM_METRICS) (fun _ => block_of T_unsigned 0) in
        Ok layout
  | None =>
      let layout := SetBlock layout HSGR_CHECKSUM (block_of T_unsigned 0) in
      let layout :=
        SetBlock layout CH_GRAPH_NODE_LIST (block_of T_QueryGraph_NodeArrayEntry 0) in
      let layout :=
        SetBlock layout CH_GRAPH_EDGE_LIST (block_of T_QueryGraph_EdgeArrayEntry 0) in
      let layout :=
        set_blocks layout CH_EDGE_FILTER_0 0 (Z.to_nat NUM_METRICS)
          (fun _ => block_of T_unsigned 0) in
      Ok layout
  end.

(** The [.osrm.partition] part. *)
Definition layout_partition (config : StorageConfig) (layout : DataLayout)
  : DataLayout :=
  match partition config with
  | Some reader =>
      let layout := SetBlock layout MLD_LEVEL_DATA (block_of T_LevelData 1) in
      let layout :=
        SetBlock layout MLD_PARTITION
          (block_of T_PartitionID (partition_entries_count reader)) in
      SetBlock layout MLD_CELL_TO_CHILDREN
        (block_of T_CellID (children_entries_count reader))
  | None =>
      let layout := SetBlock layout MLD_LEVEL_DATA (block_of T_LevelData 0) in
      let layout := SetBlock layout MLD_PARTITION (block_of T_PartitionID 0) in
      SetBlock layout MLD_CELL_TO_CHILDREN (block_of T_CellID 0)
  end.

(** The [.osrm.cells] part. *)
Definition layout_cells (config : StorageConfig) (layout : DataLayout)
  : DataLayout :=
  match cells config with
  | Some reader =>
      let layout :=
        SetBlock layout MLD_CELL_SOURCE_BOUNDARY
          (block_of T_NodeID (source_node_count reader)) in
      let layout :=
        SetBlock layout MLD_CELL_DESTINATION_BOUNDARY
          (block_of T_NodeID (destination_node_count reader)) in
      let layout := SetBlock layout MLD_CELLS (block_of T_CellData (cell_count reader)) in
      SetBlock layout MLD_CELL_LEVEL_OFFSETS
        (block_of T_uint64 (level_offsets_count reader))
  | None =>
      let layout := SetBlock layout MLD_CELL_SOURCE_BOUNDARY (block_of T_char 0) in
      let layout := SetBlock layout MLD_CELL_DESTINATION_BOUNDARY (block_of T_char 0) in
      let layout := SetBlock layout MLD_CELLS (block_of T_char 0) in
      SetBlock layout MLD_CELL_LEVEL_OFFSETS (block_of T_char 0)
  end.

(** The [.osrm.cell_metrics] part. *)
Definition layout_cell_metrics (config : StorageConfig) (layout : DataLayout)
  : result DataLayout :=
  match cell_metrics config with
  | Some reader =>
      if NUM_METRICS <? num_metric reader then Throw (TooManyMetrics NUM_METRICS)
      else
        let layout :=
          fold_left
            (fun layout index =>
               let layout :=
                 SetBlock layout (MLD_CELL_WEIGHTS_0 + index)
                   (block_of T_EdgeWeight (weights_count reader index)) in
               SetBlock layout (MLD_CELL_DURATIONS_0 + index)
                 (block_of T_EdgeDuration (durations_count reader index)))
            (irange 0 (Z.to_nat (num_metric reader))) layout in
        let layout :=
          fold_left
            (fun layout index =>
               let layout :=
                 SetBlock layout (MLD_CELL_WEIGHTS_0 + index) (block_of T_EdgeWeight 0) in
               SetBlock layout (MLD_CELL_DURATIONS_0 + index) (block_of T_EdgeDuration 0))
            (irange (Z.to_nat (num_metric reader)) (Z.to_nat NUM_METRICS)) layout in
        Ok layout
  | None =>
      let layout := SetBlock layout MLD_CELL_WEIGHTS_0 (block_of T_char 0) in
      let layout := SetBlock layout MLD_CELL_WEIGHTS_1 (block_of T_char 0) in
      let layout := SetBlock layout MLD_CELL_WEIGHTS_2 (block_of T_char 0) in
      let layout := SetBlock layout MLD_CELL_WEIGHTS_3 (block_of T_char 0) in
      let layout := SetBlock layout MLD_CELL_WEIGHTS_4 (block_of T_char 0) in
      let layout := SetBlock layout MLD_CELL_WEIGHTS_5 (block_of T_char 0) in
      let layout := SetBlock layout MLD_CELL_WEIGHTS_6 (block_of T_char 0) in
      let layout := SetBlock layout MLD_CELL_WEIGHTS_7 (block_of T_char 0) in
      let layout := SetBlock layout MLD_CELL_DURATIONS_0 (block_of T_char 0) in
      let layout := SetBlock layout MLD_CELL_DURATIONS_1 (block_of T_char 0) in
      let layout := SetBlock layout MLD_CELL_DURATIONS_2 (block_of T_char 0) in
      let layout := SetBlock layout MLD_CELL_DURATIONS_3 (block_of T_char 0) in
      let layout := SetBlock layout MLD_CELL_DURATIONS_4 (block_of T_char 0) in
      let layout := SetBlock layout MLD_CELL_DURATIONS_5 (block_of T_char 0) in
      let layout := SetBlock layout MLD_CELL_DURATIONS_6 (block_of T_char 0) in
      let layout := SetBlock layout MLD_CELL_DURATIONS_7 (block_of T_char 0) in
      Ok layout
  end.

(** The [.osrm.mldgr] part. *)
Definition layout_mldgr (config : StorageConfig) (layout : DataLayout)
  : DataLayout :=
  match mldgr config with
  | Some reader =>
      let layout :=
        SetBlock layout MLD_GRAPH_NODE_LIST
          (block_of T_MLGraph_NodeArrayEntry (mldgr_num_nodes reader)) in
      let layout :=
        SetBlock layout MLD_GRAPH_EDGE_LIST
          (block_of T_MLGraph_EdgeArrayEntry (mldgr_num_edges reader)) in
      SetBlock layout MLD_GRAPH_NODE_TO_OFFSET
        (block_of T_MLGraph_EdgeOffset (mldgr_num_node_offsets reader))
  | None =>
      let layout :=
        SetBlock layout MLD_GRAPH_NODE_LIST (block_of T_MLGraph_NodeArrayEntry 0) in
      let layout :=
        SetBlock layout MLD_GRAPH_EDGE_LIST (block_of T_MLGraph_EdgeArrayEntry 0) in
      SetBlock layout MLD_GRAPH_NODE_TO_OFFSET (block_of T_MLGraph_EdgeOffset 0)
  end.

(** The blocks sized between the [.osrm.hsgr] part and the MLD parts. *)
Definition layout_middle (config : StorageConfig) (layout : DataLayout)
  : DataLayout :=
  let layout := SetBlock layout R_SEARCH_TREE (block_of T_RTreeNode (tree_size config)) in
  let layout :=
    SetBlock layout R_SEARCH_TREE_LEVELS (block_of T_uint64 (tree_levels_size config)) in
  let layout := SetBlock layout PROPERTIES (block_of T_ProfileProperties 1) in
  let layout := SetBlock layout TIMESTAMP (block_of T_char (timestamp_size config)) in
  let layout :=
    SetBlock layout TURN_WEIGHT_PENALTIES
      (block_of T_TurnPenalty (number_of_weight_penalties config)) in
  let layout :=
    SetBlock layout TURN_DURATION_PENALTIES
      (block_of T_TurnPenalty (number_of_duration_penalties config)) in
  let layout :=
    SetBlock layout COORDINATE_LIST (block_of T_Coordinate (coordinate_list_size config)) in
  let layout :=
    SetBlock layout OSM_NODE_ID_LIST (block_of T_PackedOSMIDs_block (num_id_blocks config)) in
  let layout :=
    SetBlock layout GEOMETRIES_INDEX
      (block_of T_unsigned (number_of_geometries_indices config)) in
  let layout :=
    SetBlock layout GEOMETRIES_NODE_LIST
      (block_of T_NodeID (number_of_compressed_geometries config)) in
  let layout :=
    SetBlock layout GEOMETRIES_FWD_WEIGHT_LIST
      (block_of T_SegmentWeight_block (number_of_segment_weight_blocks config)) in
  let layout :=
    SetBlock layout GEOMETRIES_REV_WEIGHT_LIST
      (block_of T_SegmentWeight_block (number_of_segment_weight_blocks config)) in
  let layout :=
    SetBlock layout GEOMETRIES_FWD_DURATION_LIST
      (block_of T_SegmentDuration_block (number_of_segment_duration_blocks config)) in
  let layout :=
    SetBlock layout GEOMETRIES_REV_DURATION_LIST
      (block_of T_SegmentDuration_block (number_of_segment_duration_blocks config)) in
  let layout :=
    SetBlock layout GEOMETRIES_FWD_DATASOURCES_LIST
      (block_of T_DatasourceID (number_of_compressed_geometries config)) in
  let layout :=
    SetBlock layout GEOMETRIES_REV_DATASOURCES_LIST
      (block_of T_DatasourceID (number_of_compressed_geometries config)) in
  let layout := SetBlock layout DATASOURCES_NAMES (block_of T_Datasources 1) in
  let layout :=
    SetBlock layout BEARING_VALUES
      (block_of T_DiscreteBearing (num_discreate_bearings config)) in
  let layout :=
    SetBlock layout BEARING_CLASSID (block_of T_BearingClassID (num_bearing_classes config)) in
  let layout := SetBlock layout BEARING_OFFSETS (block_of T_unsigned (bearing_blocks config)) in
  let layout :=
    SetBlock layout BEARING_BLOCKS (block_of T_RangeTable_BlockT (bearing_offsets config)) in
  let layout :=
    SetBlock layout ENTRY_CLASS (block_of T_EntryClass (num_entry_classes config)) in
  let layout :=
    SetBlock layout TURN_LANE_DATA (block_of T_LaneTupleIdPair (lane_tuple_count config)) in
  let layout :=
    SetBlock layout MANEUVER_OVERRIDES
      (block_of T_StorageManeuverOverride (number_of_overrides config)) in
  SetBlock layout MANEUVER_OVERRIDE_NODE_SEQUENCES
    (block_of T_NodeID (number_of_nodes config)).

(** The blocks sized before the [.osrm.hsgr] part. *)
Definition layout_front (config : StorageConfig) (layout : DataLayout)
  : DataLayout :=
  let layout :=
    SetBlock layout FILE_INDEX_PATH
      (block_of T_char (Z.of_nat (length (absolute_file_index_path config)) + 1)) in
  let layout := SetBlock layout NAME_CHAR_DATA (block_of T_char (name_file_size config)) in
  let layout :=
    SetBlock layout LANE_DESCRIPTION_OFFSETS (block_of T_uint32 (tls_num_offsets config)) in
  let layout :=
    SetBlock layout LANE_DESCRIPTION_MASKS (block_of T_TurnLaneMask (tls_num_masks config)) in
  let layout :=
    SetBlock layout PRE_TURN_BEARING
      (block_of T_TurnBearing (number_of_original_edges config)) in
  let layout :=
    SetBlock layout POST_TURN_BEARING
      (block_of T_TurnBearing (number_of_original_edges config)) in
  let layout :=
    SetBlock layout TURN_INSTRUCTION
      (block_of T_TurnInstruction (number_of_original_edges config)) in
  let layout :=
    SetBlock layout LANE_DATA_ID (block_of T_LaneDataID (number_of_original_edges config)) in
  let layout :=
    SetBlock layout ENTRY_CLASSID (block_of T_EntryClassID (number_of_original_edges config)) in
  let layout :=
    SetBlock layout EDGE_BASED_NODE_DATA_LIST (block_of T_EdgeBasedNode (nodes_number config)) in
  SetBlock layout ANNOTATION_DATA_LIST
    (block_of T_NodeBasedEdgeAnnotation (annotations_number config)).

(** [Storage::PopulateLayout].  The [BOOST_ASSERT] on the reverse weight
    blocks is compiled out of release builds and is not modelled. *)
Definition PopulateLayout (config : StorageConfig) (layout : DataLayout)
  : result DataLayout :=
  let layout := layout_front config layout in
  match layout_hsgr config layout with
  | Throw e => Throw e
  | Ok layout =>
      let layout := layout_middle config layout in
      let layout := layout_partition config layout in
      let layout := layout_cells config layout in
      match layout_cell_metrics config layout with
      | Throw e => Throw e
      | Ok layout => Ok (layout_mldgr config layout)
      end
  end.

End Sizing.

(** ** The populate pass *)

Section Populating.

Variable abi : ABI.
Variable config : StorageConfig.
Variable layout : DataLayout.
Variable memory_ptr : Z.

(** [layout.GetBlockPtr<T, true>(memory_ptr, bid)] *)
Definition block_ptr (bid : BlockID) : Mem Z :=
  GetBlockPtr true layout memory_ptr bid.

(** Modelled from the spec: [io::FileReader::ReadInto<T>(dest, count)] of
    [storage/io.hpp] copies [count * sizeof(T)] bytes of the file to [dest];
    the product is a [std::size_t]. *)
Definition ReadInto (T : CType) (bid : BlockID) (dest count : Z) : Mem unit :=
  modify (fun mem =>
            read_to mem dest (wrap64 (sizeof (abi T) * count)) (block_data config bid)).

(** Modelled from the spec: the readers of the [files] namespaces
    ([readTurnData], [readGraph], ...) are not among the sources.  A reader
    that is handed a view of a block copies the file's data into the payload
    of that block. *)
Definition read_view (bid : BlockID) (ptr : Z) : Mem unit :=
  modify (fun mem =>
            read_to mem ptr (GetBlockSize layout bid) (block_data config bid)).

Definition file_index_path : Mem unit :=
  let* file_index_path_ptr := block_ptr FILE_INDEX_PATH in
  exec modify (fun mem =>
                 read_to mem file_index_path_ptr
                   (GetBlockSize layout FILE_INDEX_PATH) (fun _ => zero)) in
  modify (fun mem =>
            copy_to mem file_index_path_ptr (absolute_file_index_path config)).

Definition name_data : Mem unit :=
  let* name_char_ptr := block_ptr NAME_CHAR_DATA in
  ReadInto T_char NAME_CHAR_DATA name_char_ptr (name_file_size config).

Definition turn_lane_data : Mem unit :=
  let* turn_lane_data_ptr := block_ptr TURN_LANE_DATA in
  ReadInto T_LaneTupleIdPair TURN_LANE_DATA turn_lane_data_ptr (lane_tuple_count config).

Definition turn_lane_descriptions : Mem unit :=
  let* offsets_ptr := block_ptr LANE_DESCRIPTION_OFFSETS in
  let* masks_ptr := block_ptr LANE_DESCRIPTION_MASKS in
  exec read_view LANE_DESCRIPTION_OFFSETS offsets_ptr in
  read_view LANE_DESCRIPTION_MASKS masks_ptr.

Definition edge_based_nodes_data : Mem unit :=
  let* edge_based_node_data_list_ptr := block_ptr EDGE_BASED_NODE_DATA_LIST in
  let* annotation_data_list_ptr := block_ptr ANNOTATION_DATA_LIST in
  exec read_view EDGE_BASED_NODE_DATA_LIST edge_based_node_data_list_ptr in
  read_view ANNOTATION_DATA_LIST annotation_data_list_ptr.

(** Returns the turns connectivity checksum that [readTurnData] hands
    back. *)
Definition original_edge_data : Mem Z :=
  let* lane_data_id_ptr := block_ptr LANE_DATA_ID in
  let* turn_instruction_list_ptr := block_ptr TURN_INSTRUCTION in
  let* entry_class_id_list_ptr := block_ptr ENTRY_CLASSID in
  let* pre_turn_bearing_ptr := block_ptr PRE_TURN_BEARING in
  let* post_turn_bearing_ptr := block_ptr POST_TURN_BEARING in
  exec read_view TURN_INSTRUCTION turn_instruction_list_ptr in
  exec read_view LANE_DATA_ID lane_data_id_ptr in
  exec read_view ENTRY_CLASSID entry_class_id_list_ptr in
  exec read_view PRE_TURN_BEARING pre_turn_bearing_ptr in
  exec read_view POST_TURN_BEARING post_turn_bearing_ptr in
  ret (edges_connectivity_checksum config).

Definition compressed_geometry : Mem unit :=
  let* geometries_index_ptr := block_ptr GEOMETRIES_INDEX in
  let* geometries_node_list_ptr := block_ptr GEOMETRIES_NODE_LIST in
  let* geometries_fwd_weight_list_ptr := block_ptr GEOMETRIES_FWD_WEIGHT_LIST in
  let* geometries_rev_weight_list_ptr := block_ptr GEOMETRIES_REV_WEIGHT_LIST in
  let* geometries_fwd_duration_list_ptr := block_ptr GEOMETRIES_FWD_DURATION_LIST in
  let* geometries_rev_duration_list_ptr := block_ptr GEOMETRIES_REV_DURATION_LIST in
  let* geometries_fwd_datasources_list_ptr := block_ptr GEOMETRIES_FWD_DATASOURCES_LIST in
  let* geometries_rev_datasources_list_ptr := block_ptr GEOMETRIES_REV_DATASOURCES_LIST in
  exec read_view GEOMETRIES_INDEX geometries_index_ptr in
  exec read_view GEOMETRIES_NODE_LIST geometries_node_list_ptr in
  exec read_view GEOMETRIES_FWD_WEIGHT_LIST geometries_fwd_weight_list_ptr in
  exec read_view GEOMETRIES_REV_WEIGHT_LIST geometries_rev_weight_list_ptr in
  exec read_view GEOMETRIES_FWD_DURATION_LIST geometries_fwd_duration_list_ptr in
  exec read_view GEOMETRIES_REV_DURATION_LIST geometries_rev_duration_list_ptr in
  exec read_view GEOMETRIES_FWD_DATASOURCES_LIST geometries_fwd_datasources_list_ptr in
  read_view GEOMETRIES_REV_DATASOURCES_LIST geometries_rev_datasources_list_ptr.

Definition datasources_names : Mem unit :=
  let* datasources_names_ptr := block_ptr DATASOURCES_NAMES in
  read_view DATASOURCES_NAMES datasources_names_ptr.

Definition coordinates : Mem unit :=
  let* coordinates_ptr := block_ptr COORDINATE_LIST in
  let* osmnodeid_ptr := block_ptr OSM_NODE_ID_LIST in
  exec read_view COORDINATE_LIST coordinates_ptr in
  read_view OSM_NODE_ID_LIST osmnodeid_ptr.

Definition turn_weight_penalties : Mem unit :=
  let* turn_weight_penalties_ptr := block_ptr TURN_WEIGHT_PENALTIES in
  ReadInto T_TurnPenalty TURN_WEIGHT_PENALTIES turn_weight_penalties_ptr
    (number_of_weight_penalties config).

Definition turn_duration_penalties : Mem unit :=
  let* turn_duration_penalties_ptr := block_ptr TURN_DURATION_PENALTIES in
  ReadInto T_TurnPenalty TURN_DURATION_PENALTIES turn_duration_penalties_ptr
    (number_of_duration_penalties config).

Definition store_timestamp : Mem unit :=
  let* timestamp_ptr := block_ptr TIMESTAMP in
  ReadInto T_char TIMESTAMP timestamp_ptr (timestamp_size config).

Definition search_tree : Mem unit :=
  let* rtree_ptr := block_ptr R_SEARCH_TREE in
  exec ReadInto T_RTreeNode R_SEARCH_TREE rtree_ptr
         (GetBlockEntries layout R_SEARCH_TREE) in
  let* rtree_levelsizes_ptr := block_ptr R_SEARCH_TREE_LEVELS in
  ReadInto T_uint64 R_SEARCH_TREE_LEVELS rtree_levelsizes_ptr
    (GetBlockEntries layout R_SEARCH_TREE_LEVELS).

Definition profile_properties : Mem unit :=
  let* profile_properties_ptr := block_ptr PROPERTIES in
  read_view PROPERTIES profile_properties_ptr.

Definition intersection_data : Mem unit :=
  let* bearing_class_id_ptr := block_ptr BEARING_CLASSID in
  let* bearing_values_ptr := block_ptr BEARING_VALUES in
  let* offsets_ptr := block_ptr BEARING_OFFSETS in
  let* blocks_ptr := block_ptr BEARING_BLOCKS in
  let* entry_class_ptr := block_ptr ENTRY_CLASS in
  exec read_view BEARING_VALUES bearing_values_ptr in
  exec read_view BEARING_CLASSID bearing_class_id_ptr in
  exec read_view BEARING_OFFSETS offsets_ptr in
  exec read_view BEARING_BLOCKS blocks_ptr in
  read_view ENTRY_CLASS entry_class_ptr.

(** "Load the HSGR file" *)
Definition hsgr_file (turns_connectivity_checksum : Z) : Mem unit :=
  match hsgr config with
  | Some file =>
      let* graph_nodes_ptr := block_ptr CH_GRAPH_NODE_LIST in
      let* graph_edges_ptr := block_ptr CH_GRAPH_EDGE_LIST in
      let* checksum := block_ptr HSGR_CHECKSUM in
      let* edge_filter :=
        for_each (fun index => block_ptr (CH_EDGE_FILTER_0 + index))
          (irange 0 (Z.to_nat NUM_METRICS)) in
      exec read_view HSGR_CHECKSUM checksum in
      exec read_view CH_GRAPH_NODE_LIST graph_nodes_ptr in
      exec read_view CH_GRAPH_EDGE_LIST graph_edges_ptr in
      exec for_each (fun index =>
                       read_view (CH_EDGE_FILTER_0 + index)
                         (nth index edge_filter 0))
             (irange 0 (Z.to_nat NUM_METRICS)) in
      let graph_connectivity_checksum := hsgr_connectivity_checksum file in
      if negb (turns_connectivity_checksum =? graph_connectivity_checksum)
      then throw (ChecksumMismatch graph_connectivity_checksum ".osrm.hsgr"
                    turns_connectivity_checksum ".osrm.edges")
      else ret tt
  | None =>
      exec block_ptr HSGR_CHECKSUM in
      exec block_ptr CH_GRAPH_NODE_LIST in
      exec block_ptr CH_GRAPH_EDGE_LIST in
      ret tt
  end.

Definition mld_partition : Mem unit :=
  match partition config with
  | Some _ =>
      let* level_data := block_ptr MLD_LEVEL_DATA in
      let* mld_partition_ptr := block_ptr MLD_PARTITION in
      let* mld_chilren_ptr := block_ptr MLD_CELL_TO_CHILDREN in
      exec read_view MLD_LEVEL_DATA level_data in
      exec read_view MLD_PARTITION mld_partition_ptr in
      read_view MLD_CELL_TO_CHILDREN mld_chilren_ptr
  | None => ret tt
  end.

Definition mld_cells : Mem unit :=
  match cells config with
  | Some _ =>
      let* mld_source_boundary_ptr := block_ptr MLD_CELL_SOURCE_BOUNDARY in
      let* mld_destination_boundary_ptr := block_ptr MLD_CELL_DESTINATION_BOUNDARY in
      let* mld_cells_ptr := block_ptr MLD_CELLS in
      let* mld_cell_level_offsets_ptr := block_ptr MLD_CELL_LEVEL_OFFSETS in
      exec read_view MLD_CELL_SOURCE_BOUNDARY mld_source_boundary_ptr in
      exec read_view MLD_CELL_DESTINATION_BOUNDARY mld_destination_boundary_ptr in
      exec read_view MLD_CELLS mld_cells_ptr in
      read_view MLD_CELL_LEVEL_OFFSETS mld_cell_level_offsets_ptr
  | None => ret tt
  end.

Definition mld_cell_metrics : Mem unit :=
  match cell_metrics config with
  | Some _ =>
      let* metrics :=
        for_each (fun index =>
                    let weights_block_id := (MLD_CELL_WEIGHTS_0 + index)%nat in
                    let durations_block_id := (MLD_CELL_DURATIONS_0 + index)%nat in
                    let* mld_cell_weights_ptr := block_ptr weights_block_id in
                    let* mld_cell_duration_ptr := block_ptr durations_block_id in
                    ret (mld_cell_weights_ptr, mld_cell_duration_ptr))
          (irange 0 (Z.to_nat NUM_METRICS)) in
      exec for_each (fun index =>
                       let view := nth index metrics (0, 0) in
                       exec read_view (MLD_CELL_WEIGHTS_0 + index) (fst view) in
                       read_view (MLD_CELL_DURATIONS_0 + index) (snd view))
             (irange 0 (Z.to_nat NUM_METRICS)) in
      ret tt
  | None => ret tt
  end.

Definition mld_graph (turns_connectivity_checksum : Z) : Mem unit :=
  match mldgr config with
  | Some file =>
      let* graph_nodes_ptr := block_ptr MLD_GRAPH_NODE_LIST in
      let* graph_edges_ptr := block_ptr MLD_GRAPH_EDGE_LIST in
      let* graph_node_to_offset_ptr := block_ptr MLD_GRAPH_NODE_TO_OFFSET in
      exec read_view MLD_GRAPH_NODE_LIST graph_nodes_ptr in
      exec read_view MLD_GRAPH_EDGE_LIST graph_edges_ptr in
      exec read_view MLD_GRAPH_NODE_TO_OFFSET graph_node_to_offset_ptr in
      let graph_connectivity_checksum := mldgr_connectivity_checksum file in
      if negb (turns_connectivity_checksum =? graph_connectivity_checksum)
      then throw (ChecksumMismatch graph_connectivity_checksum ".osrm.mldgr"
                    turns_connectivity_checksum ".osrm.edges")
      else ret tt
  | None => ret tt
  end.

Definition maneuver_overrides : Mem unit :=
  let* maneuver_overrides_ptr := block_ptr MANEUVER_OVERRIDES in
  let* maneuver_override_node_sequences_ptr :=
    block_ptr MANEUVER_OVERRIDE_NODE_SEQUENCES in
  exec read_view MANEUVER_OVERRIDES maneuver_overrides_ptr in
  read_view MANEUVER_OVERRIDE_NODE_SEQUENCES maneuver_override_node_sequences_ptr.

(** [Storage::PopulateData] *)
Definition PopulateData : Mem unit :=
  exec file_index_path in
  exec name_data in
  exec turn_lane_data in
  exec turn_lane_descriptions in
  exec edge_based_nodes_data in
  let* turns_connectivity_checksum := original_edge_data in
  exec compressed_geometry in
  exec datasources_names in
  exec coordinates in
  exec turn_weight_penalties in
  exec turn_duration_penalties in
  exec store_timestamp in
  exec search_tree in
  exec profile_properties in
  exec intersection_data in
  exec hsgr_file turns_connectivity_checksum in
  exec mld_partition in
  exec mld_cells in
  exec mld_cell_metrics in
  exec mld_graph turns_connectivity_checksum in
  maneuver_overrides.

End Populating.

(** ** Regions and the monitor *)

(** [enum SharedDataType] *)
Inductive SharedDataType : Type := REGION_NONE | REGION_1 | REGION_2.

#[global] Instance SharedDataType_eq_dec : EqDecision SharedDataType.
Proof. solve_decision. Defined.

(** [struct SharedDataTimestamp]; the timestamp is an [unsigned]. *)
Record SharedDataTimestamp : Type := mkSharedDataTimestamp
  { region : SharedDataType;
    timestamp : Z }.

Definition regionToString (r : SharedDataType) : string :=
  match r with
  | REGION_1 => "REGION_1"
  | REGION_2 => "REGION_2"
  | REGION_NONE => "REGION_NONE"
  end.

(** A named shared memory segment: its size, the layout descriptor copied to
    its front, and its bytes. *)
Record Region : Type := mkRegion
  { region_size : Z;
    descriptor : option DataLayout;
    bytes : Memory }.

Inductive Warning : Type :=
  | OldRegionStillExists (r : SharedDataType)
  | CouldNotAquireLock (max_wait : Z).

(** What a run does to the named objects of the operating system, and what
    it logs at warning level. *)
Inductive Event : Type :=
  | LogWarning (w : Warning)
  | RemoveRegion (r : SharedDataType)
  | CreateRegion (r : SharedDataType) (size : Z)
  | OpenRegion (r : SharedDataType)
  | WaitForDetach (r : SharedDataType)
  | RemoveMonitor
  | CreateMonitor (init : SharedDataTimestamp)
  | NotifyAll.

(** The named objects: the monitor "osrm-region" ([None] when there is
    none), the two regions, and the events so far, oldest first. *)
Record World : Type := mkWorld
  { monitor : option SharedDataTimestamp;
    regions : SharedDataType -> option Region;
    events : list Event }.

Definition emit (e : Event) (w : World) : World :=
  mkWorld (monitor w) (regions w) (events w ++ [e]).

(** Modelled from the spec: [storage/shared_monitor.hpp] is not among the
    sources.  Constructing a [Monitor] opens the named object, or creates it
    with the given initial data when there is none. *)
Definition Monitor_open_or_create (init : SharedDataTimestamp) (w : World) : World :=
  match monitor w with
  | Some _ => w
  | None => emit (CreateMonitor init) (mkWorld (Some init) (regions w) (events w))
  end.

(** Modelled from the spec: [Monitor::remove()] destroys the named object. *)
Definition Monitor_remove (w : World) : World :=
  emit RemoveMonitor (mkWorld None (regions w) (events w)).

(** [monitor.data()]; the monitor exists whenever the code reads it. *)
Definition data (w : World) : SharedDataTimestamp :=
  default (mkSharedDataTimestamp REGION_NONE 0) (monitor w).

Definition set_data (f : SharedDataTimestamp -> SharedDataTimestamp) (w : World)
  : World :=
  mkWorld (f <$> monitor w) (regions w) (events w).

(** Modelled from the spec: [storage/shared_memory.hpp] is not among the
    sources.  [RegionExists] probes, [Remove] requests destruction,
    [makeSharedMemory(id, size)] creates a zero-filled segment unless the
    operating system refuses it (the refusal is a parameter of [Run_with]),
    [makeSharedMemory(id)] opens one and [WaitForDetach] returns when the
    last client is gone. *)
Definition RegionExists (w : World) (r : SharedDataType) : bool :=
  bool_decide (is_Some (regions w r)).

Definition set_region (r : SharedDataType) (v : option Region) (w : World) : World :=
  mkWorld (monitor w)
    (fun r' => if decide (r' = r) then v else regions w r') (events w).

Definition Remove (r : SharedDataType) (w : World) : World :=
  emit (RemoveRegion r) (set_region r None w).

Definition makeSharedMemory (r : SharedDataType) (size : Z) (w : World) : World :=
  emit (CreateRegion r size) (set_region r (Some (mkRegion size None zero_memory)) w).

(** What the run cannot know beforehand: whether the monitor mutex can be
    acquired (it cannot when a dead peer holds it), where the new segment is
    mapped, [sizeof(DataLayout)], and the object representation of a layout:
    byte [j] of the [sizeof(DataLayout)] bytes at [&layout]. *)
Record Environment : Type := mkEnvironment
  { lock_granted : bool;
    shared_memory_ptr : Z;
    sizeof_layout : Z;
    layout_object : DataLayout -> Z -> ascii }.

(** [memcpy(dest, src, n)], with byte [j] of the source given by [src j]. *)
Definition memcpy (mem : Memory) (dest : Z) (src : Z -> ascii) (n : Z) : Memory :=
  read_to mem dest n src.

Inductive outcome : Type :=
  | Returned (exit_code : Z) (w : World)
  | Thrown (e : exception) (w : World)
  | Blocked (w : World).

Definition EXIT_SUCCESS : Z := 0.

(** ** The publisher *)

Section Publisher.

Variable abi : ABI.
Variable config : StorageConfig.
Variable env : Environment.

(** [Storage::Run], with what can fail in it as parameters: [refused] tells
    whether the operating system refuses [makeSharedMemory] a segment of
    that many bytes, [populate_layout] stands for [PopulateLayout(layout)]
    and [populate_data] for [PopulateData(layout, ptr)].  Taking the file
    lock and [mlockall] leave the named objects alone and are left out.  The
    region shows the layout and its bytes from [memcpy] on; the bytes that a
    populate pass has written before it throws are not recorded. *)
Definition Run_with
    (refused : Z -> bool)
    (populate_layout : DataLayout -> result DataLayout)
    (populate_data : DataLayout -> Z -> Mem unit)
    (max_wait : Z) (w : World) : outcome :=
  let w := Monitor_open_or_create (mkSharedDataTimestamp REGION_NONE 0) w in
  let in_use_region := region (data w) in
  let next_timestamp := wrap32 (timestamp (data w) + 1) in
  let next_region :=
    if bool_decide (in_use_region = REGION_2) || bool_decide (in_use_region = REGION_NONE)
    then REGION_1 else REGION_2 in
  let w :=
    if RegionExists w next_region
    then Remove next_region (emit (LogWarning (OldRegionStillExists next_region)) w)
    else w in
  match populate_layout new_DataLayout with
  | Throw e => Thrown e w
  | Ok layout =>
      let regions_size := wrap64 (sizeof_layout env + GetSizeOfLayout layout) in
      if refused regions_size
      then Thrown (Failure (RegionAllocationFailed regions_size)) w
      else
        let w := makeSharedMemory next_region regions_size w in
        let mem :=
          memcpy zero_memory (shared_memory_ptr env) (layout_object env layout)
            (sizeof_layout env) in
        let w :=
          set_region next_region (Some (mkRegion regions_size (Some layout) mem)) w in
        match
          populate_data layout (ptr_add (shared_memory_ptr env) (sizeof_layout env))
            mem
        with
        | Throw e => Thrown e w
        | Ok (_, mem) =>
            let w :=
              set_region next_region
                (Some (mkRegion regions_size (Some layout) mem)) w in
            let locked :=
              if 0 <=? max_wait then
                if lock_granted env then Some (w, in_use_region)
                else
                  let w := emit (LogWarning (CouldNotAquireLock max_wait)) w in
                  let w := Monitor_remove w in
                  let in_use_region := REGION_NONE in
                  let w :=
                    Monitor_open_or_create (mkSharedDataTimestamp REGION_NONE 0) w in
                  Some (w, in_use_region)
              else if lock_granted env then Some (w, in_use_region)
              else None in
            match locked with
            | None => Blocked w
            | Some (w, in_use_region) =>
                let w :=
                  set_data
                    (fun d => mkSharedDataTimestamp next_region (timestamp d)) w in
                let w :=
                  set_data
                    (fun d => mkSharedDataTimestamp (region d) next_timestamp) w in
                let w := emit NotifyAll w in
                let w :=
                  if negb (bool_decide (in_use_region = REGION_NONE))
                     && RegionExists w in_use_region
                  then
                    let w := emit (OpenRegion in_use_region) w in
                    let w := Remove in_use_region w in
                    emit (WaitForDetach in_use_region) w
                  else w in
                Returned EXIT_SUCCESS w
            end
        end
  end.

(** [Storage::Run] over input files that the readers accept, with an
    operating system that grants the segment. *)
Definition Run (max_wait : Z) (w : World) : outcome :=
  Run_with (fun _ => false) (PopulateLayout abi config) (PopulateData abi config)
    max_wait w.

End Publisher.

(** ** Sample inputs *)

(** Sizes and alignments as on x86-64 for the scalar types; the structures
    are given sizes that are multiples of their alignment. *)
Definition demo_abi : ABI := fun T =>
  match T with
  | T_char | T_DatasourceID | T_TurnBearing => mkTypeInfo 1 1
  | T_TurnLaneMask | T_LaneDataID | T_EntryClassID | T_DiscreteBearing
  | T_TurnInstruction => mkTypeInfo 2 2
  | T_uint64 | T_PackedOSMIDs_block | T_SegmentWeight_block
  | T_SegmentDuration_block | T_CellData => mkTypeInfo 8 8
  | T_RTreeNode | T_LevelData | T_Datasources | T_ProfileProperties =>
      mkTypeInfo 64 8
  | T_Coordinate | T_EdgeBasedNode | T_LaneTupleIdPair => mkTypeInfo 8 4
  | T_QueryGraph_EdgeArrayEntry | T_MLGraph_EdgeArrayEntry
  | T_NodeBasedEdgeAnnotation | T_StorageManeuverOverride => mkTypeInfo 16 4
  | _ => mkTypeInfo 4 4
  end.

Definition demo_data (bid : BlockID) (j : Z) : ascii :=
  ascii_of_nat (65 + (bid + Z.to_nat j) mod 26).

(** An input set with every optional file: a CH graph with three metrics and
    cell metrics for two. *)
Definition demo_config : StorageConfig :=
  {| absolute_file_index_path := list_ascii_of_string "/data/map.osrm.fileIndex";
     name_file_size := 37;
     tls_num_offsets := 3;
     tls_num_masks := 5;
     number_of_original_edges := 7;
     edges_connectivity_checksum := 2730;
     nodes_number := 6;
     annotations_number := 4;
     hsgr := Some (mkHsgrFile 6 9 3 2730);
     tree_size := 2;
     tree_levels_size := 2;
     timestamp_size := 10;
     number_of_weight_penalties := 7;
     number_of_duration_penalties := 7;
     coordinate_list_size := 5;
     num_id_blocks := 1;
     number_of_geometries_indices := 4;
     number_of_compressed_geometries := 11;
     number_of_segment_weight_blocks := 2;
     number_of_rev_weight_blocks := 2;
     number_of_segment_duration_blocks := 2;
     num_discreate_bearings := 8;
     num_bearing_classes := 3;
     bearing_blocks := 1;
     bearing_offsets := 1;
     num_entry_classes := 2;
     lane_tuple_count := 0;
     number_of_overrides := 1;
     number_of_nodes := 3;
     partition := Some (mkPartitionFile 6 4);
     cells := Some (mkCellsFile 5 5 3 2);
     cell_metrics := Some (mkCellMetricsFile 2 (fun _ => 12) (fun _ => 12));
     mldgr := Some (mkMldgrFile 6 9 6 2730);
     block_data := demo_data |}.

(** The same input set without the optional files. *)
Definition with_optional (h : option HsgrFile) (p : option PartitionFile)
    (c : option CellsFile) (m : option CellMetricsFile) (g : option MldgrFile)
    (config : StorageConfig) : StorageConfig :=
  {| absolute_file_index_path := absolute_file_index_path config;
     name_file_size := name_file_size config;
     tls_num_offsets := tls_num_offsets config;
     tls_num_masks := tls_num_masks config;
     number_of_original_edges := number_of_original_edges config;
     edges_connectivity_checksum := edges_connectivity_checksum config;
     nodes_number := nodes_number config;
     annotations_number := annotations_number config;
     hsgr := h;
     tree_size := tree_size config;
     tree_levels_size := tree_levels_size config;
     timestamp_size := timestamp_size config;
     number_of_weight_penalties := number_of_weight_penalties config;
     number_of_duration_penalties := number_of_duration_penalties config;
     coordinate_list_size := coordinate_list_size config;
     num_id_blocks := num_id_blocks config;
     number_of_geometries_indices := number_of_geometries_indices config;
     number_of_compressed_geometries := number_of_compressed_geometries config;
     number_of_segment_weight_blocks := number_of_segment_weight_blocks config;
     number_of_rev_weight_blocks := number_of_rev_weight_blocks config;
     number_of_segment_duration_blocks := number_of_segment_duration_blocks config;
     num_discreate_bearings := num_discreate_bearings config;
     num_bearing_classes := num_bearing_classes config;
     bearing_blocks := bearing_blocks config;
     bearing_offsets := bearing_offsets config;
     num_entry_classes := num_entry_classes config;
     lane_tuple_count := lane_tuple_count config;
     number_of_overrides := number_of_overrides config;
     number_of_nodes := number_of_nodes config;
     partition := p;
     cells := c;
     cell_metrics := m;
     mldgr := g;
     block_data := block_data config |}.

(** Byte [k] of the little-endian representation of [x]. *)
Definition le_byte (x k : Z) : ascii :=
  ascii_of_nat (Z.to_nat ((x / 2 ^ (8 * k)) mod 256)).

(** The object representation of a layout in the sample runs, as on x86-64:
    24 bytes for each block, which are the number of entries and the byte
    size in 8 bytes each and the entry size and the entry alignment in 4
    bytes each. *)
Definition demo_object (layout : DataLayout) (j : Z) : ascii :=
  let b := blocks layout !!! Z.to_nat (j / 24) in
  let k := j mod 24 in
  if k <? 8 then le_byte (num_entries b) k
  else if k <? 16 then le_byte (byte_size b) (k - 8)
  else if k <? 20 then le_byte (entry_size b) (k - 16)
  else le_byte (entry_align b) (k - 20).

Definition demo_env : Environment := mkEnvironment true 1048576 1752 demo_object.

Definition stuck_env : Environment := mkEnvironment false 1048576 1752 demo_object.

Definition empty_world : World := mkWorld None (fun _ => None) [].

(** Region 1 is live with timestamp [t]. *)
Definition live_world (t : Z) : World :=
  mkWorld (Some (mkSharedDataTimestamp REGION_1 t))
    (fun r => match r with
              | REGION_1 => Some (mkRegion 4096 None zero_memory)
              | _ => None
              end) [].

Definition world_of (o : outcome) : World :=
  match o with
  | Returned _ w | Thrown _ w | Blocked w => w
  end.

Definition returned (o : outcome) : bool :=
  match o with
  | Returned code _ => code =? EXIT_SUCCESS
  | _ => false
  end.

(** ** Vocabulary of the statements *)

(** Code that cannot throw, and returns a value with property [Q] whatever
    the memory holds. *)
Definition returns {A} (m : Mem A) (Q : A -> Prop) : Prop :=
  forall mem, exists a mem', m mem = Ok (a, mem') /\ Q a.

Definition total {A} (m : Mem A) : Prop := returns m (fun _ => True).

(** What a graph part ([.osrm.hsgr] or [.osrm.mldgr]) ends with, by the
    comparison of its connectivity checksum with the one of the turns. *)
Definition graph_part_result (file : string) (graph_checksum : option Z)
    (turns : Z) (r : result (unit * Memory)) : Prop :=
  match graph_checksum with
  | Some c =>
      if turns =? c then exists mem', r = Ok (tt, mem')
      else r = Throw (ChecksumMismatch c file turns ".osrm.edges")
  | None => exists mem', r = Ok (tt, mem')
  end.

(** The first comparison of the populate pass that fails, in the order of
    the code: the CH graph, then the MLD graph. *)
Definition first_mismatch (config : StorageConfig) : option exception :=
  match hsgr config with
  | Some h =>
      if negb (edges_connectivity_checksum config =? hsgr_connectivity_checksum h)
      then Some (ChecksumMismatch (hsgr_connectivity_checksum h) ".osrm.hsgr"
                   (edges_connectivity_checksum config) ".osrm.edges")
      else
        match mldgr config with
        | Some g =>
            if negb (edges_connectivity_checksum config
                     =? mldgr_connectivity_checksum g)
            then Some (ChecksumMismatch (mldgr_connectivity_checksum g) ".osrm.mldgr"
                         (edges_connectivity_checksum config) ".osrm.edges")
            else None
        | None => None
        end
  | None =>
      match mldgr config with
      | Some g =>
          if negb (edges_connectivity_checksum config
                   =? mldgr_connectivity_checksum g)
          then Some (ChecksumMismatch (mldgr_connectivity_checksum g) ".osrm.mldgr"
                       (edges_connectivity_checksum config) ".osrm.edges")
          else None
      | None => None
      end
  end.

(** The region the publisher writes, by the region in use. *)
Definition next_of (in_use : SharedDataType) : SharedDataType :=
  match in_use with
  | REGION_2 | REGION_NONE => REGION_1
  | REGION_1 => REGION_2
  end.

(** The bytes of the new segment when the populate pass starts: zero but
    for the layout at the front. *)
Definition fresh_segment (env : Environment) (layout : DataLayout) : Memory :=
  memcpy zero_memory (shared_memory_ptr env) (layout_object env layout)
    (sizeof_layout env).

(** The world in which the sizing pass of [Run] starts: the monitor opened
    or created, a stale next region removed. *)
Definition opened (w : World) : World :=
  let w0 := Monitor_open_or_create (mkSharedDataTimestamp REGION_NONE 0) w in
  let next_region := next_of (region (data w)) in
  if RegionExists w0 next_region
  then Remove next_region (emit (LogWarning (OldRegionStillExists next_region)) w0)
  else w0.

(** The world in which the populate pass starts: the new region created,
    with the layout copied to its front. *)
Definition loading (env : Environment) (w : World) (layout : DataLayout) : World :=
  let next_region := next_of (region (data w)) in
  let regions_size := wrap64 (sizeof_layout env + GetSizeOfLayout layout) in
  set_region next_region
    (Some (mkRegion regions_size (Some layout) (fresh_segment env layout)))
    (makeSharedMemory next_region regions_size (opened w)).

(** The world in which the lock section of [Run] starts: the monitor opened
    or created, a stale next region removed, the new region created and
    populated. *)
Definition prepared (env : Environment) (w : World) (layout : DataLayout)
    (mem : Memory) : World :=
  set_region (next_of (region (data w)))
    (Some (mkRegion (wrap64 (sizeof_layout env + GetSizeOfLayout layout))
             (Some layout) mem))
    (loading env w layout).

(** Publishing into the prepared world: the update of the monitor, the
    notification and the cleanup, with the region [in_use] that the cleanup
    looks at. *)
Definition published (w : World) (in_use : SharedDataType)
    (next : SharedDataTimestamp) : World :=
  let w := set_data (fun d => mkSharedDataTimestamp (region next) (timestamp d)) w in
  let w := set_data (fun d => mkSharedDataTimestamp (region d) (timestamp next)) w in
  let w := emit NotifyAll w in
  if negb (bool_decide (in_use = REGION_NONE)) && RegionExists w in_use
  then emit (WaitForDetach in_use) (Remove in_use (emit (OpenRegion in_use) w))
  else w.

(** The recovery from a monitor whose mutex cannot be acquired. *)
Definition recovered (max_wait : Z) (w : World) : World :=
  Monitor_open_or_create (mkSharedDataTimestamp REGION_NONE 0)
    (Monitor_remove (emit (LogWarning (CouldNotAquireLock max_wait)) w)).

(** Both canaries of a block are in place: what [GetBlockPtr<T, false>]
    checks before it hands out the pointer of a block that lies in the
    address space, where the canary pointers do not wrap around. *)
Definition canaries_alive (layout : DataLayout) (base : Z) (mem : Memory)
    (bid : BlockID) : bool :=
  let ptr := GetAlignedBlockPtr layout base bid in
  canary_alive mem (ptr - sizeof_CANARY)
  && canary_alive mem (ptr + GetBlockSize layout bid).

(** The blocks of [S] are blocks of the layout with both canaries in
    place. *)
Definition stamped (layout : DataLayout) (base : Z) (S : list BlockID)
    (mem : Memory) : Prop :=
  Forall (fun bid => (bid < NUM_BLOCKS)%nat /\
                     canaries_alive layout base mem bid = true) S.

(** [triple layout base S m v S']: started in a memory where the blocks of
    [S] are stamped, [m] returns [v], if it returns, in a memory where the
    blocks of [S'] are. *)
Definition triple {A} (layout : DataLayout) (base : Z) (S : list BlockID)
    (m : Mem A) (v : A) (S' : list BlockID) : Prop :=
  forall mem,
    stamped layout base S mem ->
    match m mem with
    | Ok (a, mem') => a = v /\ stamped layout base S' mem'
    | Throw _ => True
    end.

(** The blocks that the populate pass takes a pointer to, part by part, the
    last one first. *)
Definition mandatory_blocks : list BlockID :=
  [ ENTRY_CLASS; BEARING_BLOCKS; BEARING_OFFSETS; BEARING_VALUES; BEARING_CLASSID;
    PROPERTIES; R_SEARCH_TREE_LEVELS; R_SEARCH_TREE; TIMESTAMP;
    TURN_DURATION_PENALTIES; TURN_WEIGHT_PENALTIES;
    OSM_NODE_ID_LIST; COORDINATE_LIST; DATASOURCES_NAMES;
    GEOMETRIES_REV_DATASOURCES_LIST; GEOMETRIES_FWD_DATASOURCES_LIST;
    GEOMETRIES_REV_DURATION_LIST; GEOMETRIES_FWD_DURATION_LIST;
    GEOMETRIES_REV_WEIGHT_LIST; GEOMETRIES_FWD_WEIGHT_LIST;
    GEOMETRIES_NODE_LIST; GEOMETRIES_INDEX;
    POST_TURN_BEARING; PRE_TURN_BEARING; ENTRY_CLASSID; TURN_INSTRUCTION;
    LANE_DATA_ID; ANNOTATION_DATA_LIST; EDGE_BASED_NODE_DATA_LIST;
    LANE_DESCRIPTION_MASKS; LANE_DESCRIPTION_OFFSETS; TURN_LANE_DATA;
    NAME_CHAR_DATA; FILE_INDEX_PATH ].

Definition hsgr_blocks (config : StorageConfig) : list BlockID :=
  match hsgr config with
  | Some _ =>
      [ CH_EDGE_FILTER_7; CH_EDGE_FILTER_6; CH_EDGE_FILTER_5; CH_EDGE_FILTER_4;
        CH_EDGE_FILTER_3; CH_EDGE_FILTER_2; CH_EDGE_FILTER_1; CH_EDGE_FILTER_0;
        HSGR_CHECKSUM; CH_GRAPH_EDGE_LIST; CH_GRAPH_NODE_LIST ]
  | None => [ CH_GRAPH_EDGE_LIST; CH_GRAPH_NODE_LIST; HSGR_CHECKSUM ]
  end.

Definition partition_blocks (config : StorageConfig) : list BlockID :=
  match partition config with
  | Some _ => [ MLD_CELL_TO_CHILDREN; MLD_PARTITION; MLD_LEVEL_DATA ]
  | None => []
  end.

Definition cells_blocks (config : StorageConfig) : list BlockID :=
  match cells config with
  | Some _ =>
      [ MLD_CELL_LEVEL_OFFSETS; MLD_CELLS; MLD_CELL_DESTINATION_BOUNDARY;
        MLD_CELL_SOURCE_BOUNDARY ]
  | None => []
  end.

Definition cell_metrics_blocks (config : StorageConfig) : list BlockID :=
  match cell_metrics config with
  | Some _ =>
      [ MLD_CELL_DURATIONS_7; MLD_CELL_WEIGHTS_7; MLD_CELL_DURATIONS_6;
        MLD_CELL_WEIGHTS_6; MLD_CELL_DURATIONS_5; MLD_CELL_WEIGHTS_5;
        MLD_CELL_DURATIONS_4; MLD_CELL_WEIGHTS_4; MLD_CELL_DURATIONS_3;
        MLD_CELL_WEIGHTS_3; MLD_CELL_DURATIONS_2; MLD_CELL_WEIGHTS_2;
        MLD_CELL_DURATIONS_1; MLD_CELL_WEIGHTS_1; MLD_CELL_DURATIONS_0;
        MLD_CELL_WEIGHTS_0 ]
  | None => []
  end.

Definition mldgr_blocks (config : StorageConfig) : list BlockID :=
  match mldgr config with
  | Some _ => [ MLD_GRAPH_NODE_TO_OFFSET; MLD_GRAPH_EDGE_LIST; MLD_GRAPH_NODE_LIST ]
  | None => []
  end.

Definition stamped_blocks (config : StorageConfig) : list BlockID :=
  [ MANEUVER_OVERRIDE_NODE_SEQUENCES; MANEUVER_OVERRIDES ]
  ++ mldgr_blocks config ++ cell_metrics_blocks config ++ cells_blocks config
  ++ partition_blocks config ++ hsgr_blocks config ++ mandatory_blocks.

(** Every optional file exists. *)
Definition all_inputs (config : StorageConfig) : bool :=
  bool_decide (is_Some (hsgr config)) && bool_decide (is_Some (partition config))
  && bool_decide (is_Some (cells config)) && bool_decide (is_Some (cell_metrics config))
  && bool_decide (is_Some (mldgr config)).

(** The reads of the populate pass that name their own length stay within
    the blocks they fill: the file index path (asserted in the code), and
    the [ReadInto] calls. *)
Definition reads_fit (abi : ABI) (config : StorageConfig) (layout : DataLayout)
  : Prop :=
  Z.of_nat (length (absolute_file_index_path config))
    <= GetBlockSize layout FILE_INDEX_PATH /\
  wrap64 (sizeof (abi T_char) * name_file_size config)
    <= GetBlockSize layout NAME_CHAR_DATA /\
  wrap64 (sizeof (abi T_LaneTupleIdPair) * lane_tuple_count config)
    <= GetBlockSize layout TURN_LANE_DATA /\
  wrap64 (sizeof (abi T_TurnPenalty) * number_of_weight_penalties config)
    <= GetBlockSize layout TURN_WEIGHT_PENALTIES /\
  wrap64 (sizeof (abi T_TurnPenalty) * number_of_duration_penalties config)
    <= GetBlockSize layout TURN_DURATION_PENALTIES /\
  wrap64 (sizeof (abi T_char) * timestamp_size config)
    <= GetBlockSize layout TIMESTAMP /\
  wrap64 (sizeof (abi T_RTreeNode) * GetBlockEntries layout R_SEARCH_TREE)
    <= GetBlockSize layout R_SEARCH_TREE /\
  wrap64 (sizeof (abi T_uint64) * GetBlockEntries layout R_SEARCH_TREE_LEVELS)
    <= GetBlockSize layout R_SEARCH_TREE_LEVELS.

(** The layout that the sizing pass computes for the sample inputs. *)
Definition sized (abi : ABI) (config : StorageConfig) : DataLayout :=
  match PopulateLayout abi config new_DataLayout with
  | Ok layout => layout
  | Throw _ => new_DataLayout
  end.

Definition memory_of {A} (r : result (A * Memory)) : Memory :=
  match r with
  | Ok (_, mem) => mem
  | Throw _ => zero_memory
  end.

Definition is_Ok {A} (r : result A) : bool :=
  match r with
  | Ok _ => true
  | Throw _ => false
  end.

(** The sample inputs without any optional file. *)
Definition mandatory_config : StorageConfig :=
  with_optional None None None None None demo_config.

Definition demo_base : Z := 1048576 + 1752.

(** ** Readers of a region *)

(** [GetBlockEnd<T>(shared_memory, bid)]: the pointer of
    [GetBlockPtr<T>] (which checks the canaries) advanced by
    [GetBlockEntries(bid)] elements of [sizeof(T)] bytes. *)
Definition GetBlockEnd (T : TypeInfo) (layout : DataLayout) (shared_memory : Z)
    (bid : BlockID) : Mem Z :=
  let* begin := GetBlockPtr false layout shared_memory bid in
  ret (ptr_add begin (sizeof T * GetBlockEntries layout bid)).

(** ** What a pass writes *)

(** The addresses of a block: its start canary, its payload and its end
    canary. *)
Definition footprint (layout : DataLayout) (base : Z) (bid : BlockID) (a : Z)
  : Prop :=
  GetAlignedBlockPtr layout base bid - sizeof_CANARY <= a
  < GetAlignedBlockPtr layout base bid + GetBlockSize layout bid + sizeof_CANARY.

(** [touches layout base m v W]: when [m] returns, it returns [v] and has
    left every byte outside the blocks of [W] as it was. *)
Definition touches {A} (layout : DataLayout) (base : Z) (m : Mem A) (v : A)
    (W : list BlockID) : Prop :=
  forall mem,
    match m mem with
    | Ok (a, mem') =>
        a = v /\
        forall addr,
          (forall bid, In bid W -> (bid < NUM_BLOCKS)%nat ->
                       ~ footprint layout base bid addr) ->
          mem' addr = mem addr
    | Throw _ => True
    end.

(** ** What the sizing pass sets *)

(** [settled R D l l']: two layouts of [NUM_BLOCKS] blocks each, whose
    blocks with an id [i] in [D] are related by [R i]. *)
Definition settled (R : BlockID -> Block -> Block -> Prop) (D : BlockID -> Prop)
    (l l' : DataLayout) : Prop :=
  length (blocks l) = NUM_BLOCKS /\ length (blocks l') = NUM_BLOCKS /\
  forall i, (i < NUM_BLOCKS)%nat -> D i -> R i (blocks l !!! i) (blocks l' !!! i).


(** * Arithmetic of words and alignment *)

Section WordFacts.

Lemma wrap64_range x : 0 <= wrap64 x < 2 ^ 64.
Proof. unfold wrap64, wrap. apply Z.mod_pos_bound. lia. Qed.

Lemma wrap64_small x : 0 <= x < 2 ^ 64 -> wrap64 x = x.
Proof. intros H. unfold wrap64, wrap. apply Z.mod_small. exact H. Qed.

Lemma wrap64_idem x : wrap64 (wrap64 x) = wrap64 x.
Proof. unfold wrap64, wrap. apply Z.mod_mod. lia. Qed.

Lemma wrap64_add_l x y : wrap64 (wrap64 x + y) = wrap64 (x + y).
Proof. unfold wrap64, wrap. apply Zplus_mod_idemp_l. Qed.

Lemma wrap64_add_r x y : wrap64 (x + wrap64 y) = wrap64 (x + y).
Proof. unfold wrap64, wrap. apply Zplus_mod_idemp_r. Qed.

Lemma wrap64_sub_l x y : wrap64 (wrap64 x - y) = wrap64 (x - y).
Proof. unfold wrap64, wrap. apply Zminus_mod_idemp_l. Qed.

(** Two integers have the same 64-bit value iff they differ by a multiple of
    [2^64]. *)
Lemma wrap64_eq_iff x y : wrap64 x = wrap64 y <-> exists q, x = y + 2 ^ 64 * q.
Proof.
  unfold wrap64, wrap. split.
  - intros H. exists (x / 2 ^ 64 - y / 2 ^ 64).
    pose proof (Z.div_mod x (2 ^ 64)). pose proof (Z.div_mod y (2 ^ 64)). lia.
  - intros [q ->]. rewrite Z.mul_comm. apply Z_mod_plus_full.
Qed.

End WordFacts.

(** ** Powers of two and the mask of [align] *)

Lemma is_pow2_spec a :
  is_pow2 a = true -> exists k, 0 <= k < 32 /\ a = 2 ^ k.
Proof.
  unfold is_pow2. rewrite existsb_exists. intros [n [Hin Heq]].
  apply in_seq in Hin. apply Z.eqb_eq in Heq.
  exists (Z.of_nat n). split; [lia | exact Heq].
Qed.

Lemma pow2_pos k : 0 <= k -> 0 < 2 ^ k.
Proof. intros. apply Z.pow_pos_nonneg; lia. Qed.

Lemma pow2_divides_word k : 0 <= k < 64 -> 2 ^ 64 = 2 ^ k * 2 ^ (64 - k).
Proof. intros. rewrite <- Z.pow_add_r by lia. f_equal. lia. Qed.

(** The mask [-align] keeps the bits from position [k] upwards. *)
Lemma neg_pow2_mask k :
  0 <= k < 64 -> wrap64 (- 2 ^ k) = Z.shiftl (Z.ones (64 - k)) k.
Proof.
  intros Hk. rewrite Z.shiftl_mul_pow2 by lia. rewrite Z.ones_equiv.
  pose proof (pow2_divides_word k Hk) as E.
  pose proof (pow2_pos k ltac:(lia)). pose proof (pow2_pos (64 - k) ltac:(lia)).
  replace (Z.pred (2 ^ (64 - k)) * 2 ^ k) with (2 ^ 64 - 2 ^ k) by lia.
  unfold wrap64, wrap.
  replace (- 2 ^ k) with (2 ^ 64 - 2 ^ k + (-1) * 2 ^ 64) by lia.
  rewrite Z_mod_plus_full. apply Z.mod_small. nia.
Qed.

Lemma land_mask_floor x k :
  0 <= k < 64 -> 0 <= x < 2 ^ 64 ->
  Z.land x (wrap64 (- 2 ^ k)) = 2 ^ k * (x / 2 ^ k).
Proof.
  intros Hk Hx. rewrite neg_pow2_mask by exact Hk.
  rewrite Z.mul_comm, <- Z.shiftr_div_pow2, <- Z.shiftl_mul_pow2 by lia.
  apply Z.bits_inj'. intros n Hn.
  rewrite Z.land_spec, !Z.shiftl_spec by exact Hn.
  destruct (Z.ltb_spec n k) as [Hlt | Hge].
  - rewrite !(Z.testbit_neg_r _ (n - k)) by lia. apply andb_false_r.
  - rewrite Z.testbit_ones by lia. rewrite Z.shiftr_spec by lia.
    replace (n - k + k) with n by lia.
    destruct (Z.ltb_spec (n - k) (64 - k)) as [Hlo | Hhi].
    + replace (0 <=? n - k) with true by (symmetry; apply Z.leb_le; lia).
      apply andb_true_r.
    + rewrite andb_false_r.
      rewrite <- (Z.mod_small x (2 ^ 64)) by exact Hx.
      rewrite Z.mod_pow2_bits_high by lia. reflexivity.
Qed.

Lemma up_bounds a p : 0 < a -> p <= up a p <= p + a - 1.
Proof.
  intros Ha. unfold up.
  pose proof (Z.div_mod (p + a - 1) a ltac:(lia)).
  pose proof (Z.mod_pos_bound (p + a - 1) a Ha). lia.
Qed.

Lemma up_divide a p : (a | up a p).
Proof. unfold up. exists ((p + a - 1) / a). lia. Qed.

Lemma up_least a p m : 0 < a -> (a | m) -> p <= m -> up a p <= m.
Proof.
  intros Ha [q ->] Hle. unfold up.
  assert ((p + a - 1) / a <= q); [| nia].
  apply Z.lt_succ_r. apply Z.div_lt_upper_bound; lia.
Qed.

(** Rounding up commutes with the reduction to 64 bits, because the alignment
    divides [2^64]. *)
Lemma up_shift a p q k :
  0 <= k < 64 -> a = 2 ^ k -> up a (p + 2 ^ 64 * q) = up a p + 2 ^ 64 * q.
Proof.
  intros Hk ->. unfold up. pose proof (pow2_pos k ltac:(lia)).
  rewrite (pow2_divides_word k Hk).
  replace (p + 2 ^ k * 2 ^ (64 - k) * q + 2 ^ k - 1)
    with (p + 2 ^ k - 1 + (2 ^ (64 - k) * q) * 2 ^ k) by lia.
  rewrite Z.div_add by lia. lia.
Qed.

Lemma wrap64_up_congr a p p' k :
  0 <= k < 64 -> a = 2 ^ k ->
  wrap64 p = wrap64 p' -> wrap64 (up a p) = wrap64 (up a p').
Proof.
  intros Hk Ha H. apply wrap64_eq_iff in H as [q ->].
  rewrite (up_shift a p' q k Hk Ha). apply wrap64_eq_iff. exists q. reflexivity.
Qed.

(** The bit trick of [align] rounds up to the next multiple of the
    alignment. *)
Lemma align_up a p k :
  0 <= k < 64 -> a = 2 ^ k -> align a p = wrap64 (up a p).
Proof.
  intros Hk Ha. unfold align. rewrite wrap64_add_l.
  replace (p - 1 + a) with (p + a - 1) by lia.
  subst a. rewrite land_mask_floor by (auto using wrap64_range).
  pose proof (pow2_pos k ltac:(lia)) as Hpos.
  set (y := p + 2 ^ k - 1).
  assert (Hy : wrap64 y = wrap64 (wrap64 y)) by (symmetry; apply wrap64_idem).
  apply wrap64_eq_iff in Hy as [q Hq].
  pose proof (wrap64_range y) as Hr.
  unfold up. fold y.
  assert (E : y / 2 ^ k = wrap64 y / 2 ^ k + 2 ^ (64 - k) * q).
  { rewrite Hq at 1. rewrite (pow2_divides_word k Hk).
    replace (wrap64 y + 2 ^ k * 2 ^ (64 - k) * q)
      with (wrap64 y + (2 ^ (64 - k) * q) * 2 ^ k) by lia.
    rewrite Z.div_add by lia. reflexivity. }
  rewrite E.
  replace (2 ^ k * (wrap64 y / 2 ^ k + 2 ^ (64 - k) * q))
    with (2 ^ k * (wrap64 y / 2 ^ k) + 2 ^ 64 * q)
    by (rewrite (pow2_divides_word k Hk); lia).
  symmetry.
  transitivity (wrap64 (2 ^ k * (wrap64 y / 2 ^ k))).
  - apply wrap64_eq_iff. exists q. reflexivity.
  - apply wrap64_small.
    pose proof (Z.div_mod (wrap64 y) (2 ^ k) ltac:(lia)).
    pose proof (Z.mod_pos_bound (wrap64 y) (2 ^ k) Hpos).
    pose proof (Z.mod_le (wrap64 y) (2 ^ k) ltac:(lia) Hpos). lia.
Qed.

(** * The layout *)

Lemma sizeof_CANARY_eq : sizeof_CANARY = 4.
Proof. reflexivity. Qed.

(** A loop over the indices [0 .. n-1] that reads [blocks[i]] is a fold over
    the first [n] blocks. *)
Lemma fold_indices_take {A} (f : A -> Block -> A) (bs : list Block) n x :
  (n <= length bs)%nat ->
  fold_left (fun acc i => f acc (bs !!! i)) (seq 0 n) x = fold_left f (take n bs) x.
Proof.
  induction n as [| n IH]; intros Hn.
  - reflexivity.
  - destruct (lookup_lt_is_Some_2 bs n ltac:(lia)) as [b Hb].
    rewrite seq_S, fold_left_app, IH by lia. simpl.
    rewrite (take_S_r _ _ _ Hb), fold_left_app. simpl.
    rewrite (list_lookup_total_correct _ _ _ Hb). reflexivity.
Qed.

Lemma block_ok_spec b :
  block_ok b = true ->
  0 <= byte_size b < 2 ^ 64 /\ exists k, 0 <= k < 32 /\ entry_align b = 2 ^ k.
Proof.
  unfold block_ok, in_range. intros H.
  apply andb_prop in H as [Hs Ha]. apply andb_prop in Hs as [H0 H1].
  apply Z.leb_le in H0. apply Z.ltb_lt in H1.
  split; [lia | apply is_pow2_spec; exact Ha].
Qed.

Lemma layout_ok_spec l :
  layout_ok l = true ->
  length (blocks l) = NUM_BLOCKS /\ Forall (fun b => block_ok b = true) (blocks l).
Proof.
  unfold layout_ok. intros H. apply andb_prop in H as [Hl Hb].
  apply Nat.eqb_eq in Hl. split; [exact Hl |].
  apply Forall_forall. intros b Hin. rewrite forallb_forall in Hb.
  apply Hb. apply list_elem_of_In. exact Hin.
Qed.

Lemma layout_ok_lookup l i :
  layout_ok l = true -> (i < NUM_BLOCKS)%nat -> block_ok (blocks l !!! i) = true.
Proof.
  intros Hok Hi. apply layout_ok_spec in Hok as [Hlen Hall].
  rewrite Forall_forall in Hall. apply Hall.
  apply list_elem_of_lookup_total_2. lia.
Qed.

(** One loop iteration in 64-bit arithmetic agrees with the integer replay,
    whatever multiple of [2^64] separates the two positions. *)
Lemma skip_block_skipZ l p p' i :
  block_ok (blocks l !!! i) = true ->
  wrap64 p = wrap64 p' ->
  skip_block l p i = wrap64 (skipZ p' (blocks l !!! i)).
Proof.
  intros Hok Hp. apply block_ok_spec in Hok as [_ [k [Hk Ha]]].
  unfold skip_block, skipZ, ptr_add, GetBlockSize. rewrite sizeof_CANARY_eq.
  rewrite (align_up _ _ k) by (lia || exact Ha).
  rewrite !wrap64_add_l.
  assert (E : wrap64 (up (entry_align (blocks l !!! i)) (wrap64 (p + 4)))
              = wrap64 (up (entry_align (blocks l !!! i)) (p' + 4))).
  { apply (wrap64_up_congr _ _ _ k); [lia | exact Ha |].
    rewrite wrap64_idem, <- wrap64_add_l, Hp, wrap64_add_l. reflexivity. }
  apply wrap64_eq_iff in E as [q Hq].
  pose proof (wrap64_idem (up (entry_align (blocks l !!! i)) (wrap64 (p + 4)))) as W.
  apply wrap64_eq_iff in W as [q' Hq'].
  apply wrap64_eq_iff. exists (q + q'). lia.
Qed.

Lemma skip_blocks_endZ l n :
  layout_ok l = true -> (n <= NUM_BLOCKS)%nat ->
  forall p, wrap64 (fold_left (skip_block l) (seq 0 n) p)
            = wrap64 (endZ (take n (blocks l)) p).
Proof.
  intros Hok. induction n as [| n IH]; intros Hn p.
  - reflexivity.
  - pose proof (layout_ok_spec l Hok) as [Hlen _].
    destruct (lookup_lt_is_Some_2 (blocks l) n ltac:(lia)) as [b Hb].
    rewrite seq_S, fold_left_app. simpl.
    rewrite (take_S_r _ _ _ Hb). unfold endZ. rewrite fold_left_app. simpl.
    rewrite (skip_block_skipZ l _ (fold_left skipZ (take n (blocks l)) p) n).
    + rewrite wrap64_idem, (list_lookup_total_correct _ _ _ Hb). reflexivity.
    + apply layout_ok_lookup; [exact Hok | lia].
    + apply IH. lia.
Qed.

(** [GetAlignedBlockPtr] is the integer replay reduced to 64 bits. *)
Lemma GetAlignedBlockPtr_payloadZ l base bid :
  layout_ok l = true -> (bid < NUM_BLOCKS)%nat ->
  GetAlignedBlockPtr l base bid
  = wrap64 (payloadZ (take bid (blocks l)) (blocks l !!! bid) base).
Proof.
  intros Hok Hbid. unfold GetAlignedBlockPtr, payloadZ, ptr_add.
  destruct (block_ok_spec _ (layout_ok_lookup l bid Hok Hbid)) as [_ [k [Hk Ha]]].
  rewrite (align_up _ _ k) by (lia || exact Ha). rewrite sizeof_CANARY_eq.
  apply (wrap64_up_congr _ _ _ k); [lia | exact Ha |].
  rewrite wrap64_idem, <- wrap64_add_l.
  rewrite (skip_blocks_endZ l bid Hok ltac:(lia)). apply wrap64_add_l.
Qed.

Lemma layout_end_endZ l base :
  layout_ok l = true -> wrap64 (layout_end l base) = wrap64 (endZ (blocks l) base).
Proof.
  intros Hok. unfold layout_end.
  rewrite (skip_blocks_endZ l NUM_BLOCKS Hok ltac:(lia)).
  pose proof (layout_ok_spec l Hok) as [Hlen _].
  rewrite firstn_all2 by lia. reflexivity.
Qed.

(** ** Room taken by the blocks *)

Lemma skipZ_bounds p b :
  block_ok b = true ->
  p + 2 * sizeof_CANARY + byte_size b <= skipZ p b <= p + block_bound b - 1.
Proof.
  intros Hok. apply block_ok_spec in Hok as [Hs [k [Hk Ha]]].
  unfold skipZ, block_bound. rewrite sizeof_CANARY_eq.
  pose proof (up_bounds (entry_align b) (p + 4)
                ltac:(rewrite Ha; apply pow2_pos; lia)). lia.
Qed.

Lemma block_bound_pos b : block_ok b = true -> 0 < block_bound b.
Proof.
  intros Hok. apply block_ok_spec in Hok as [Hs [k [Hk Ha]]].
  unfold block_bound. rewrite sizeof_CANARY_eq, Ha.
  pose proof (pow2_pos k ltac:(lia)). lia.
Qed.

Lemma bound_sum_nonneg bs :
  Forall (fun b => block_ok b = true) bs -> 0 <= bound_sum bs.
Proof.
  induction 1 as [| b bs Hb _ IH]; simpl; [lia |].
  pose proof (block_bound_pos b Hb). lia.
Qed.

Lemma bound_sum_app bs1 bs2 : bound_sum (bs1 ++ bs2) = bound_sum bs1 + bound_sum bs2.
Proof. induction bs1 as [| b bs IH]; simpl; [reflexivity | rewrite IH; lia]. Qed.

Lemma endZ_bounds bs :
  Forall (fun b => block_ok b = true) bs ->
  forall p, p <= endZ bs p <= p + bound_sum bs.
Proof.
  induction 1 as [| b bs Hb Hbs IH]; intros p; simpl.
  - unfold endZ. simpl. lia.
  - unfold endZ in *. simpl. specialize (IH (skipZ p b)).
    pose proof (skipZ_bounds p b Hb).
    apply block_ok_spec in Hb as [Hs _]. rewrite sizeof_CANARY_eq in *. lia.
Qed.

Lemma endZ_snoc bs b p : endZ (bs ++ [b]) p = skipZ (endZ bs p) b.
Proof. unfold endZ. rewrite fold_left_app. reflexivity. Qed.

(** The loop of [GetSizeOfLayout] computes the sum, reduced to 64 bits. *)
Lemma size_loop bs :
  forall r, 0 <= r < 2 ^ 64 ->
  fold_left (fun result b => wrap64 (result + wrap64 (block_bound b))) bs r
  = wrap64 (r + bound_sum bs).
Proof.
  induction bs as [| b bs IH]; intros r Hr; simpl.
  - rewrite Z.add_0_r. symmetry. apply wrap64_small. exact Hr.
  - rewrite IH by apply wrap64_range.
    rewrite wrap64_add_l.
    replace (r + wrap64 (block_bound b) + bound_sum bs)
      with (r + bound_sum bs + wrap64 (block_bound b)) by lia.
    rewrite wrap64_add_r. f_equal. lia.
Qed.

Lemma GetSizeOfLayout_wrap l :
  layout_ok l = true -> GetSizeOfLayout l = wrap64 (size_sum l).
Proof.
  intros Hok. pose proof (layout_ok_spec l Hok) as [Hlen _].
  unfold GetSizeOfLayout, size_sum.
  pose proof (fold_indices_take
                (fun result b => wrap64 (result + wrap64 (block_bound b)))
                (blocks l) NUM_BLOCKS 0 ltac:(lia)) as E.
  unfold block_bound in E at 1. unfold GetBlockSize. rewrite E.
  rewrite firstn_all2 by lia. rewrite size_loop by lia. reflexivity.
Qed.

(** Payload positions over the integers: block [i] starts behind block
    [i-1]. *)
Lemma payloadZ_range l base i :
  layout_ok l = true -> (i < NUM_BLOCKS)%nat ->
  base + sizeof_CANARY
  <= payloadZ (take i (blocks l)) (blocks l !!! i) base
  <= base + size_sum l.
Proof.
  intros Hok Hi. pose proof (layout_ok_spec l Hok) as [Hlen Hall].
  destruct (lookup_lt_is_Some_2 (blocks l) i ltac:(lia)) as [b Hb].
  rewrite (list_lookup_total_correct _ _ _ Hb).
  assert (Hbok : block_ok b = true).
  { rewrite Forall_forall in Hall. apply Hall. eapply list_elem_of_lookup_2, Hb. }
  pose proof (take_drop (S i) (blocks l)) as Hsplit.
  rewrite (take_S_r _ _ _ Hb) in Hsplit.
  assert (Hpre : Forall (fun b => block_ok b = true) (take i (blocks l)))
    by (apply Forall_take; exact Hall).
  assert (Hpost : Forall (fun b => block_ok b = true) (drop (S i) (blocks l)))
    by (apply Forall_drop; exact Hall).
  assert (Hsum : bound_sum (blocks l)
                 = bound_sum (take i (blocks l)) + block_bound b
                   + bound_sum (drop (S i) (blocks l))).
  { rewrite <- Hsplit at 1. rewrite !bound_sum_app. simpl. lia. }
  unfold size_sum. rewrite Hsum.
  pose proof (endZ_bounds _ Hpre base). pose proof (bound_sum_nonneg _ Hpost).
  pose proof (block_ok_spec b Hbok) as [Hs [k [Hk Ha]]].
  unfold payloadZ, block_bound. rewrite sizeof_CANARY_eq.
  pose proof (up_bounds (entry_align b) (endZ (take i (blocks l)) base + 4)
                ltac:(rewrite Ha; apply pow2_pos; lia)). lia.
Qed.

Lemma payloadZ_next l base i :
  layout_ok l = true -> (S i < NUM_BLOCKS)%nat ->
  payloadZ (take i (blocks l)) (blocks l !!! i) base
    + byte_size (blocks l !!! i) + 2 * sizeof_CANARY
  <= payloadZ (take (S i) (blocks l)) (blocks l !!! S i) base.
Proof.
  intros Hok Hi. pose proof (layout_ok_spec l Hok) as [Hlen Hall].
  destruct (lookup_lt_is_Some_2 (blocks l) i ltac:(lia)) as [b Hb].
  rewrite (take_S_r _ _ _ Hb), (list_lookup_total_correct _ _ _ Hb).
  pose proof (block_ok_spec _ (layout_ok_lookup l (S i) Hok Hi)) as [_ [k [Hk Ha]]].
  unfold payloadZ at 2. rewrite endZ_snoc. unfold skipZ at 1.
  fold (payloadZ (take i (blocks l)) b base). rewrite sizeof_CANARY_eq.
  pose proof (up_bounds (entry_align (blocks l !!! S i))
                (payloadZ (take i (blocks l)) b base + byte_size b + 4 + 4)
                ltac:(rewrite Ha; apply pow2_pos; lia)). lia.
Qed.

Lemma aligned_offset_of_exact l base i :
  layout_ok l = true -> size_sum l < 2 ^ 64 -> (i < NUM_BLOCKS)%nat ->
  aligned_offset_of l base i
  = payloadZ (take i (blocks l)) (blocks l !!! i) base - base.
Proof.
  intros Hok Hfit Hi. unfold aligned_offset_of, offset_from.
  rewrite GetAlignedBlockPtr_payloadZ by assumption.
  rewrite wrap64_sub_l. apply wrap64_small.
  pose proof (payloadZ_range l base i Hok Hi). rewrite sizeof_CANARY_eq in *. lia.
Qed.

(** * The layout: size and offsets *)

(** The replay of the specification visits the positions of the fold over
    the earlier blocks. *)
Lemma earlier_endZ bs p : Replay.earlier bs p = endZ bs p.
Proof.
  revert p. induction bs as [| b bs IH]; intros p; [reflexivity |].
  simpl. rewrite IH. reflexivity.
Qed.

Lemma payload_payloadZ l base bid :
  Replay.payload l base bid
  = payloadZ (take bid (blocks l)) (blocks l !!! bid) base.
Proof.
  unfold Replay.payload, payloadZ, Replay.round_up, Replay.advance.
  rewrite earlier_endZ. reflexivity.
Qed.

(** The rounding of the replay is the least multiple of the alignment that is
    not below the position. *)
Lemma round_up_least a p m :
  0 < a -> (a | m) -> p <= m ->
  p <= Replay.round_up a p <= m /\ (a | Replay.round_up a p).
Proof.
  intros Ha Hdiv Hle. unfold Replay.round_up.
  pose proof (up_bounds a p Ha). pose proof (up_least a p m Ha Hdiv Hle).
  split; [lia | apply up_divide].
Qed.

(** C6 (as amended): for every layout whose blocks have positive
    power-of-two alignments, every block id and every base pointer,
    [GetAlignedBlockPtr] returns the position that the replay definition
    gives (from the base, for each earlier block advance by a canary, round
    up to the block's alignment, advance by its byte size, advance by a
    canary; finally advance by a canary and round up to the alignment of the
    queried block), reduced modulo [2^64].  It returns the position of the
    replay itself for every base [0 <= base] with [base] plus the size sum
    below [2^64]; and when the size sum is below [2^64] the payload offset is
    the distance of the replay's position from the base, for every base. *)
Theorem GetAlignedBlockPtr_is_replay (l : DataLayout) (base : Z) (bid : BlockID) :
  layout_ok l = true -> (bid < NUM_BLOCKS)%nat ->
  GetAlignedBlockPtr l base bid = wrap64 (Replay.payload l base bid) /\
  (0 <= base -> base + size_sum l < 2 ^ 64 ->
   GetAlignedBlockPtr l base bid = Replay.payload l base bid) /\
  (size_sum l < 2 ^ 64 ->
   aligned_offset_of l base bid = Replay.payload l base bid - base).
Proof.
  intros Hok Hbid. rewrite payload_payloadZ.
  pose proof (GetAlignedBlockPtr_payloadZ l base bid Hok Hbid) as Hptr.
  split; [exact Hptr |]. split.
  - intros Hbase Hfit. rewrite Hptr. apply wrap64_small.
    pose proof (payloadZ_range l base bid Hok Hbid).
    rewrite sizeof_CANARY_eq in *. lia.
  - intros Hfit. apply aligned_offset_of_exact; assumption.
Qed.

Lemma GetAlignedBlockPtr_is_replay_witness :
  GetAlignedBlockPtr demo_layout 4096 BID.COORDINATE_LIST
  = Replay.payload demo_layout 4096 BID.COORDINATE_LIST.
Proof.
  apply (GetAlignedBlockPtr_is_replay demo_layout 4096 BID.COORDINATE_LIST).
  - vm_compute. reflexivity.
  - unfold BID.COORDINATE_LIST, NUM_BLOCKS. lia.
  - lia.
  - vm_compute. reflexivity.
Defined.

(** C6 as stated fails when the positions of the replay leave the address
    space: with a first block of [2^64 - 1] bytes and base [0] the replay
    puts the payload of the second block at [2^64 + 11], and
    [GetAlignedBlockPtr] returns [11]. *)
Lemma GetAlignedBlockPtr_leaves_replay :
  layout_ok (long_layout (2 ^ 64 - 1)) = true /\
  GetAlignedBlockPtr (long_layout (2 ^ 64 - 1)) 0 1 = 11 /\
  Replay.payload (long_layout (2 ^ 64 - 1)) 0 1 = 2 ^ 64 + 11 /\
  GetAlignedBlockPtr (long_layout (2 ^ 64 - 1)) 0 1
  <> Replay.payload (long_layout (2 ^ 64 - 1)) 0 1.
Proof.
  repeat split; try (vm_compute; reflexivity).
  intros H. vm_compute in H. discriminate H.
Qed.

(** C5 (as amended): for every layout whose blocks have positive
    power-of-two alignments and whose sum of [2 * canary + byte_size +
    alignment] over all blocks is below [2^64], [GetSizeOfLayout] returns
    that sum, and for every base address the end of the last block (behind
    its end canary) lies at most that many bytes behind the base. *)
Theorem GetSizeOfLayout_upper_bound (l : DataLayout) (base : Z) :
  layout_ok l = true -> size_sum l < 2 ^ 64 ->
  GetSizeOfLayout l = size_sum l /\
  offset_from base (layout_end l base) <= GetSizeOfLayout l.
Proof.
  intros Hok Hfit. pose proof (layout_ok_spec l Hok) as [Hlen Hall].
  pose proof (bound_sum_nonneg _ Hall) as Hnn. fold (size_sum l) in Hnn.
  assert (Hsize : GetSizeOfLayout l = size_sum l).
  { rewrite GetSizeOfLayout_wrap by exact Hok. apply wrap64_small. lia. }
  split; [exact Hsize |].
  unfold offset_from. rewrite <- wrap64_sub_l, layout_end_endZ, wrap64_sub_l by exact Hok.
  pose proof (endZ_bounds _ Hall base) as Hend. fold (size_sum l) in Hend.
  rewrite wrap64_small by lia. lia.
Qed.

Lemma GetSizeOfLayout_upper_bound_witness :
  GetSizeOfLayout demo_layout = size_sum demo_layout /\
  offset_from 4099 (layout_end demo_layout 4099) <= GetSizeOfLayout demo_layout.
Proof.
  apply (GetSizeOfLayout_upper_bound demo_layout 4099).
  - vm_compute. reflexivity.
  - vm_compute. reflexivity.
Defined.

(** C5 as stated fails when the sum does not fit 64 bits: with a first block
    of [2^64 - 657] bytes the sum is exactly [2^64], [GetSizeOfLayout]
    returns [0], and the blocks end [2^64 - 73] bytes behind the base. *)
Lemma GetSizeOfLayout_wraps_around :
  layout_ok (long_layout (2 ^ 64 - 657)) = true /\
  size_sum (long_layout (2 ^ 64 - 657)) = 2 ^ 64 /\
  GetSizeOfLayout (long_layout (2 ^ 64 - 657)) = 0 /\
  offset_from 0 (layout_end (long_layout (2 ^ 64 - 657)) 0) = 2 ^ 64 - 73 /\
  ~ (GetSizeOfLayout (long_layout (2 ^ 64 - 657))
       = size_sum (long_layout (2 ^ 64 - 657)) /\
     offset_from 0 (layout_end (long_layout (2 ^ 64 - 657)) 0)
       <= GetSizeOfLayout (long_layout (2 ^ 64 - 657))).
Proof.
  repeat split; try (vm_compute; reflexivity).
  intros [H _]. vm_compute in H. discriminate H.
Qed.





(** * The sizing pass *)

Section SizingFacts.

Variable abi : ABI.

Lemma SetBlock_length l bid b : length (blocks (SetBlock l bid b)) = length (blocks l).
Proof. apply length_insert. Qed.

Lemma SetBlock_same l bid b :
  (bid < length (blocks l))%nat -> blocks (SetBlock l bid b) !!! bid = b.
Proof. intros H. apply list_lookup_total_insert_eq. exact H. Qed.

Lemma SetBlock_other l bid b i :
  bid <> i -> blocks (SetBlock l bid b) !!! i = blocks l !!! i.
Proof. intros H. apply list_lookup_total_insert_ne. exact H. Qed.

(** What a [SetBlock] loop over [irange(first, last)] leaves in the
    layout. *)
Lemma set_blocks_length l id0 first last blk :
  length (blocks (set_blocks l id0 first last blk)) = length (blocks l).
Proof.
  unfold set_blocks, irange. generalize (last - first)%nat as n.
  intros n. revert l first.
  induction n as [| n IH]; intros l first; simpl; [reflexivity |].
  rewrite IH. apply SetBlock_length.
Qed.

Lemma set_range_lookup l id0 first n blk i :
  (id0 + first + n <= length (blocks l))%nat ->
  blocks (fold_left (fun layout index => SetBlock layout (id0 + index) (blk index))
            (seq first n) l) !!! i
  = if bool_decide (id0 + first <= i < id0 + first + n)%nat
    then blk (i - id0)%nat else blocks l !!! i.
Proof.
  revert l first. induction n as [| n IH]; intros l first Hlen; simpl.
  - rewrite bool_decide_false by lia. reflexivity.
  - rewrite IH by (rewrite SetBlock_length; lia).
    destruct (decide (id0 + first = i)%nat) as [<- | Hne].
    + rewrite bool_decide_false by lia. rewrite bool_decide_true by lia.
      rewrite SetBlock_same by lia. f_equal. lia.
    + rewrite SetBlock_other by exact Hne.
      destruct (decide (id0 + S first <= i < id0 + S first + n)%nat).
      * rewrite !bool_decide_true by lia. reflexivity.
      * rewrite !bool_decide_false by lia. reflexivity.
Qed.

Lemma set_blocks_lookup l id0 first last blk i :
  (id0 + last <= length (blocks l))%nat ->
  blocks (set_blocks l id0 first last blk) !!! i
  = if bool_decide (id0 + first <= i < id0 + last)%nat
    then blk (i - id0)%nat else blocks l !!! i.
Proof.
  intros Hlen. unfold set_blocks, irange.
  destruct (Nat.le_gt_cases last first) as [Hle | Hlt].
  { replace (last - first)%nat with 0%nat by lia. simpl.
    rewrite bool_decide_false by lia. reflexivity. }
  rewrite set_range_lookup by lia.
  destruct (decide (id0 + first <= i < id0 + last)%nat).
  - rewrite !bool_decide_true by lia. reflexivity.
  - rewrite !bool_decide_false by lia. reflexivity.
Qed.

(** The parts of [PopulateLayout] behind the [.osrm.hsgr] part leave the CH
    blocks alone. *)
Lemma layout_middle_frame config l i :
  (CH_GRAPH_NODE_LIST <= i <= CH_EDGE_FILTER_7)%nat ->
  blocks (layout_middle abi config l) !!! i = blocks l !!! i.
Proof.
  unfold CH_GRAPH_NODE_LIST, CH_EDGE_FILTER_7. intros Hi. unfold layout_middle.
  repeat (rewrite SetBlock_other; [| compute; lia]). reflexivity.
Qed.

Lemma layout_partition_frame config l i :
  (i < MLD_LEVEL_DATA)%nat ->
  blocks (layout_partition abi config l) !!! i = blocks l !!! i.
Proof.
  unfold MLD_LEVEL_DATA. intros Hi. unfold layout_partition.
  destruct (partition config);
    repeat (rewrite SetBlock_other; [| compute; lia]); reflexivity.
Qed.

Lemma layout_cells_frame config l i :
  (i < MLD_LEVEL_DATA)%nat ->
  blocks (layout_cells abi config l) !!! i = blocks l !!! i.
Proof.
  unfold MLD_LEVEL_DATA. intros Hi. unfold layout_cells.
  destruct (cells config);
    repeat (rewrite SetBlock_other; [| compute; lia]); reflexivity.
Qed.

Lemma layout_mldgr_frame config l i :
  (i < MLD_LEVEL_DATA)%nat ->
  blocks (layout_mldgr abi config l) !!! i = blocks l !!! i.
Proof.
  unfold MLD_LEVEL_DATA. intros Hi. unfold layout_mldgr.
  destruct (mldgr config);
    repeat (rewrite SetBlock_other; [| compute; lia]); reflexivity.
Qed.

Lemma metric_loop_frame (bw bd : nat -> Block) indices l i :
  (i < MLD_LEVEL_DATA)%nat ->
  blocks (fold_left
            (fun layout index =>
               let layout := SetBlock layout (MLD_CELL_WEIGHTS_0 + index) (bw index) in
               SetBlock layout (MLD_CELL_DURATIONS_0 + index) (bd index))
            indices l) !!! i
  = blocks l !!! i.
Proof.
  unfold MLD_LEVEL_DATA, MLD_CELL_WEIGHTS_0, MLD_CELL_DURATIONS_0. intros Hi.
  revert l. induction indices as [| index rest IH]; intros l; simpl.
  - reflexivity.
  - rewrite IH, !SetBlock_other by lia. reflexivity.
Qed.

Lemma layout_cell_metrics_frame config l l' i :
  layout_cell_metrics abi config l = Ok l' ->
  (i < MLD_LEVEL_DATA)%nat ->
  blocks l' !!! i = blocks l !!! i.
Proof.
  unfold layout_cell_metrics. intros H Hi.
  destruct (cell_metrics config) as [reader |].
  - destruct (NUM_METRICS <? num_metric reader); [discriminate H |].
    injection H as <-. rewrite !metric_loop_frame by exact Hi. reflexivity.
  - injection H as <-. unfold MLD_LEVEL_DATA in Hi.
    repeat (rewrite SetBlock_other; [| compute; lia]). reflexivity.
Qed.

Lemma layout_front_length config l :
  length (blocks (layout_front abi config l)) = length (blocks l).
Proof. unfold layout_front. rewrite !SetBlock_length. reflexivity. Qed.

(** The edge filters as the [.osrm.hsgr] part leaves them. *)
Lemma layout_hsgr_filters config l l' reader index :
  length (blocks l) = NUM_BLOCKS ->
  layout_hsgr abi config l = Ok l' ->
  hsgr config = Some reader ->
  (index < 8)%nat ->
  blocks l' !!! (CH_EDGE_FILTER_0 + index)%nat
  = make_block (abi T_unsigned)
      (if Z.of_nat index <? hsgr_num_metrics reader then hsgr_num_edges reader else 0).
Proof.
  intros Hlen H Hr Hi. unfold layout_hsgr in H. rewrite Hr in H.
  destruct (Z.ltb_spec NUM_METRICS (hsgr_num_metrics reader)) as [| Hle];
    [discriminate H |].
  injection H as <-. unfold NUM_METRICS in *. unfold CH_EDGE_FILTER_0.
  change (Z.to_nat 8) with 8%nat.
  rewrite set_blocks_lookup
    by (rewrite set_blocks_length, !SetBlock_length, Hlen; unfold NUM_BLOCKS; lia).
  destruct (Z.ltb_spec (Z.of_nat index) (hsgr_num_metrics reader)) as [Hlt | Hge].
  - rewrite bool_decide_false by lia.
    rewrite set_blocks_lookup
      by (rewrite !SetBlock_length, Hlen; unfold NUM_BLOCKS; lia).
    rewrite bool_decide_true by lia. reflexivity.
  - rewrite bool_decide_true by lia. reflexivity.
Qed.

End SizingFacts.

(** C8: sizing fails with the too-many-metrics exception exactly when the CH
    graph file or the cell-metrics file exists and declares more than 8
    metrics; with at most 8 (so with exactly 8) in each file that exists it
    succeeds; and when it succeeds on an existing CH graph file, the first
    [num_metrics] edge-filter blocks hold [num_edges] entries each and the
    other filter blocks up to the eighth hold none. *)
Theorem PopulateLayout_metrics (abi : ABI) (config : StorageConfig)
    (layout0 : DataLayout) :
  length (blocks layout0) = NUM_BLOCKS ->
  ((exists max, PopulateLayout abi config layout0 = Throw (TooManyMetrics max)) <->
   (exists reader, hsgr config = Some reader /\ 8 < hsgr_num_metrics reader) \/
   (exists reader, cell_metrics config = Some reader /\ 8 < num_metric reader)) /\
  ((forall reader, hsgr config = Some reader -> hsgr_num_metrics reader <= 8) ->
   (forall reader, cell_metrics config = Some reader -> num_metric reader <= 8) ->
   exists layout, PopulateLayout abi config layout0 = Ok layout) /\
  (forall layout reader,
     PopulateLayout abi config layout0 = Ok layout ->
     hsgr config = Some reader ->
     hsgr_num_metrics reader <= 8 /\
     forall index, (index < 8)%nat ->
       blocks layout !!! (CH_EDGE_FILTER_0 + index)%nat
       = make_block (abi T_unsigned)
           (if Z.of_nat index <? hsgr_num_metrics reader
            then hsgr_num_edges reader else 0)).
Proof.
  intros Hlen. split; [| split].
  - unfold PopulateLayout, layout_hsgr, layout_cell_metrics, NUM_METRICS. split.
    + intros [max H].
      destruct (hsgr config) as [h |].
      * destruct (Z.ltb_spec 8 (hsgr_num_metrics h)); [left; eauto |].
        destruct (cell_metrics config) as [c |]; [| discriminate H].
        destruct (Z.ltb_spec 8 (num_metric c)); [right; eauto | discriminate H].
      * destruct (cell_metrics config) as [c |]; [| discriminate H].
        destruct (Z.ltb_spec 8 (num_metric c)); [right; eauto | discriminate H].
    + intros [[h [Hh Hgt]] | [c [Hc Hgt]]].
      * rewrite Hh. destruct (Z.ltb_spec 8 (hsgr_num_metrics h)); [eauto | lia].
      * rewrite Hc.
        destruct (hsgr config) as [h |].
        -- destruct (Z.ltb_spec 8 (hsgr_num_metrics h)); [eauto |].
           destruct (Z.ltb_spec 8 (num_metric c)); [eauto | lia].
        -- destruct (Z.ltb_spec 8 (num_metric c)); [eauto | lia].
  - intros Hh Hc.
    unfold PopulateLayout, layout_hsgr, layout_cell_metrics, NUM_METRICS.
    destruct (hsgr config) as [h |].
    + specialize (Hh h eq_refl).
      destruct (Z.ltb_spec 8 (hsgr_num_metrics h)); [lia |].
      destruct (cell_metrics config) as [c |]; [| eauto].
      specialize (Hc c eq_refl).
      destruct (Z.ltb_spec 8 (num_metric c)); [lia | eauto].
    + destruct (cell_metrics config) as [c |]; [| eauto].
      specialize (Hc c eq_refl).
      destruct (Z.ltb_spec 8 (num_metric c)); [lia | eauto].
  - intros layout reader H Hr. unfold PopulateLayout in H.
    destruct (layout_hsgr abi config (layout_front abi config layout0))
      as [l1 |] eqn:E1; [| discriminate H].
    destruct (layout_cell_metrics abi config _) as [l2 |] eqn:E2; [| discriminate H].
    injection H as <-. split.
    + unfold layout_hsgr in E1. rewrite Hr in E1. unfold NUM_METRICS in E1.
      destruct (Z.ltb_spec 8 (hsgr_num_metrics reader)); [discriminate E1 | lia].
    + intros index Hi.
      assert (Hlow : (CH_EDGE_FILTER_0 + index < MLD_LEVEL_DATA)%nat)
        by (unfold CH_EDGE_FILTER_0, MLD_LEVEL_DATA; lia).
      rewrite layout_mldgr_frame by exact Hlow.
      rewrite (layout_cell_metrics_frame abi config _ l2 _ E2) by exact Hlow.
      rewrite layout_cells_frame, layout_partition_frame by exact Hlow.
      rewrite layout_middle_frame
        by (unfold CH_GRAPH_NODE_LIST, CH_EDGE_FILTER_0, CH_EDGE_FILTER_7; lia).
      apply (layout_hsgr_filters abi config (layout_front abi config layout0));
        try assumption.
      rewrite layout_front_length. exact Hlen.
Qed.

(** * The populate pass *)

Lemma returns_ret {A} (a : A) (Q : A -> Prop) : Q a -> returns (ret a) Q.
Proof. intros H mem. exists a, mem. split; [reflexivity | exact H]. Qed.

Lemma returns_modify f : returns (modify f) (fun _ => True).
Proof. intros mem. exists tt, (f mem). split; [reflexivity | exact I]. Qed.

Lemma returns_bind {A B} (m : Mem A) (k : A -> Mem B) Q R :
  returns m Q -> (forall a, Q a -> returns (k a) R) -> returns (bind m k) R.
Proof.
  intros Hm Hk mem. unfold bind.
  destruct (Hm mem) as [a [mem' [-> Ha]]]. apply (Hk a Ha).
Qed.

Lemma returns_weaken {A} (m : Mem A) (Q R : A -> Prop) :
  returns m Q -> (forall a, Q a -> R a) -> returns m R.
Proof.
  intros Hm Himp mem. destruct (Hm mem) as [a [mem' [E Ha]]].
  exists a, mem'. split; [exact E | apply Himp, Ha].
Qed.

(** A property of the result of [bind m k] follows from the same property of
    the continuation, when [m] cannot throw. *)
Lemma returns_elim {A B} (m : Mem A) (k : A -> Mem B) Q mem
    (P : result (B * Memory) -> Prop) :
  returns m Q -> (forall a mem', Q a -> P (k a mem')) -> P (bind m k mem).
Proof.
  intros Hm Hk. unfold bind. destruct (Hm mem) as [a [mem' [-> Ha]]].
  apply Hk, Ha.
Qed.

Lemma total_GetBlockPtr_write layout base bid : total (GetBlockPtr true layout base bid).
Proof.
  intros mem. unfold GetBlockPtr. eexists _, _. split; [reflexivity | exact I].
Qed.

Lemma total_for_each {A} (body : nat -> Mem A) indices :
  (forall i, total (body i)) -> total (for_each body indices).
Proof.
  intros Hb. induction indices as [| i rest IH]; simpl.
  - apply returns_ret. exact I.
  - eapply returns_bind; [apply Hb | intros a _].
    eapply returns_bind; [exact IH | intros l _]. apply returns_ret. exact I.
Qed.

(** One syntax-directed step of a proof that straight-line code cannot
    throw. *)
Ltac total_step :=
  lazymatch goal with
  | |- returns (ret _) _ => apply returns_ret; exact I
  | |- returns (modify _) _ => apply returns_modify
  | |- returns (GetBlockPtr true _ _ _) _ => apply total_GetBlockPtr_write
  | |- returns (for_each _ _) _ => apply total_for_each; intros ?
  | |- returns (bind _ _) _ => eapply returns_bind; [| intros ? _]
  end.

(** Peel the outermost [bind] off the goal, given that its first part cannot
    throw. *)
Tactic Notation "bind_elim" uconstr(lem) :=
  match goal with
  | |- context [@bind ?A ?B ?m ?k ?mem] =>
      pattern (@bind A B m k mem);
      apply (returns_elim m k _ mem _ lem); intros ? ? ?
  end.

Section PopulateFacts.

Variable abi : ABI.
Variable config : StorageConfig.
Variable layout : DataLayout.
Variable memory_ptr : Z.

Lemma total_block_ptr bid : total (block_ptr layout memory_ptr bid).
Proof. apply total_GetBlockPtr_write. Qed.

Lemma total_ReadInto T bid dest count : total (ReadInto abi config T bid dest count).
Proof. apply returns_modify. Qed.

Lemma total_read_view bid ptr : total (read_view config layout bid ptr).
Proof. apply returns_modify. Qed.

Ltac phase_total :=
  unfold total;
  repeat lazymatch goal with
    | |- returns (block_ptr _ _ _) _ => apply total_block_ptr
    | |- returns (ReadInto _ _ _ _ _ _) _ => apply total_ReadInto
    | |- returns (read_view _ _ _ _) _ => apply total_read_view
    | |- returns (let _ := _ in _) _ => cbv zeta
    | |- total _ => unfold total
    | |- _ => total_step
    end.

Lemma total_file_index_path : total (file_index_path config layout memory_ptr).
Proof. unfold file_index_path. phase_total. Qed.

Lemma total_name_data : total (name_data abi config layout memory_ptr).
Proof. unfold name_data. phase_total. Qed.

Lemma total_turn_lane_data : total (turn_lane_data abi config layout memory_ptr).
Proof. unfold turn_lane_data. phase_total. Qed.

Lemma total_turn_lane_descriptions :
  total (turn_lane_descriptions config layout memory_ptr).
Proof. unfold turn_lane_descriptions. phase_total. Qed.

Lemma total_edge_based_nodes_data :
  total (edge_based_nodes_data config layout memory_ptr).
Proof. unfold edge_based_nodes_data. phase_total. Qed.

(** [readTurnData] hands back the checksum of [.osrm.edges]. *)
Lemma original_edge_data_checksum :
  returns (original_edge_data config layout memory_ptr)
    (fun c => c = edges_connectivity_checksum config).
Proof.
  unfold original_edge_data.
  repeat (eapply returns_bind;
          [lazymatch goal with
           | |- returns (block_ptr _ _ _) _ => apply total_block_ptr
           | |- returns (read_view _ _ _ _) _ => apply total_read_view
           end | intros ? _]).
  apply returns_ret. reflexivity.
Qed.

Lemma total_compressed_geometry : total (compressed_geometry config layout memory_ptr).
Proof. unfold compressed_geometry. phase_total. Qed.

Lemma total_datasources_names : total (datasources_names config layout memory_ptr).
Proof. unfold datasources_names. phase_total. Qed.

Lemma total_coordinates : total (coordinates config layout memory_ptr).
Proof. unfold coordinates. phase_total. Qed.

Lemma total_turn_weight_penalties :
  total (turn_weight_penalties abi config layout memory_ptr).
Proof. unfold turn_weight_penalties. phase_total. Qed.

Lemma total_turn_duration_penalties :
  total (turn_duration_penalties abi config layout memory_ptr).
Proof. unfold turn_duration_penalties. phase_total. Qed.

Lemma total_store_timestamp : total (store_timestamp abi config layout memory_ptr).
Proof. unfold store_timestamp. phase_total. Qed.

Lemma total_search_tree : total (search_tree abi config layout memory_ptr).
Proof. unfold search_tree. phase_total. Qed.

Lemma total_profile_properties : total (profile_properties config layout memory_ptr).
Proof. unfold profile_properties. phase_total. Qed.

Lemma total_intersection_data : total (intersection_data config layout memory_ptr).
Proof. unfold intersection_data. phase_total. Qed.

Lemma total_mld_partition : total (mld_partition config layout memory_ptr).
Proof. unfold mld_partition. destruct (partition config); phase_total. Qed.

Lemma total_mld_cells : total (mld_cells config layout memory_ptr).
Proof. unfold mld_cells. destruct (cells config); phase_total. Qed.

Lemma total_mld_cell_metrics : total (mld_cell_metrics config layout memory_ptr).
Proof. unfold mld_cell_metrics. destruct (cell_metrics config); phase_total. Qed.

Lemma total_maneuver_overrides : total (maneuver_overrides config layout memory_ptr).
Proof. unfold maneuver_overrides. phase_total. Qed.

Lemma hsgr_file_result turns mem :
  graph_part_result ".osrm.hsgr" (hsgr_connectivity_checksum <$> hsgr config) turns
    (hsgr_file config layout memory_ptr turns mem).
Proof.
  unfold hsgr_file, graph_part_result.
  destruct (hsgr config) as [file |]; cbv [fmap option_fmap option_map].
  - do 3 bind_elim (total_block_ptr _).
    bind_elim (total_for_each _ _ (fun i => total_block_ptr _)).
    do 3 bind_elim (total_read_view _ _).
    bind_elim (total_for_each _ _ (fun i => total_read_view _ _)).
    destruct (turns =? hsgr_connectivity_checksum file); simpl.
    + unfold ret. eauto.
    + reflexivity.
  - do 3 bind_elim (total_block_ptr _). unfold ret. eauto.
Qed.

Lemma mld_graph_result turns mem :
  graph_part_result ".osrm.mldgr" (mldgr_connectivity_checksum <$> mldgr config) turns
    (mld_graph config layout memory_ptr turns mem).
Proof.
  unfold mld_graph, graph_part_result.
  destruct (mldgr config) as [file |]; cbv [fmap option_fmap option_map].
  - do 3 bind_elim (total_block_ptr _). do 3 bind_elim (total_read_view _ _).
    destruct (turns =? mldgr_connectivity_checksum file); simpl.
    + unfold ret. eauto.
    + reflexivity.
  - unfold ret. eauto.
Qed.

Lemma bind_ok {A B} (m : Mem A) (k : A -> Mem B) mem a mem' :
  m mem = Ok (a, mem') -> bind m k mem = k a mem'.
Proof. intros H. unfold bind. rewrite H. reflexivity. Qed.

Lemma bind_throw {A B} (m : Mem A) (k : A -> Mem B) mem e :
  m mem = Throw e -> bind m k mem = Throw e.
Proof. intros H. unfold bind. rewrite H. reflexivity. Qed.

(** The populate pass throws the first checksum mismatch, and nothing
    else. *)
Lemma PopulateData_result mem :
  match first_mismatch config with
  | Some e => PopulateData abi config layout memory_ptr mem = Throw e
  | None => exists mem', PopulateData abi config layout memory_ptr mem = Ok (tt, mem')
  end.
Proof.
  unfold PopulateData.
  bind_elim total_file_index_path. bind_elim total_name_data.
  bind_elim total_turn_lane_data. bind_elim total_turn_lane_descriptions.
  bind_elim total_edge_based_nodes_data.
  bind_elim original_edge_data_checksum. subst.
  bind_elim total_compressed_geometry. bind_elim total_datasources_names.
  bind_elim total_coordinates. bind_elim total_turn_weight_penalties.
  bind_elim total_turn_duration_penalties. bind_elim total_store_timestamp.
  bind_elim total_search_tree. bind_elim total_profile_properties.
  bind_elim total_intersection_data.
  match goal with
  | |- context [bind (hsgr_file _ _ _ ?t) _ ?m] =>
      pose proof (hsgr_file_result t m) as Hh
  end.
  unfold first_mismatch, graph_part_result in *.
  destruct (hsgr config) as [hf |]; cbv [fmap option_fmap option_map] in Hh.
  - destruct (edges_connectivity_checksum config =? hsgr_connectivity_checksum hf);
      simpl.
    + destruct Hh as [m1 Hh]. rewrite (bind_ok _ _ _ _ _ Hh).
      bind_elim total_mld_partition. bind_elim total_mld_cells.
      bind_elim total_mld_cell_metrics.
      match goal with
      | |- context [bind (mld_graph _ _ _ ?t) _ ?m] =>
          pose proof (mld_graph_result t m) as Hg
      end.
      unfold graph_part_result in Hg.
      destruct (mldgr config) as [gf |]; cbv [fmap option_fmap option_map] in Hg.
      * destruct (edges_connectivity_checksum config =? mldgr_connectivity_checksum gf);
          simpl.
        -- destruct Hg as [m2 Hg]. rewrite (bind_ok _ _ _ _ _ Hg).
           destruct (total_maneuver_overrides m2) as [[] [m3 [E _]]]. eauto.
        -- apply bind_throw. exact Hg.
      * destruct Hg as [m2 Hg]. rewrite (bind_ok _ _ _ _ _ Hg).
        destruct (total_maneuver_overrides m2) as [[] [m3 [E _]]]. eauto.
    + apply bind_throw. exact Hh.
  - destruct Hh as [m1 Hh]. rewrite (bind_ok _ _ _ _ _ Hh).
    bind_elim total_mld_partition. bind_elim total_mld_cells.
    bind_elim total_mld_cell_metrics.
    match goal with
    | |- context [bind (mld_graph _ _ _ ?t) _ ?m] =>
        pose proof (mld_graph_result t m) as Hg
    end.
    unfold graph_part_result in Hg.
    destruct (mldgr config) as [gf |]; cbv [fmap option_fmap option_map] in Hg.
    + destruct (edges_connectivity_checksum config =? mldgr_connectivity_checksum gf);
        simpl.
      * destruct Hg as [m2 Hg]. rewrite (bind_ok _ _ _ _ _ Hg).
        destruct (total_maneuver_overrides m2) as [[] [m3 [E _]]]. eauto.
      * apply bind_throw. exact Hg.
    + destruct Hg as [m2 Hg]. rewrite (bind_ok _ _ _ _ _ Hg).
      destruct (total_maneuver_overrides m2) as [[] [m3 [E _]]]. eauto.
Qed.

End PopulateFacts.

(** C2: for every input set, the populate pass fails with a checksum
    mismatch if and only if [.osrm.hsgr] exists and its connectivity checksum
    differs from the turns connectivity checksum of [.osrm.edges], or
    [.osrm.mldgr] exists and its checksum differs from it; when neither graph
    file exists, no comparison fails and the pass completes. *)
Theorem PopulateData_checksum_mismatch (abi : ABI) (config : StorageConfig)
    (layout : DataLayout) (memory_ptr : Z) (mem : Memory) :
  ((exists graph_checksum graph_file turns_checksum turns_file,
      PopulateData abi config layout memory_ptr mem
      = Throw (ChecksumMismatch graph_checksum graph_file turns_checksum turns_file))
   <->
   (exists file, hsgr config = Some file /\
                 edges_connectivity_checksum config <> hsgr_connectivity_checksum file)
   \/
   (exists file, mldgr config = Some file /\
                 edges_connectivity_checksum config <> mldgr_connectivity_checksum file))
  /\
  (hsgr config = None -> mldgr config = None ->
   exists mem', PopulateData abi config layout memory_ptr mem = Ok (tt, mem')).
Proof.
  pose proof (PopulateData_result abi config layout memory_ptr mem) as H.
  unfold first_mismatch in H. split.
  - split.
    + intros [gc [gf [tc [tf E]]]]. rewrite E in H.
      destruct (hsgr config) as [hf |].
      * destruct (Z.eqb_spec (edges_connectivity_checksum config)
                    (hsgr_connectivity_checksum hf)) as [Heq | Hne];
          [| left; eauto].
        simpl in H. destruct (mldgr config) as [gf' |].
        -- destruct (Z.eqb_spec (edges_connectivity_checksum config)
                       (mldgr_connectivity_checksum gf')) as [Heq' | Hne'];
             [| right; eauto].
           simpl in H. destruct H as [m' H]. discriminate H.
        -- destruct H as [m' H]. discriminate H.
      * destruct (mldgr config) as [gf' |].
        -- destruct (Z.eqb_spec (edges_connectivity_checksum config)
                       (mldgr_connectivity_checksum gf')) as [Heq' | Hne'];
             [| right; eauto].
           simpl in H. destruct H as [m' H]. discriminate H.
        -- destruct H as [m' H]. discriminate H.
    + intros [[hf [Hh Hne]] | [gf [Hg Hne]]].
      * rewrite Hh in H.
        destruct (Z.eqb_spec (edges_connectivity_checksum config)
                    (hsgr_connectivity_checksum hf)); [contradiction |].
        simpl in H. eauto.
      * rewrite Hg in H.
        destruct (Z.eqb_spec (edges_connectivity_checksum config)
                    (mldgr_connectivity_checksum gf)); [contradiction |].
        simpl in H.
        destruct (hsgr config) as [hf |]; [| eauto].
        destruct (edges_connectivity_checksum config =? hsgr_connectivity_checksum hf);
          simpl in H; eauto.
  - intros Hh Hg. rewrite Hh, Hg in H. exact H.
Qed.


Lemma PopulateData_checksum_mismatch_witness :
  hsgr mandatory_config = None /\ mldgr mandatory_config = None /\
  exists mem',
    PopulateData demo_abi mandatory_config (sized demo_abi mandatory_config)
      demo_base zero_memory = Ok (tt, mem').
Proof.
  split; [reflexivity |]. split; [reflexivity |].
  apply (PopulateData_checksum_mismatch demo_abi mandatory_config
           (sized demo_abi mandatory_config) demo_base zero_memory); reflexivity.
Defined.

(** Scenario S5 of the specification: [.osrm.edges] carries the checksum
    [0xAAA] and [.osrm.hsgr] the checksum [0xBBB]. *)
Example checksum_mismatch_S5 :
  PopulateData demo_abi
    (with_optional (Some (mkHsgrFile 6 9 3 3003)) None None None None demo_config)
    (sized demo_abi demo_config) demo_base zero_memory
  = Throw (ChecksumMismatch 3003 ".osrm.hsgr" 2730 ".osrm.edges").
Proof. vm_compute. reflexivity. Qed.

(** * The publisher *)

Lemma returned_spec o :
  returned o = true -> o = Returned EXIT_SUCCESS (world_of o).
Proof.
  destruct o as [code w | |]; simpl; try discriminate.
  intros H. apply Z.eqb_eq in H. subst. reflexivity.
Qed.

Lemma next_region_eq r :
  (if bool_decide (r = REGION_2) || bool_decide (r = REGION_NONE)
   then REGION_1 else REGION_2) = next_of r.
Proof. destruct r; reflexivity. Qed.

Lemma data_open_or_create w :
  data (Monitor_open_or_create (mkSharedDataTimestamp REGION_NONE 0) w) = data w.
Proof.
  unfold Monitor_open_or_create, data.
  destruct (monitor w) eqn:E; simpl; rewrite ?E; reflexivity.
Qed.

(** [Storage::Run] case by case: what the sizing pass returns, whether the
    segment is granted, what the populate pass returns, and whether the lock
    is taken. *)
Lemma Run_with_cases env refused populate_layout populate_data max_wait w :
  Run_with env refused populate_layout populate_data max_wait w
  = match populate_layout new_DataLayout with
    | Throw e => Thrown e (opened w)
    | Ok layout =>
        let next :=
          mkSharedDataTimestamp (next_of (region (data w)))
            (wrap32 (timestamp (data w) + 1)) in
        let regions_size := wrap64 (sizeof_layout env + GetSizeOfLayout layout) in
        if refused regions_size
        then Thrown (Failure (RegionAllocationFailed regions_size)) (opened w)
        else
          match
            populate_data layout (ptr_add (shared_memory_ptr env) (sizeof_layout env))
              (fresh_segment env layout)
          with
          | Throw e => Thrown e (loading env w layout)
          | Ok (_, mem) =>
              if lock_granted env
              then Returned EXIT_SUCCESS
                     (published (prepared env w layout mem) (region (data w)) next)
              else if 0 <=? max_wait
                   then Returned EXIT_SUCCESS
                          (published (recovered max_wait (prepared env w layout mem))
                             REGION_NONE next)
                   else Blocked (prepared env w layout mem)
          end
    end.
Proof.
  unfold Run_with, prepared, loading, opened, fresh_segment.
  rewrite data_open_or_create, next_region_eq. cbv zeta.
  destruct (populate_layout new_DataLayout) as [layout |]; [| reflexivity].
  destruct (refused _); [reflexivity |].
  destruct (populate_data layout _ _) as [[[] mem] |]; [| reflexivity].
  destruct (0 <=? max_wait), (lock_granted env); reflexivity.
Qed.

Section RunFacts.

Variable abi : ABI.
Variable config : StorageConfig.
Variable env : Environment.

Lemma Run_cases max_wait w :
  Run abi config env max_wait w
  = match PopulateLayout abi config new_DataLayout with
    | Throw e => Thrown e (opened w)
    | Ok layout =>
        let next :=
          mkSharedDataTimestamp (next_of (region (data w)))
            (wrap32 (timestamp (data w) + 1)) in
        match
          PopulateData abi config layout
            (ptr_add (shared_memory_ptr env) (sizeof_layout env))
            (fresh_segment env layout)
        with
        | Throw e => Thrown e (loading env w layout)
        | Ok (_, mem) =>
            if lock_granted env
            then Returned EXIT_SUCCESS
                   (published (prepared env w layout mem) (region (data w)) next)
            else if 0 <=? max_wait
                 then Returned EXIT_SUCCESS
                        (published (recovered max_wait (prepared env w layout mem))
                           REGION_NONE next)
                 else Blocked (prepared env w layout mem)
        end
    end.
Proof.
  unfold Run. rewrite Run_with_cases.
  destruct (PopulateLayout abi config new_DataLayout) as [layout |]; reflexivity.
Qed.

(** A run that returns has sized and populated, and then either took the
    lock or recovered from the timeout. *)
Lemma Run_returned max_wait w code w' :
  Run abi config env max_wait w = Returned code w' ->
  code = EXIT_SUCCESS /\
  exists layout mem,
    PopulateLayout abi config new_DataLayout = Ok layout /\
    let next :=
      mkSharedDataTimestamp (next_of (region (data w)))
        (wrap32 (timestamp (data w) + 1)) in
    (lock_granted env = true /\
     w' = published (prepared env w layout mem) (region (data w)) next) \/
    (lock_granted env = false /\ 0 <= max_wait /\
     w' = published (recovered max_wait (prepared env w layout mem)) REGION_NONE next).
Proof.
  rewrite Run_cases.
  destruct (PopulateLayout abi config new_DataLayout) as [layout |]; [| discriminate].
  cbv zeta.
  destruct (PopulateData abi config layout _ _) as [[[] mem] |]; [| discriminate].
  intros H. destruct (lock_granted env) eqn:Hlock;
    [| destruct (Z.leb_spec 0 max_wait) as [Hw | Hw]]; try discriminate H;
    injection H as <- <-; (split; [reflexivity |]); exists layout, mem;
    (split; [reflexivity |]); [left | right]; repeat split; assumption.
Qed.

End RunFacts.

(** ** The prepared, the recovered and the published world *)

Lemma monitor_prepared env w layout mem :
  monitor (prepared env w layout mem) = Some (data w).
Proof.
  unfold prepared, loading, opened, Monitor_open_or_create, data.
  destruct (monitor w) as [d |] eqn:E;
    match goal with |- context [RegionExists ?a ?b] => destruct (RegionExists a b) end;
    simpl; rewrite ?E; reflexivity.
Qed.

Lemma events_prepared env w layout mem :
  exists before, events (prepared env w layout mem) = events w ++ before.
Proof.
  unfold prepared, loading, opened, Monitor_open_or_create.
  destruct (monitor w) as [d |];
    match goal with |- context [RegionExists ?a ?b] => destruct (RegionExists a b) end;
    simpl; rewrite <- ?app_assoc; eexists; reflexivity.
Qed.

Lemma regions_prepared env w layout mem r :
  r <> next_of (region (data w)) ->
  regions (prepared env w layout mem) r = regions w r.
Proof.
  intros Hr. unfold prepared, loading, opened, Monitor_open_or_create.
  destruct (monitor w) as [d |];
    match goal with |- context [RegionExists ?a ?b] => destruct (RegionExists a b) end;
    simpl; rewrite ?decide_False by exact Hr; reflexivity.
Qed.

Lemma monitor_recovered max_wait w :
  monitor (recovered max_wait w) = Some (mkSharedDataTimestamp REGION_NONE 0).
Proof. reflexivity. Qed.

Lemma events_recovered max_wait w :
  events (recovered max_wait w)
  = events w ++ [LogWarning (CouldNotAquireLock max_wait); RemoveMonitor;
                 CreateMonitor (mkSharedDataTimestamp REGION_NONE 0)].
Proof. unfold recovered. simpl. rewrite <- !app_assoc. reflexivity. Qed.

Lemma regions_recovered max_wait w : regions (recovered max_wait w) = regions w.
Proof. reflexivity. Qed.

Lemma monitor_published w in_use next d :
  monitor w = Some d -> monitor (published w in_use next) = Some next.
Proof.
  intros E. unfold published.
  match goal with |- context [if ?c then _ else _] => destruct c end;
    simpl; rewrite E; destruct next; reflexivity.
Qed.

Lemma published_NONE w next :
  events (published w REGION_NONE next) = events w ++ [NotifyAll] /\
  regions (published w REGION_NONE next) = regions w.
Proof. split; reflexivity. Qed.

Lemma published_in_use w r next :
  r <> REGION_NONE -> is_Some (regions w r) ->
  events (published w r next)
  = events w ++ [NotifyAll; OpenRegion r; RemoveRegion r; WaitForDetach r] /\
  regions (published w r next) r = None.
Proof.
  intros Hr Hex. unfold published. cbv zeta.
  match goal with |- context [RegionExists ?a r] => set (w2 := a) end.
  assert (Hx : RegionExists w2 r = true)
    by (unfold RegionExists; apply bool_decide_true; exact Hex).
  rewrite Hx, (bool_decide_false _ Hr). simpl.
  rewrite <- !app_assoc, decide_True by reflexivity. split; reflexivity.
Qed.

Lemma next_of_differs r : r <> REGION_NONE -> next_of r <> r.
Proof. destruct r; simpl; congruence. Qed.

(** C1 (as amended): for every run of the publisher that returns success,
    with pre-publish monitor state [{r, t}]: the monitor afterwards holds
    region [REGION_1] if [r] was [REGION_2] or [REGION_NONE] and [REGION_2]
    otherwise, and timestamp [t + 1] reduced to 32 bits; hence the published
    region differs from [r] whenever [r] was not [REGION_NONE], and the
    timestamp strictly increases unless [t] was the largest [unsigned]. *)
Theorem Run_publishes_next (abi : ABI) (config : StorageConfig)
    (env : Environment) (max_wait : Z) (w : World) (code : Z) (w' : World) :
  Run abi config env max_wait w = Returned code w' ->
  code = EXIT_SUCCESS /\
  monitor w'
  = Some (mkSharedDataTimestamp
            (match region (data w) with
             | REGION_2 | REGION_NONE => REGION_1
             | REGION_1 => REGION_2
             end)
            (wrap32 (timestamp (data w) + 1))) /\
  (region (data w) <> REGION_NONE -> region (data w') <> region (data w)) /\
  (0 <= timestamp (data w) < 2 ^ 32 - 1 ->
   timestamp (data w') = timestamp (data w) + 1 /\
   timestamp (data w') > timestamp (data w)).
Proof.
  intros H. apply Run_returned in H as [Hcode [layout [mem [_ H]]]].
  split; [exact Hcode |]. cbv zeta in H.
  assert (Hmon : monitor w'
                 = Some (mkSharedDataTimestamp (next_of (region (data w)))
                           (wrap32 (timestamp (data w) + 1)))).
  { destruct H as [[_ ->] | [_ [_ ->]]].
    - eapply monitor_published, monitor_prepared.
    - eapply monitor_published, monitor_recovered. }
  split; [exact Hmon |].
  assert (Hd : data w'
               = mkSharedDataTimestamp (next_of (region (data w)))
                   (wrap32 (timestamp (data w) + 1)))
    by (unfold data at 1; rewrite Hmon; reflexivity).
  rewrite Hd. simpl. split.
  - apply next_of_differs.
  - intros Ht. unfold wrap32, wrap. rewrite Z.mod_small by lia. lia.
Qed.

Lemma Run_publishes_next_witness :
  exists w',
    Run demo_abi demo_config demo_env 2 (live_world 5) = Returned EXIT_SUCCESS w' /\
    monitor w' = Some (mkSharedDataTimestamp REGION_2 6) /\
    timestamp (data w') > 5.
Proof.
  assert (Hr : returned (Run demo_abi demo_config demo_env 2 (live_world 5)) = true)
    by (vm_compute; reflexivity).
  apply returned_spec in Hr.
  exists (world_of (Run demo_abi demo_config demo_env 2 (live_world 5))).
  split; [exact Hr |].
  destruct (Run_publishes_next demo_abi demo_config demo_env 2 (live_world 5)
              EXIT_SUCCESS _ Hr) as [_ [Hmon [_ Ht]]].
  split; [exact Hmon |].
  destruct (Ht ltac:(simpl; lia)) as [_ Hgt]. exact Hgt.
Defined.

(** C1 as stated fails at the largest timestamp: the [unsigned] increment
    wraps around to [0], which is neither [t + 1] nor larger than [t]. *)
Lemma Run_timestamp_wraps_around :
  exists w',
    Run demo_abi demo_config demo_env 2 (live_world 4294967295)
    = Returned EXIT_SUCCESS w' /\
    monitor w' = Some (mkSharedDataTimestamp REGION_2 0) /\
    timestamp (data w') <> 4294967295 + 1 /\
    ~ timestamp (data w') > timestamp (data (live_world 4294967295)).
Proof.
  assert (Hr : returned (Run demo_abi demo_config demo_env 2 (live_world 4294967295))
               = true) by (vm_compute; reflexivity).
  apply returned_spec in Hr.
  exists (world_of (Run demo_abi demo_config demo_env 2 (live_world 4294967295))).
  split; [exact Hr |].
  assert (Hmon : monitor (world_of (Run demo_abi demo_config demo_env 2
                                      (live_world 4294967295)))
                 = Some (mkSharedDataTimestamp REGION_2 0))
    by (vm_compute; reflexivity).
  split; [exact Hmon |]. unfold data at 1 2. rewrite Hmon. simpl. lia.
Qed.

(** What the preparation logs and which regions it touches. *)
Lemma events_prepared_kinds env w layout mem :
  exists before,
    events (prepared env w layout mem) = events w ++ before /\
    Forall (fun e =>
              match e with
              | CreateMonitor _ | LogWarning _ => True
              | RemoveRegion r | CreateRegion r _ => r = next_of (region (data w))
              | _ => False
              end) before.
Proof.
  unfold prepared, loading, opened, Monitor_open_or_create.
  destruct (monitor w) as [d |];
    match goal with |- context [RegionExists ?a ?b] => destruct (RegionExists a b) end;
    simpl; rewrite <- ?app_assoc; eexists; (split; [reflexivity |]);
    repeat constructor.
Qed.

Lemma wrap32_succ_one t : wrap32 (t + 1) = 1 <-> wrap32 t = 0.
Proof.
  unfold wrap32, wrap. rewrite <- Zplus_mod_idemp_l.
  pose proof (Z.mod_pos_bound t (2 ^ 32) ltac:(lia)) as Hr.
  destruct (Z.eq_dec (t mod 2 ^ 32) (2 ^ 32 - 1)) as [E | E].
  - rewrite E. replace (2 ^ 32 - 1 + 1) with (2 ^ 32) by lia.
    rewrite Z_mod_same_full. split; intros H; [discriminate H | lia].
  - rewrite Z.mod_small by lia. lia.
Qed.

(** C9 (as amended): for every run that has loaded its data (the sizing pass
    returns a layout, the segment is granted and the populate pass returns)
    and then cannot acquire the monitor mutex within [max_wait >= 0] seconds
    (so for [max_wait = 2]): the run returns success; the last things it did
    are to log the warning, to destroy the monitor, to re-create it from
    [{REGION_NONE, 0}] and to notify; and the monitor holds the next region
    and the next timestamp that the run computed from the monitor state
    [{r, t}] read at the start: [{next r, (t + 1) mod 2^32}].  That is
    [{REGION_1, 1}] exactly when [r] was not [REGION_1] and [t] was [0]
    modulo [2^32]. *)
Theorem Run_recovers_stuck_monitor (env : Environment) (refused : Z -> bool)
    (populate_layout : DataLayout -> result DataLayout)
    (populate_data : DataLayout -> Z -> Mem unit)
    (max_wait : Z) (w : World) (layout : DataLayout) (mem : Memory) :
  0 <= max_wait -> lock_granted env = false ->
  populate_layout new_DataLayout = Ok layout ->
  refused (wrap64 (sizeof_layout env + GetSizeOfLayout layout)) = false ->
  populate_data layout (ptr_add (shared_memory_ptr env) (sizeof_layout env))
    (memcpy zero_memory (shared_memory_ptr env) (layout_object env layout)
       (sizeof_layout env))
  = Ok (tt, mem) ->
  exists w',
    Run_with env refused populate_layout populate_data max_wait w
    = Returned EXIT_SUCCESS w' /\
    (exists before,
       events w'
       = events w ++ before ++
         [LogWarning (CouldNotAquireLock max_wait); RemoveMonitor;
          CreateMonitor (mkSharedDataTimestamp REGION_NONE 0); NotifyAll] /\
       ~ In RemoveMonitor before /\ ~ In NotifyAll before) /\
    monitor w'
    = Some (mkSharedDataTimestamp
              (match region (data w) with
               | REGION_2 | REGION_NONE => REGION_1
               | REGION_1 => REGION_2
               end)
              (wrap32 (timestamp (data w) + 1))) /\
    (monitor w' = Some (mkSharedDataTimestamp REGION_1 1) <->
     region (data w) <> REGION_1 /\ wrap32 (timestamp (data w)) = 0).
Proof.
  intros Hwait Hlock Hl Href Hd.
  pose proof (Run_with_cases env refused populate_layout populate_data max_wait w)
    as Hrun.
  rewrite Hl in Hrun. cbv zeta in Hrun. rewrite Href in Hrun.
  fold (fresh_segment env layout) in Hd. rewrite Hd, Hlock in Hrun.
  apply Z.leb_le in Hwait. rewrite Hwait in Hrun.
  eexists. split; [exact Hrun |].
  assert (Hmon : monitor (published (recovered max_wait (prepared env w layout mem))
                            REGION_NONE
                            (mkSharedDataTimestamp (next_of (region (data w)))
                               (wrap32 (timestamp (data w) + 1))))
                 = Some (mkSharedDataTimestamp (next_of (region (data w)))
                           (wrap32 (timestamp (data w) + 1))))
    by (eapply monitor_published, monitor_recovered).
  split; [| split; [exact Hmon |]].
  - destruct (events_prepared_kinds env w layout mem) as [before [E Hkinds]].
    exists before. split.
    + rewrite (proj1 (published_NONE _ _)), events_recovered, E.
      rewrite <- !app_assoc. reflexivity.
    + rewrite Forall_forall in Hkinds.
      split; intros Hin; apply list_elem_of_In, Hkinds in Hin; exact Hin.
  - rewrite Hmon. split.
    + intros H. injection H as Hr Ht. apply wrap32_succ_one in Ht.
      split; [| exact Ht]. intros E. rewrite E in Hr. discriminate Hr.
    + intros [Hr Ht]. apply wrap32_succ_one in Ht. rewrite Ht.
      destruct (region (data w)); [| congruence |]; reflexivity.
Qed.

Lemma Run_recovers_stuck_monitor_witness :
  exists w',
    Run demo_abi demo_config stuck_env 2 (live_world 5) = Returned EXIT_SUCCESS w' /\
    monitor w' = Some (mkSharedDataTimestamp REGION_2 6).
Proof.
  assert (Hl : PopulateLayout demo_abi demo_config new_DataLayout
               = Ok (sized demo_abi demo_config)) by (vm_compute; reflexivity).
  assert (Hd : is_Ok (PopulateData demo_abi demo_config (sized demo_abi demo_config)
                        (ptr_add (shared_memory_ptr stuck_env) (sizeof_layout stuck_env))
                        (memcpy zero_memory (shared_memory_ptr stuck_env)
                           (layout_object stuck_env (sized demo_abi demo_config))
                           (sizeof_layout stuck_env)))
               = true) by (vm_compute; reflexivity).
  destruct (PopulateData demo_abi demo_config (sized demo_abi demo_config)
              (ptr_add (shared_memory_ptr stuck_env) (sizeof_layout stuck_env))
              (memcpy zero_memory (shared_memory_ptr stuck_env)
                 (layout_object stuck_env (sized demo_abi demo_config))
                 (sizeof_layout stuck_env)))
    as [[[] mem] |] eqn:E; [| discriminate Hd].
  destruct (Run_recovers_stuck_monitor stuck_env (fun _ => false)
              (PopulateLayout demo_abi demo_config) (PopulateData demo_abi demo_config)
              2 (live_world 5) (sized demo_abi demo_config) mem
              ltac:(lia) eq_refl Hl eq_refl E)
    as [w' [Hrun [_ [Hmon _]]]].
  exists w'. split; [exact Hrun | exact Hmon].
Defined.

(** C9 as stated fails when the monitor held a live region: from
    [{REGION_1, 5}] the recovery completes with [{REGION_2, 6}], not
    [{REGION_1, 1}]. *)
Lemma Run_stuck_monitor_keeps_counting :
  exists w',
    Run demo_abi demo_config stuck_env 2 (live_world 5) = Returned EXIT_SUCCESS w' /\
    monitor w' = Some (mkSharedDataTimestamp REGION_2 6) /\
    monitor w' <> Some (mkSharedDataTimestamp REGION_1 1).
Proof.
  assert (Hr : returned (Run demo_abi demo_config stuck_env 2 (live_world 5)) = true)
    by (vm_compute; reflexivity).
  apply returned_spec in Hr.
  exists (world_of (Run demo_abi demo_config stuck_env 2 (live_world 5))).
  split; [exact Hr |].
  assert (Hmon : monitor (world_of (Run demo_abi demo_config stuck_env 2 (live_world 5)))
                 = Some (mkSharedDataTimestamp REGION_2 6))
    by (vm_compute; reflexivity).
  split; [exact Hmon |]. rewrite Hmon. discriminate.
Qed.

(** C10: on the recovery path of a run that returns, the region [r] that was
    live before is left as it was and is neither opened, nor removed, nor
    waited on; on the path where the lock is acquired, a live region that
    exists is opened, removed and waited on at the end. *)
Theorem Run_old_region (abi : ABI) (config : StorageConfig) (env : Environment)
    (max_wait : Z) (w : World) (code : Z) (w' : World) :
  Run abi config env max_wait w = Returned code w' ->
  region (data w) <> REGION_NONE ->
  (lock_granted env = false ->
   regions w' (region (data w)) = regions w (region (data w)) /\
   exists new,
     events w' = events w ++ new /\
     ~ In (OpenRegion (region (data w))) new /\
     ~ In (RemoveRegion (region (data w))) new /\
     ~ In (WaitForDetach (region (data w))) new) /\
  (lock_granted env = true -> is_Some (regions w (region (data w))) ->
   regions w' (region (data w)) = None /\
   exists before,
     events w'
     = events w ++ before ++
       [NotifyAll; OpenRegion (region (data w)); RemoveRegion (region (data w));
        WaitForDetach (region (data w))]).
Proof.
  intros H Hr. apply Run_returned in H as [_ [layout [mem [_ H]]]]. cbv zeta in H.
  pose proof (next_of_differs _ Hr) as Hnext.
  destruct (events_prepared_kinds env w layout mem) as [before [E Hkinds]].
  split.
  - intros Hlock. destruct H as [[Hl _] | [_ [_ ->]]]; [congruence |].
    destruct (published_NONE (recovered max_wait (prepared env w layout mem))
                (mkSharedDataTimestamp (next_of (region (data w)))
                   (wrap32 (timestamp (data w) + 1)))) as [Hev Hreg].
    rewrite Hreg, regions_recovered, regions_prepared by congruence.
    split; [reflexivity |].
    exists (before ++ [LogWarning (CouldNotAquireLock max_wait); RemoveMonitor;
                       CreateMonitor (mkSharedDataTimestamp REGION_NONE 0);
                       NotifyAll]).
    split; [rewrite Hev, events_recovered, E, <- !app_assoc; reflexivity |].
    rewrite Forall_forall in Hkinds.
    repeat split; intros Hin; apply in_app_or in Hin as [Hin | Hin];
      try (apply list_elem_of_In, Hkinds in Hin; simpl in Hin; congruence);
      simpl in Hin; intuition discriminate.
  - intros Hlock Hex. destruct H as [[_ ->] | [Hl _]]; [| congruence].
    assert (Hex' : is_Some (regions (prepared env w layout mem) (region (data w))))
      by (rewrite regions_prepared by congruence; exact Hex).
    destruct (published_in_use (prepared env w layout mem) (region (data w))
                (mkSharedDataTimestamp (next_of (region (data w)))
                   (wrap32 (timestamp (data w) + 1))) Hr Hex') as [Hev Hreg].
    split; [exact Hreg |]. exists before. rewrite Hev, E, <- app_assoc. reflexivity.
Qed.

Lemma Run_old_region_witness :
  exists w',
    Run demo_abi demo_config stuck_env 2 (live_world 5) = Returned EXIT_SUCCESS w' /\
    region (data (live_world 5)) <> REGION_NONE /\
    regions w' REGION_1 = regions (live_world 5) REGION_1.
Proof.
  assert (Hr : returned (Run demo_abi demo_config stuck_env 2 (live_world 5)) = true)
    by (vm_compute; reflexivity).
  apply returned_spec in Hr.
  exists (world_of (Run demo_abi demo_config stuck_env 2 (live_world 5))).
  split; [exact Hr |]. split; [discriminate |].
  destruct (Run_old_region demo_abi demo_config stuck_env 2 (live_world 5)
              EXIT_SUCCESS _ Hr ltac:(discriminate)) as [Hstuck _].
  destruct (Hstuck eq_refl) as [Hreg _]. exact Hreg.
Defined.

(** * Shared memory and canaries *)

Lemma length_bytes_at mem src n : length (bytes_at mem src n) = n.
Proof. unfold bytes_at. rewrite length_map, length_seq. reflexivity. Qed.

Lemma nth_bytes_at mem src n j :
  (j < n)%nat -> nth j (bytes_at mem src n) zero = mem (src + Z.of_nat j).
Proof.
  intros Hj. unfold bytes_at.
  rewrite (nth_indep _ zero (mem (src + Z.of_nat 0)))
    by (rewrite length_map, length_seq; exact Hj).
  rewrite (map_nth (fun j => mem (src + Z.of_nat j))), seq_nth by exact Hj.
  reflexivity.
Qed.

(** Reading depends on the bytes read only. *)
Lemma bytes_at_ext mem mem' src n :
  (forall a, src <= a < src + Z.of_nat n -> mem a = mem' a) ->
  bytes_at mem src n = bytes_at mem' src n.
Proof.
  intros H. unfold bytes_at. apply map_ext_in. intros j Hj.
  apply in_seq in Hj. apply H. lia.
Qed.

Lemma copy_to_inside mem dest data j :
  (j < length data)%nat -> copy_to mem dest data (dest + Z.of_nat j) = nth j data zero.
Proof.
  intros Hj. unfold copy_to.
  replace ((dest <=? dest + Z.of_nat j)
           && (dest + Z.of_nat j <? dest + Z.of_nat (length data))) with true
    by (symmetry; apply andb_true_intro; split; [apply Z.leb_le | apply Z.ltb_lt]; lia).
  f_equal. lia.
Qed.

Lemma copy_to_outside mem dest data a :
  a < dest \/ dest + Z.of_nat (length data) <= a -> copy_to mem dest data a = mem a.
Proof.
  intros Ha. unfold copy_to.
  destruct (Z.leb_spec dest a); destruct (Z.ltb_spec a (dest + Z.of_nat (length data)));
    simpl; try reflexivity; lia.
Qed.

Lemma read_to_outside mem dest n data a :
  a < dest \/ dest + n <= a -> read_to mem dest n data a = mem a.
Proof.
  intros Ha. unfold read_to.
  destruct (Z.leb_spec dest a); destruct (Z.ltb_spec a (dest + n));
    simpl; try reflexivity; lia.
Qed.

(** What [std::copy] has written is what is read back. *)
Lemma bytes_at_copy_to mem dest data :
  bytes_at (copy_to mem dest data) dest (length data) = data.
Proof.
  apply (nth_ext _ _ zero zero).
  - apply length_bytes_at.
  - intros j Hj. rewrite length_bytes_at in Hj.
    rewrite nth_bytes_at by exact Hj. apply copy_to_inside. exact Hj.
Qed.

Lemma canary_alive_spec mem ptr :
  canary_alive mem ptr = true <-> bytes_at mem ptr (length CANARY) = CANARY.
Proof. unfold canary_alive. apply bool_decide_eq_true. Qed.

Lemma canary_alive_ext mem mem' ptr :
  (forall a, ptr <= a < ptr + sizeof_CANARY -> mem a = mem' a) ->
  canary_alive mem' ptr = canary_alive mem ptr.
Proof.
  intros H. unfold canary_alive.
  rewrite (bytes_at_ext mem mem' ptr (length CANARY)); [reflexivity |].
  intros a Ha. apply H. unfold sizeof_CANARY. exact Ha.
Qed.

(** Inside the address space the canary pointers are the plain sums. *)
Lemma canary_ptrs ptr size :
  sizeof_CANARY <= ptr -> 0 <= size -> ptr + size < 2 ^ 64 ->
  ptr_add ptr (- sizeof_CANARY) = ptr - sizeof_CANARY /\
  ptr_add ptr size = ptr + size.
Proof.
  intros Hp Hs Hfit. unfold ptr_add. rewrite sizeof_CANARY_eq in *.
  split; apply wrap64_small; lia.
Qed.

(** What [GetBlockPtr<T, true>] leaves in memory when the block with its
    start canary lies inside the address space: the pointer of
    [GetAlignedBlockPtr], the canary in front of the payload and the canary
    behind it, and every other byte as it was. *)
Lemma GetBlockPtr_write_spec layout base bid mem :
  sizeof_CANARY <= GetAlignedBlockPtr layout base bid ->
  0 <= GetBlockSize layout bid ->
  GetAlignedBlockPtr layout base bid + GetBlockSize layout bid < 2 ^ 64 ->
  exists mem',
    GetBlockPtr true layout base bid mem
    = Ok (GetAlignedBlockPtr layout base bid, mem') /\
    bytes_at mem' (GetAlignedBlockPtr layout base bid - sizeof_CANARY) (length CANARY)
    = CANARY /\
    bytes_at mem' (GetAlignedBlockPtr layout base bid + GetBlockSize layout bid)
      (length CANARY) = CANARY /\
    forall a,
      a < GetAlignedBlockPtr layout base bid - sizeof_CANARY \/
      GetAlignedBlockPtr layout base bid <= a
        < GetAlignedBlockPtr layout base bid + GetBlockSize layout bid \/
      GetAlignedBlockPtr layout base bid + GetBlockSize layout bid + sizeof_CANARY <= a ->
      mem' a = mem a.
Proof.
  intros Hptr Hsize Hfit. unfold GetBlockPtr. cbv zeta.
  destruct (canary_ptrs _ _ Hptr Hsize Hfit) as [-> ->].
  set (ptr := GetAlignedBlockPtr layout base bid).
  eexists. split; [reflexivity |]. split; [| split].
  - rewrite (bytes_at_ext _ (copy_to mem (ptr - sizeof_CANARY) CANARY)).
    + apply bytes_at_copy_to.
    + intros a Ha. apply copy_to_outside. fold sizeof_CANARY in *. lia.
  - apply bytes_at_copy_to.
  - intros a Ha. rewrite !copy_to_outside; [reflexivity | |];
      fold sizeof_CANARY; rewrite ?sizeof_CANARY_eq in *; lia.
Qed.

(** What [GetBlockPtr<T, false>] checks, for such a block. *)
Lemma GetBlockPtr_check_spec layout base bid mem :
  sizeof_CANARY <= GetAlignedBlockPtr layout base bid ->
  0 <= GetBlockSize layout bid ->
  GetAlignedBlockPtr layout base bid + GetBlockSize layout bid < 2 ^ 64 ->
  GetBlockPtr false layout base bid mem
  = if negb (canary_alive mem (GetAlignedBlockPtr layout base bid - sizeof_CANARY))
    then Throw (CanaryCorrupt StartCanary bid)
    else if negb (canary_alive mem
                    (GetAlignedBlockPtr layout base bid + GetBlockSize layout bid))
         then Throw (CanaryCorrupt EndCanary bid)
         else Ok (GetAlignedBlockPtr layout base bid, mem).
Proof.
  intros Hptr Hsize Hfit. unfold GetBlockPtr. cbv zeta.
  destruct (canary_ptrs _ _ Hptr Hsize Hfit) as [-> ->]. reflexivity.
Qed.

(** * Canaries after the populate pass *)

Section Canaries.

Variable abi : ABI.
Variable config : StorageConfig.
Variable layout : DataLayout.
Variable base : Z.

Hypothesis layout_sized : layout_ok layout = true.
Hypothesis base_nonneg : 0 <= base.
Hypothesis region_fits : base + size_sum layout < 2 ^ 64.


Lemma block_size_nonneg i : (i < NUM_BLOCKS)%nat -> 0 <= GetBlockSize layout i.
Proof.
  intros Hi. unfold GetBlockSize.
  destruct (block_ok_spec _ (layout_ok_lookup layout i layout_sized Hi)) as [H _].
  lia.
Qed.

(** Inside the address space the payload pointers are the exact
    positions. *)
Lemma payload_ptr_exact i :
  (i < NUM_BLOCKS)%nat ->
  GetAlignedBlockPtr layout base i = payloadZ (take i (blocks layout)) (blocks layout !!! i) base.
Proof.
  intros Hi. rewrite GetAlignedBlockPtr_payloadZ by assumption.
  apply wrap64_small.
  pose proof (payloadZ_range layout base i layout_sized Hi).
  rewrite sizeof_CANARY_eq in *. lia.
Qed.

(** The room of a block, canaries included, lies inside the room of the
    layout. *)
Lemma block_room i :
  (i < NUM_BLOCKS)%nat ->
  base <= GetAlignedBlockPtr layout base i - sizeof_CANARY /\
  GetAlignedBlockPtr layout base i + GetBlockSize layout i + sizeof_CANARY
  <= base + size_sum layout.
Proof.
  intros Hi. pose proof (layout_ok_spec layout layout_sized) as [Hlen Hall].
  rewrite (payload_ptr_exact i Hi).
  pose proof (payloadZ_range layout base i layout_sized Hi) as Hr.
  split; [lia |].
  destruct (lookup_lt_is_Some_2 (blocks layout) i ltac:(lia)) as [b Hb].
  pose proof (take_drop (S i) (blocks layout)) as Hsplit.
  assert (Hsum : size_sum layout
                 = bound_sum (take (S i) (blocks layout))
                   + bound_sum (drop (S i) (blocks layout))).
  { unfold size_sum. rewrite <- Hsplit at 1. apply bound_sum_app. }
  pose proof (bound_sum_nonneg _ (Forall_drop _ (S i) _ Hall)) as Hrest.
  pose proof (endZ_bounds _ (Forall_take _ (S i) _ Hall) base) as Hend.
  rewrite (take_S_r _ _ _ Hb), endZ_snoc in Hend. unfold skipZ in Hend.
  rewrite (list_lookup_total_correct _ _ _ Hb). unfold payloadZ, GetBlockSize.
  rewrite (list_lookup_total_correct _ _ _ Hb), sizeof_CANARY_eq.
  rewrite (take_S_r _ _ _ Hb) in Hsum. lia.
Qed.

(** So the canary pointers of a block do not wrap around. *)
Lemma block_in_address_space i :
  (i < NUM_BLOCKS)%nat ->
  sizeof_CANARY <= GetAlignedBlockPtr layout base i /\
  0 <= GetBlockSize layout i /\
  GetAlignedBlockPtr layout base i + GetBlockSize layout i < 2 ^ 64.
Proof.
  intros Hi. pose proof (block_room i Hi). pose proof (block_size_nonneg i Hi).
  rewrite sizeof_CANARY_eq in *. lia.
Qed.

Lemma GetBlockPtr_write_in_region bid mem :
  (bid < NUM_BLOCKS)%nat ->
  exists mem',
    GetBlockPtr true layout base bid mem
    = Ok (GetAlignedBlockPtr layout base bid, mem') /\
    bytes_at mem' (GetAlignedBlockPtr layout base bid - sizeof_CANARY) (length CANARY)
    = CANARY /\
    bytes_at mem' (GetAlignedBlockPtr layout base bid + GetBlockSize layout bid)
      (length CANARY) = CANARY /\
    forall a,
      a < GetAlignedBlockPtr layout base bid - sizeof_CANARY \/
      GetAlignedBlockPtr layout base bid <= a
        < GetAlignedBlockPtr layout base bid + GetBlockSize layout bid \/
      GetAlignedBlockPtr layout base bid + GetBlockSize layout bid + sizeof_CANARY <= a ->
      mem' a = mem a.
Proof.
  intros Hbid. destruct (block_in_address_space bid Hbid) as [H1 [H2 H3]].
  apply GetBlockPtr_write_spec; assumption.
Qed.

Lemma GetBlockPtr_check_in_region bid mem :
  (bid < NUM_BLOCKS)%nat ->
  GetBlockPtr false layout base bid mem
  = if negb (canary_alive mem (GetAlignedBlockPtr layout base bid - sizeof_CANARY))
    then Throw (CanaryCorrupt StartCanary bid)
    else if negb (canary_alive mem
                    (GetAlignedBlockPtr layout base bid + GetBlockSize layout bid))
         then Throw (CanaryCorrupt EndCanary bid)
         else Ok (GetAlignedBlockPtr layout base bid, mem).
Proof.
  intros Hbid. destruct (block_in_address_space bid Hbid) as [H1 [H2 H3]].
  apply GetBlockPtr_check_spec; assumption.
Qed.

(** Blocks lie behind one another: a later payload starts behind the end
    canary of an earlier block, with room for its own start canary. *)
Lemma blocks_in_order i j :
  (i < j)%nat -> (j < NUM_BLOCKS)%nat ->
  GetAlignedBlockPtr layout base i + GetBlockSize layout i + 2 * sizeof_CANARY <= GetAlignedBlockPtr layout base j.
Proof.
  intros Hij Hj. induction j as [| j IH]; [lia |].
  pose proof (payloadZ_next layout base j layout_sized Hj) as Hnext.
  rewrite <- !payload_ptr_exact in Hnext by lia. fold (GetBlockSize layout j) in Hnext.
  destruct (decide (i = j)) as [-> | Hne]; [exact Hnext |].
  specialize (IH ltac:(lia) ltac:(lia)).
  pose proof (block_size_nonneg j ltac:(lia)). pose proof (block_size_nonneg i ltac:(lia)).
  rewrite sizeof_CANARY_eq in *. lia.
Qed.

(** A write into the payload of one block leaves every canary alone. *)
Lemma canaries_alive_payload_write bid mem mem' k :
  (bid < NUM_BLOCKS)%nat -> (k < NUM_BLOCKS)%nat ->
  (forall a, a < GetAlignedBlockPtr layout base bid \/ GetAlignedBlockPtr layout base bid + GetBlockSize layout bid <= a -> mem' a = mem a) ->
  canaries_alive layout base mem' k = canaries_alive layout base mem k.
Proof.
  intros Hbid Hk Hout. unfold canaries_alive. cbv zeta.
  pose proof (block_size_nonneg k Hk) as Hsk.
  pose proof (block_size_nonneg bid Hbid) as Hsb.
  assert (Hcases : k = bid \/
                   GetAlignedBlockPtr layout base k + GetBlockSize layout k + 2 * sizeof_CANARY <= GetAlignedBlockPtr layout base bid \/
                   GetAlignedBlockPtr layout base bid + GetBlockSize layout bid + 2 * sizeof_CANARY <= GetAlignedBlockPtr layout base k).
  { destruct (Nat.lt_trichotomy k bid) as [Hlt | [Heq | Hgt]].
    - right; left. apply blocks_in_order; assumption.
    - left. exact Heq.
    - right; right. apply blocks_in_order; assumption. }
  rewrite sizeof_CANARY_eq in *.
  f_equal; apply canary_alive_ext; intros a Ha; symmetry; apply Hout;
    rewrite sizeof_CANARY_eq in Ha; destruct Hcases as [-> | [H | H]]; lia.
Qed.

(** Stamping one block leaves the canaries of the others alone. *)
Lemma canaries_alive_stamp_other bid mem mem' k :
  (bid < NUM_BLOCKS)%nat -> (k < NUM_BLOCKS)%nat -> k <> bid ->
  (forall a,
     a < GetAlignedBlockPtr layout base bid - sizeof_CANARY \/
     GetAlignedBlockPtr layout base bid <= a < GetAlignedBlockPtr layout base bid + GetBlockSize layout bid \/
     GetAlignedBlockPtr layout base bid + GetBlockSize layout bid + sizeof_CANARY <= a -> mem' a = mem a) ->
  canaries_alive layout base mem' k = canaries_alive layout base mem k.
Proof.
  intros Hbid Hk Hne Hout. unfold canaries_alive. cbv zeta.
  pose proof (block_size_nonneg k Hk) as Hsk.
  pose proof (block_size_nonneg bid Hbid) as Hsb.
  assert (Hcases : GetAlignedBlockPtr layout base k + GetBlockSize layout k + 2 * sizeof_CANARY <= GetAlignedBlockPtr layout base bid \/
                   GetAlignedBlockPtr layout base bid + GetBlockSize layout bid + 2 * sizeof_CANARY <= GetAlignedBlockPtr layout base k).
  { destruct (Nat.lt_trichotomy k bid) as [Hlt | [Heq | Hgt]]; [| contradiction |].
    - left. apply blocks_in_order; assumption.
    - right. apply blocks_in_order; assumption. }
  rewrite sizeof_CANARY_eq in *.
  f_equal; apply canary_alive_ext; intros a Ha; symmetry; apply Hout;
    rewrite sizeof_CANARY_eq in Ha; destruct Hcases as [H | H]; lia.
Qed.

(** ** The rules *)

Lemma triple_ret {A} (v : A) S : triple layout base S (ret v) v S.
Proof. intros mem H. unfold ret. split; [reflexivity | exact H]. Qed.

Lemma triple_bind {A B} (m : Mem A) (k : A -> Mem B) S v S1 v' S2 :
  triple layout base S m v S1 -> triple layout base S1 (k v) v' S2 -> triple layout base S (bind m k) v' S2.
Proof.
  intros Hm Hk mem H. unfold bind. specialize (Hm mem H).
  destruct (m mem) as [[a mem1] | e]; [| exact I].
  destruct Hm as [-> H1]. apply Hk. exact H1.
Qed.

Lemma triple_throw {A} e S (v : A) S' : triple layout base S (throw e) v S'.
Proof. intros mem H. exact I. Qed.

Lemma triple_block_ptr S bid :
  (bid < NUM_BLOCKS)%nat ->
  triple layout base S (block_ptr layout base bid) (GetAlignedBlockPtr layout base bid) (bid :: S).
Proof.
  intros Hbid mem H. unfold block_ptr.
  destruct (GetBlockPtr_write_in_region bid mem Hbid)
    as [mem' [-> [Hstart [Hend Hout]]]].
  split; [reflexivity |]. constructor.
  - split; [exact Hbid |]. unfold canaries_alive. cbv zeta.
    apply andb_true_intro. split; apply canary_alive_spec; assumption.
  - unfold stamped in *. rewrite Forall_forall in *. intros k Hin.
    destruct (H k Hin) as [Hk Halive]. split; [exact Hk |].
    destruct (decide (k = bid)) as [-> | Hne].
    + unfold canaries_alive. cbv zeta.
      apply andb_true_intro. split; apply canary_alive_spec; assumption.
    + rewrite (canaries_alive_stamp_other bid mem mem' k); assumption.
Qed.

(** Code that writes into the payload of a block only. *)
Lemma triple_modify_payload S bid f :
  (bid < NUM_BLOCKS)%nat ->
  (forall mem a, a < GetAlignedBlockPtr layout base bid \/ GetAlignedBlockPtr layout base bid + GetBlockSize layout bid <= a -> f mem a = mem a) ->
  triple layout base S (modify f) tt S.
Proof.
  intros Hbid Hf mem H. unfold modify. split; [reflexivity |].
  unfold stamped in *. rewrite Forall_forall in *. intros k Hin.
  destruct (H k Hin) as [Hk Halive]. split; [exact Hk |].
  rewrite (canaries_alive_payload_write bid mem (f mem) k); auto.
Qed.

Lemma triple_read_view S bid :
  (bid < NUM_BLOCKS)%nat ->
  triple layout base S (read_view config layout bid (GetAlignedBlockPtr layout base bid)) tt S.
Proof.
  intros Hbid. apply (triple_modify_payload S bid); [exact Hbid |].
  intros mem a Ha. apply read_to_outside. exact Ha.
Qed.

Lemma triple_ReadInto S T bid count :
  (bid < NUM_BLOCKS)%nat ->
  wrap64 (sizeof (abi T) * count) <= GetBlockSize layout bid ->
  triple layout base S (ReadInto abi config T bid (GetAlignedBlockPtr layout base bid) count) tt S.
Proof.
  intros Hbid Hle. apply (triple_modify_payload S bid); [exact Hbid |].
  intros mem a Ha. apply read_to_outside. lia.
Qed.

Lemma triple_check S (b : bool) e : triple layout base S (if b then throw e else ret tt) tt S.
Proof. destruct b; [apply triple_throw | apply triple_ret]. Qed.

End Canaries.

(** ** The sizing pass and the reads of the populate pass *)

Section ReadSizes.

Variable abi : ABI.
Variable config : StorageConfig.

Lemma set_blocks_other l id0 first last blk i :
  (i < id0 \/ id0 + last <= i)%nat ->
  blocks (set_blocks l id0 first last blk) !!! i = blocks l !!! i.
Proof.
  intros Hi. unfold set_blocks, irange.
  destruct (Nat.le_gt_cases last first) as [Hle | Hlt].
  { replace (last - first)%nat with 0%nat by lia. reflexivity. }
  assert (Hn : (first + (last - first) <= last)%nat) by lia.
  revert Hn. generalize (last - first)%nat as n. intros n. revert l first Hlt.
  induction n as [| n IH]; intros l first Hlt Hn; simpl; [reflexivity |].
  destruct n as [| n'].
  - simpl. apply SetBlock_other. lia.
  - rewrite IH by lia. apply SetBlock_other. lia.
Qed.

Lemma layout_hsgr_length l l' :
  layout_hsgr abi config l = Ok l' -> length (blocks l') = length (blocks l).
Proof.
  unfold layout_hsgr. intros H. destruct (hsgr config) as [reader |].
  - destruct (NUM_METRICS <? hsgr_num_metrics reader); [discriminate H |].
    injection H as <-. rewrite !set_blocks_length, !SetBlock_length. reflexivity.
  - injection H as <-. rewrite !set_blocks_length, !SetBlock_length. reflexivity.
Qed.

Lemma layout_hsgr_frame l l' i :
  layout_hsgr abi config l = Ok l' ->
  (i < CH_GRAPH_NODE_LIST \/ CH_EDGE_FILTER_7 < i)%nat -> i <> HSGR_CHECKSUM ->
  blocks l' !!! i = blocks l !!! i.
Proof.
  unfold CH_GRAPH_NODE_LIST, CH_EDGE_FILTER_7, HSGR_CHECKSUM.
  unfold layout_hsgr. intros H Hi Hne. destruct (hsgr config) as [reader |].
  - destruct (NUM_METRICS <? hsgr_num_metrics reader) eqn:E; [discriminate H |].
    apply Z.ltb_ge in E. unfold NUM_METRICS in E.
    injection H as <-.
    rewrite !set_blocks_other by (unfold CH_EDGE_FILTER_0, NUM_METRICS; lia).
    repeat (rewrite SetBlock_other; [| compute; lia]). reflexivity.
  - injection H as <-.
    rewrite !set_blocks_other by (unfold CH_EDGE_FILTER_0, NUM_METRICS; lia).
    repeat (rewrite SetBlock_other; [| compute; lia]). reflexivity.
Qed.

Lemma layout_middle_length l :
  length (blocks (layout_middle abi config l)) = length (blocks l).
Proof. unfold layout_middle. rewrite !SetBlock_length. reflexivity. Qed.

(** A block that a chain of [SetBlock]s sets once. *)
Ltac lookup_set :=
  repeat (rewrite SetBlock_other; [| compute; lia]);
  rewrite SetBlock_same; [reflexivity |].

Lemma PopulateLayout_read_blocks layout :
  PopulateLayout abi config new_DataLayout = Ok layout ->
  blocks layout !!! NAME_CHAR_DATA = block_of abi T_char (name_file_size config) /\
  blocks layout !!! TURN_LANE_DATA
  = block_of abi T_LaneTupleIdPair (lane_tuple_count config) /\
  blocks layout !!! TURN_WEIGHT_PENALTIES
  = block_of abi T_TurnPenalty (number_of_weight_penalties config) /\
  blocks layout !!! TURN_DURATION_PENALTIES
  = block_of abi T_TurnPenalty (number_of_duration_penalties config) /\
  blocks layout !!! TIMESTAMP = block_of abi T_char (timestamp_size config) /\
  blocks layout !!! R_SEARCH_TREE = block_of abi T_RTreeNode (tree_size config) /\
  blocks layout !!! R_SEARCH_TREE_LEVELS
  = block_of abi T_uint64 (tree_levels_size config).
Proof.
  unfold PopulateLayout. intros H.
  destruct (layout_hsgr abi config (layout_front abi config new_DataLayout))
    as [l1 |] eqn:E1; [| discriminate H].
  destruct (layout_cell_metrics abi config _) as [l2 |] eqn:E2; [| discriminate H].
  injection H as <-.
  assert (Hlen1 : length (blocks l1) = NUM_BLOCKS)
    by (rewrite (layout_hsgr_length _ _ E1), layout_front_length; reflexivity).
  assert (Hlate : forall i, (i < MLD_LEVEL_DATA)%nat ->
            blocks (layout_mldgr abi config l2) !!! i
            = blocks (layout_middle abi config l1) !!! i).
  { intros i Hi. rewrite layout_mldgr_frame by exact Hi.
    rewrite (layout_cell_metrics_frame abi config _ l2 _ E2) by exact Hi.
    rewrite layout_cells_frame, layout_partition_frame by exact Hi. reflexivity. }
  repeat split; rewrite Hlate by (compute; lia).
  - unfold layout_middle. repeat (rewrite SetBlock_other; [| compute; lia]).
    rewrite (layout_hsgr_frame _ _ _ E1) by (compute; lia).
    unfold layout_front. lookup_set. rewrite !SetBlock_length. compute. lia.
  - unfold layout_middle. lookup_set. rewrite ?SetBlock_length, Hlen1. compute. lia.
  - unfold layout_middle. lookup_set. rewrite ?SetBlock_length, Hlen1. compute. lia.
  - unfold layout_middle. lookup_set. rewrite ?SetBlock_length, Hlen1. compute. lia.
  - unfold layout_middle. lookup_set. rewrite ?SetBlock_length, Hlen1. compute. lia.
  - unfold layout_middle. lookup_set. rewrite ?SetBlock_length, Hlen1. compute. lia.
  - unfold layout_middle. lookup_set. rewrite ?SetBlock_length, Hlen1. compute. lia.
Qed.

(** The layout of the sizing pass gives every [ReadInto] of the populate
    pass a block of just its length. *)
Lemma PopulateLayout_reads_fit layout :
  PopulateLayout abi config new_DataLayout = Ok layout ->
  Z.of_nat (length (absolute_file_index_path config))
    <= GetBlockSize layout FILE_INDEX_PATH ->
  reads_fit abi config layout.
Proof.
  intros H Hpath.
  destruct (PopulateLayout_read_blocks layout H)
    as [H1 [H2 [H3 [H4 [H5 [H6 H7]]]]]].
  unfold reads_fit, GetBlockSize, GetBlockEntries.
  rewrite H1, H2, H3, H4, H5, H6, H7. simpl.
  repeat split; try apply Z.le_refl. exact Hpath.
Qed.

End ReadSizes.

(** ** The parts of the populate pass *)

Section PopulateCanaries.

Variable abi : ABI.
Variable config : StorageConfig.
Variable layout : DataLayout.
Variable base : Z.

Hypothesis layout_sized : layout_ok layout = true.
Hypothesis base_nonneg : 0 <= base.
Hypothesis region_fits : base + size_sum layout < 2 ^ 64.
Hypothesis reads : reads_fit abi config layout.


Ltac bid_lt := apply Nat.ltb_lt; vm_compute; reflexivity.

(** One syntax-directed step of a derivation: the rule for the code at the
    head of the goal. *)
Ltac triple_step :=
  cbv beta zeta; cbn [for_each nth fst snd];
  lazymatch goal with
  | |- triple _ _ _ (bind _ _) _ _ => eapply triple_bind
  | |- triple _ _ _ (block_ptr _ _ _) _ _ =>
      apply (triple_block_ptr layout base layout_sized base_nonneg region_fits);
      bid_lt
  | |- triple _ _ _ (read_view _ _ _ _) _ _ =>
      apply (triple_read_view config layout base layout_sized base_nonneg region_fits);
      bid_lt
  | |- triple _ _ _ (ReadInto _ _ _ _ _ _) _ _ =>
      apply (triple_ReadInto abi config layout base layout_sized base_nonneg
               region_fits);
      [bid_lt | apply reads]
  | |- triple _ _ _ (ret _) _ _ => apply triple_ret
  | |- triple _ _ _ (if _ then throw _ else ret tt) _ _ => apply triple_check
  end.

Ltac derive := repeat triple_step.

Lemma triple_file_index_path S :
  triple layout base S (file_index_path config layout base) tt (FILE_INDEX_PATH :: S).
Proof.
  unfold file_index_path. triple_step; [triple_step |]. cbv beta.
  eapply triple_bind; [| cbv beta].
  - apply (triple_modify_payload layout base layout_sized base_nonneg region_fits
             _ FILE_INDEX_PATH); [bid_lt |].
    intros mem a Ha. apply read_to_outside. exact Ha.
  - apply (triple_modify_payload layout base layout_sized base_nonneg region_fits
             _ FILE_INDEX_PATH); [bid_lt |].
    intros mem a Ha. apply copy_to_outside.
    destruct reads as [Hpath _]. lia.
Qed.

Lemma triple_name_data S :
  triple layout base S (name_data abi config layout base) tt (NAME_CHAR_DATA :: S).
Proof. unfold name_data. derive. Qed.

Lemma triple_turn_lane_data S :
  triple layout base S (turn_lane_data abi config layout base) tt (TURN_LANE_DATA :: S).
Proof. unfold turn_lane_data. derive. Qed.

Lemma triple_turn_lane_descriptions S :
  triple layout base S (turn_lane_descriptions config layout base) tt
    (LANE_DESCRIPTION_MASKS :: LANE_DESCRIPTION_OFFSETS :: S).
Proof. unfold turn_lane_descriptions. derive. Qed.

Lemma triple_edge_based_nodes_data S :
  triple layout base S (edge_based_nodes_data config layout base) tt
    (ANNOTATION_DATA_LIST :: EDGE_BASED_NODE_DATA_LIST :: S).
Proof. unfold edge_based_nodes_data. derive. Qed.

Lemma triple_original_edge_data S :
  triple layout base S (original_edge_data config layout base)
    (edges_connectivity_checksum config)
    (POST_TURN_BEARING :: PRE_TURN_BEARING :: ENTRY_CLASSID :: TURN_INSTRUCTION
       :: LANE_DATA_ID :: S).
Proof. unfold original_edge_data. derive. Qed.

Lemma triple_compressed_geometry S :
  triple layout base S (compressed_geometry config layout base) tt
    (GEOMETRIES_REV_DATASOURCES_LIST :: GEOMETRIES_FWD_DATASOURCES_LIST
       :: GEOMETRIES_REV_DURATION_LIST :: GEOMETRIES_FWD_DURATION_LIST
       :: GEOMETRIES_REV_WEIGHT_LIST :: GEOMETRIES_FWD_WEIGHT_LIST
       :: GEOMETRIES_NODE_LIST :: GEOMETRIES_INDEX :: S).
Proof. unfold compressed_geometry. derive. Qed.

Lemma triple_datasources_names S :
  triple layout base S (datasources_names config layout base) tt
    (DATASOURCES_NAMES :: S).
Proof. unfold datasources_names. derive. Qed.

Lemma triple_coordinates S :
  triple layout base S (coordinates config layout base) tt
    (OSM_NODE_ID_LIST :: COORDINATE_LIST :: S).
Proof. unfold coordinates. derive. Qed.

Lemma triple_turn_weight_penalties S :
  triple layout base S (turn_weight_penalties abi config layout base) tt
    (TURN_WEIGHT_PENALTIES :: S).
Proof. unfold turn_weight_penalties. derive. Qed.

Lemma triple_turn_duration_penalties S :
  triple layout base S (turn_duration_penalties abi config layout base) tt
    (TURN_DURATION_PENALTIES :: S).
Proof. unfold turn_duration_penalties. derive. Qed.

Lemma triple_store_timestamp S :
  triple layout base S (store_timestamp abi config layout base) tt (TIMESTAMP :: S).
Proof. unfold store_timestamp. derive. Qed.

Lemma triple_search_tree S :
  triple layout base S (search_tree abi config layout base) tt
    (R_SEARCH_TREE_LEVELS :: R_SEARCH_TREE :: S).
Proof. unfold search_tree. derive. Qed.

Lemma triple_profile_properties S :
  triple layout base S (profile_properties config layout base) tt (PROPERTIES :: S).
Proof. unfold profile_properties. derive. Qed.

Lemma triple_intersection_data S :
  triple layout base S (intersection_data config layout base) tt
    (ENTRY_CLASS :: BEARING_BLOCKS :: BEARING_OFFSETS :: BEARING_VALUES
       :: BEARING_CLASSID :: S).
Proof. unfold intersection_data. derive. Qed.

Lemma triple_hsgr_file S turns :
  triple layout base S (hsgr_file config layout base turns) tt
    (hsgr_blocks config ++ S).
Proof.
  unfold hsgr_file, hsgr_blocks. destruct (hsgr config) as [file |].
  - change (irange 0 (Z.to_nat NUM_METRICS)) with [0; 1; 2; 3; 4; 5; 6; 7]%nat.
    derive.
  - derive.
Qed.

Lemma triple_mld_partition S :
  triple layout base S (mld_partition config layout base) tt
    (partition_blocks config ++ S).
Proof.
  unfold mld_partition, partition_blocks. destruct (partition config); derive.
Qed.

Lemma triple_mld_cells S :
  triple layout base S (mld_cells config layout base) tt (cells_blocks config ++ S).
Proof. unfold mld_cells, cells_blocks. destruct (cells config); derive. Qed.

Lemma triple_mld_cell_metrics S :
  triple layout base S (mld_cell_metrics config layout base) tt
    (cell_metrics_blocks config ++ S).
Proof.
  unfold mld_cell_metrics, cell_metrics_blocks. destruct (cell_metrics config).
  - change (irange 0 (Z.to_nat NUM_METRICS)) with [0; 1; 2; 3; 4; 5; 6; 7]%nat.
    derive.
  - derive.
Qed.

Lemma triple_mld_graph S turns :
  triple layout base S (mld_graph config layout base turns) tt
    (mldgr_blocks config ++ S).
Proof. unfold mld_graph, mldgr_blocks. destruct (mldgr config); derive. Qed.

Lemma triple_maneuver_overrides S :
  triple layout base S (maneuver_overrides config layout base) tt
    (MANEUVER_OVERRIDE_NODE_SEQUENCES :: MANEUVER_OVERRIDES :: S).
Proof. unfold maneuver_overrides. derive. Qed.

(** The populate pass stamps every block it takes a pointer to, and no later
    write undoes a stamp. *)
Lemma triple_PopulateData :
  triple layout base [] (PopulateData abi config layout base) tt
    (stamped_blocks config).
Proof.
  unfold PopulateData, stamped_blocks, mandatory_blocks.
  eapply triple_bind; [apply triple_file_index_path |].
  eapply triple_bind; [apply triple_name_data |].
  eapply triple_bind; [apply triple_turn_lane_data |].
  eapply triple_bind; [apply triple_turn_lane_descriptions |].
  eapply triple_bind; [apply triple_edge_based_nodes_data |].
  eapply triple_bind; [apply triple_original_edge_data |].
  eapply triple_bind; [apply triple_compressed_geometry |].
  eapply triple_bind; [apply triple_datasources_names |].
  eapply triple_bind; [apply triple_coordinates |].
  eapply triple_bind; [apply triple_turn_weight_penalties |].
  eapply triple_bind; [apply triple_turn_duration_penalties |].
  eapply triple_bind; [apply triple_store_timestamp |].
  eapply triple_bind; [apply triple_search_tree |].
  eapply triple_bind; [apply triple_profile_properties |].
  eapply triple_bind; [apply triple_intersection_data |].
  eapply triple_bind; [apply triple_hsgr_file |].
  eapply triple_bind; [apply triple_mld_partition |].
  eapply triple_bind; [apply triple_mld_cells |].
  eapply triple_bind; [apply triple_mld_cell_metrics |].
  eapply triple_bind; [apply triple_mld_graph |].
  apply triple_maneuver_overrides.
Qed.

End PopulateCanaries.

(** ** After the populate pass *)

Lemma covers_all (L : list BlockID) :
  forallb (fun i => existsb (Nat.eqb i) L) (seq 0 NUM_BLOCKS) = true ->
  forall bid, (bid < NUM_BLOCKS)%nat -> In bid L.
Proof.
  intros H bid Hbid. rewrite forallb_forall in H.
  specialize (H bid ltac:(apply in_seq; lia)).
  apply existsb_exists in H as [x [Hin Heq]].
  apply Nat.eqb_eq in Heq. subst. exact Hin.
Qed.

Lemma all_inputs_stamped config :
  all_inputs config = true ->
  forall bid, (bid < NUM_BLOCKS)%nat -> In bid (stamped_blocks config).
Proof.
  unfold all_inputs. intros H.
  repeat (apply andb_prop in H as [H ?]).
  repeat match goal with
         | H : bool_decide (is_Some _) = true |- _ =>
             apply bool_decide_eq_true in H; destruct H as [? H]
         end.
  apply covers_all.
  unfold stamped_blocks, mldgr_blocks, cell_metrics_blocks, cells_blocks,
    partition_blocks, hsgr_blocks.
  repeat match goal with H : _ = Some _ |- _ => rewrite H; clear H end.
  vm_compute. reflexivity.
Qed.

Lemma Ok_memory_of {A} (r : result (A * Memory)) (a : A) :
  is_Ok r = true -> (forall a' : A, a' = a) -> r = Ok (a, memory_of r).
Proof.
  destruct r as [[a' mem] |]; simpl; [| discriminate].
  intros _ H. rewrite (H a'). reflexivity.
Qed.

(** C3 (as amended): after the populate pass completes on a region that
    lies within the address space, with the layout that the sizing pass
    computed for the same inputs, both canaries are in place for every block
    that the pass takes a pointer to: the blocks of the mandatory inputs
    (also those without entries), [HSGR_CHECKSUM], [CH_GRAPH_NODE_LIST] and
    [CH_GRAPH_EDGE_LIST] in any case, the eight CH edge filters when
    [.osrm.hsgr] exists, and the blocks of [.osrm.partition], [.osrm.cells],
    [.osrm.cell_metrics] and [.osrm.mldgr] when the file exists; so for all
    [NUM_BLOCKS] blocks when every optional file exists. *)
Theorem PopulateData_stamps_canaries (abi : ABI) (config : StorageConfig)
    (layout : DataLayout) (base : Z) (mem mem' : Memory) :
  layout_ok layout = true ->
  0 <= base -> base + size_sum layout < 2 ^ 64 ->
  PopulateLayout abi config new_DataLayout = Ok layout ->
  Z.of_nat (length (absolute_file_index_path config))
    <= GetBlockSize layout FILE_INDEX_PATH ->
  PopulateData abi config layout base mem = Ok (tt, mem') ->
  (forall bid, In bid (stamped_blocks config) ->
               canaries_alive layout base mem' bid = true) /\
  (all_inputs config = true ->
   forall bid, (bid < NUM_BLOCKS)%nat -> canaries_alive layout base mem' bid = true).
Proof.
  intros Hok Hbase Hfit Hsized Hpath Hrun.
  pose proof (PopulateLayout_reads_fit abi config layout Hsized Hpath) as Hreads.
  pose proof (triple_PopulateData abi config layout base Hok Hbase Hfit Hreads mem
                ltac:(constructor)) as H.
  rewrite Hrun in H. destruct H as [_ H]. unfold stamped in H.
  rewrite Forall_forall in H.
  assert (Hall : forall bid, In bid (stamped_blocks config) ->
                             canaries_alive layout base mem' bid = true).
  { intros bid Hin. apply list_elem_of_In in Hin. apply (H bid Hin). }
  split; [exact Hall |].
  intros Hinputs bid Hbid. apply Hall, all_inputs_stamped; assumption.
Qed.

Lemma PopulateData_stamps_canaries_witness :
  exists mem',
    PopulateData demo_abi demo_config (sized demo_abi demo_config) demo_base zero_memory
    = Ok (tt, mem') /\
    canaries_alive (sized demo_abi demo_config) demo_base mem' TURN_LANE_DATA = true /\
    canaries_alive (sized demo_abi demo_config) demo_base mem' MLD_LEVEL_DATA = true.
Proof.
  assert (Hrun : PopulateData demo_abi demo_config (sized demo_abi demo_config)
                   demo_base zero_memory
                 = Ok (tt, memory_of (PopulateData demo_abi demo_config
                                        (sized demo_abi demo_config) demo_base
                                        zero_memory))).
  { apply Ok_memory_of; [vm_compute; reflexivity | intros []; reflexivity]. }
  eexists. split; [exact Hrun |].
  destruct (PopulateData_stamps_canaries demo_abi demo_config
              (sized demo_abi demo_config) demo_base zero_memory _
              ltac:(vm_compute; reflexivity) ltac:(vm_compute; discriminate)
              ltac:(vm_compute; reflexivity) ltac:(vm_compute; reflexivity)
              ltac:(vm_compute; discriminate) Hrun) as [_ Hall].
  split; apply Hall; try (vm_compute; reflexivity);
    apply Nat.ltb_lt; vm_compute; reflexivity.
Defined.

(** C3 as stated fails for the blocks of absent optional inputs: without
    the optional files the populate pass completes and leaves the canaries of
    the MLD blocks and of the CH edge filters unwritten, while those of an
    empty mandatory block are in place. *)
Lemma PopulateData_skips_absent_inputs :
  exists mem',
    PopulateData demo_abi mandatory_config (sized demo_abi mandatory_config)
      demo_base zero_memory = Ok (tt, mem') /\
    GetBlockEntries (sized demo_abi mandatory_config) MLD_LEVEL_DATA = 0 /\
    canaries_alive (sized demo_abi mandatory_config) demo_base mem' MLD_LEVEL_DATA
    = false /\
    canaries_alive (sized demo_abi mandatory_config) demo_base mem' CH_EDGE_FILTER_0
    = false /\
    canaries_alive (sized demo_abi mandatory_config) demo_base mem' TURN_LANE_DATA
    = true /\
    ~ (forall bid, (bid < NUM_BLOCKS)%nat ->
         canaries_alive (sized demo_abi mandatory_config) demo_base mem' bid = true).
Proof.
  assert (Hrun : PopulateData demo_abi mandatory_config
                   (sized demo_abi mandatory_config) demo_base zero_memory
                 = Ok (tt, memory_of (PopulateData demo_abi mandatory_config
                                        (sized demo_abi mandatory_config) demo_base
                                        zero_memory))).
  { apply Ok_memory_of; [vm_compute; reflexivity | intros []; reflexivity]. }
  eexists. split; [exact Hrun |].
  assert (Hmld : canaries_alive (sized demo_abi mandatory_config) demo_base
                   (memory_of (PopulateData demo_abi mandatory_config
                                 (sized demo_abi mandatory_config) demo_base
                                 zero_memory)) MLD_LEVEL_DATA = false)
    by (vm_compute; reflexivity).
  split; [vm_compute; reflexivity |].
  split; [exact Hmld |].
  split; [vm_compute; reflexivity |].
  split; [vm_compute; reflexivity |].
  intros H.
  specialize (H MLD_LEVEL_DATA ltac:(apply Nat.ltb_lt; vm_compute; reflexivity)).
  rewrite Hmld in H. discriminate H.
Qed.

Lemma PopulateLayout_metrics_witness :
  length (blocks new_DataLayout) = NUM_BLOCKS /\
  exists layout,
    PopulateLayout demo_abi demo_config new_DataLayout = Ok layout /\
    GetBlockEntries layout CH_EDGE_FILTER_2 = 9 /\
    GetBlockEntries layout CH_EDGE_FILTER_3 = 0.
Proof.
  split; [reflexivity |].
  destruct (PopulateLayout_metrics demo_abi demo_config new_DataLayout eq_refl)
    as [_ [Hok Hfilters]].
  destruct Hok as [layout E].
  - intros reader H. injection H as <-. simpl. lia.
  - intros reader H. injection H as <-. simpl. lia.
  - exists layout. split; [exact E |].
    destruct (Hfilters layout _ E eq_refl) as [_ Hf]. unfold GetBlockEntries.
    split.
    + exact (f_equal num_entries (Hf 2%nat ltac:(lia))).
    + exact (f_equal num_entries (Hf 3%nat ltac:(lia))).
Defined.

(** * The canary tag *)

(** C4 (as amended): the canary tag is the 4-byte ASCII sequence 'O', 'S',
    'R', 'M', in that order, and for every block of a layout whose blocks
    fit the address space behind the base, [GetBlockPtr<T, true>] writes
    that sequence into the 4 bytes in front of the payload and into the 4
    bytes behind it. *)
Theorem canary_tag_is_OSRM (layout : DataLayout) (base : Z) (bid : BlockID)
    (mem : Memory) :
  layout_ok layout = true -> 0 <= base -> base + size_sum layout < 2 ^ 64 ->
  (bid < NUM_BLOCKS)%nat ->
  CANARY = ["O"; "S"; "R"; "M"]%char /\
  exists mem',
    GetBlockPtr true layout base bid mem
    = Ok (GetAlignedBlockPtr layout base bid, mem') /\
    bytes_at mem' (GetAlignedBlockPtr layout base bid - 4) 4
    = ["O"; "S"; "R"; "M"]%char /\
    bytes_at mem' (GetAlignedBlockPtr layout base bid + GetBlockSize layout bid) 4
    = ["O"; "S"; "R"; "M"]%char.
Proof.
  intros Hok Hbase Hfit Hbid. split; [reflexivity |].
  destruct (GetBlockPtr_write_in_region layout base Hok Hbase Hfit bid mem Hbid)
    as [mem' [E [Hstart [Hend _]]]].
  exists mem'. split; [exact E |]. split; [exact Hstart | exact Hend].
Qed.

Lemma canary_tag_is_OSRM_witness :
  exists mem',
    GetBlockPtr true demo_layout 4096 TIMESTAMP zero_memory
    = Ok (GetAlignedBlockPtr demo_layout 4096 TIMESTAMP, mem') /\
    bytes_at mem' (GetAlignedBlockPtr demo_layout 4096 TIMESTAMP - 4) 4
    = ["O"; "S"; "R"; "M"]%char /\
    bytes_at mem'
      (GetAlignedBlockPtr demo_layout 4096 TIMESTAMP + GetBlockSize demo_layout TIMESTAMP)
      4
    = ["O"; "S"; "R"; "M"]%char.
Proof.
  apply (canary_tag_is_OSRM demo_layout 4096 TIMESTAMP zero_memory).
  - vm_compute. reflexivity.
  - lia.
  - vm_compute. reflexivity.
  - unfold TIMESTAMP, NUM_BLOCKS. lia.
Defined.

(** C4 as stated fails: the tag is not 'O', 'R', 'S', 'M', and what is
    written in front of a block is not that sequence. *)
Lemma canary_tag_is_not_ORSM :
  CANARY <> ["O"; "R"; "S"; "M"]%char /\
  match GetBlockPtr true demo_layout 4096 TIMESTAMP zero_memory with
  | Ok (ptr, mem') => bytes_at mem' (ptr - 4) 4 <> ["O"; "R"; "S"; "M"]%char
  | Throw _ => False
  end.
Proof. split; vm_compute; discriminate. Qed.

(** A block so long that its end lies behind the end of the address space
    has its end canary wrapped around.  With a first block of [2^64 - 1]
    bytes the end canary starts one byte before the payload: it overwrites
    the last byte of the start canary, and the check of the block throws. *)
Lemma GetBlockPtr_end_canary_wraps_around :
  GetAlignedBlockPtr (long_layout (2 ^ 64 - 1)) 4096 NAME_CHAR_DATA = 4100 /\
  is_Ok (GetBlockPtr true (long_layout (2 ^ 64 - 1)) 4096 NAME_CHAR_DATA zero_memory)
  = true /\
  bytes_at
    (memory_of
       (GetBlockPtr true (long_layout (2 ^ 64 - 1)) 4096 NAME_CHAR_DATA zero_memory))
    4096 7
  = ["O"; "S"; "R"; "O"; "S"; "R"; "M"]%char /\
  GetBlockPtr false (long_layout (2 ^ 64 - 1)) 4096 NAME_CHAR_DATA
    (memory_of
       (GetBlockPtr true (long_layout (2 ^ 64 - 1)) 4096 NAME_CHAR_DATA zero_memory))
  = Throw (CanaryCorrupt StartCanary NAME_CHAR_DATA).
Proof.
  split; [| split; [| split]]; vm_compute; reflexivity.
Qed.

(** * Further properties of the layout *)

(** ** Alignment *)

(** X1: for a power-of-two alignment and a pointer that has a multiple of the
    alignment at or above it inside the address space, [align] returns the
    least such multiple: it moves the pointer up by less than the alignment,
    and leaves an aligned pointer where it is. *)
Theorem align_rounds_up (k p : Z) :
  0 <= k < 64 -> 0 <= p <= 2 ^ 64 - 2 ^ k ->
  p <= align (2 ^ k) p < p + 2 ^ k /\
  (2 ^ k | align (2 ^ k) p) /\
  (forall m, (2 ^ k | m) -> p <= m -> align (2 ^ k) p <= m) /\
  ((2 ^ k | p) -> align (2 ^ k) p = p).
Proof.
  intros Hk Hp. pose proof (pow2_pos k ltac:(lia)) as Hpos.
  pose proof (up_bounds (2 ^ k) p Hpos) as Hb.
  assert (E : align (2 ^ k) p = up (2 ^ k) p).
  { rewrite (align_up _ _ k) by (lia || reflexivity). apply wrap64_small. lia. }
  rewrite E. split; [lia |]. split; [apply up_divide |]. split.
  - intros m Hm Hle. apply up_least; assumption.
  - intros Hdiv. pose proof (up_least (2 ^ k) p p Hpos Hdiv ltac:(lia)). lia.
Qed.

Lemma align_rounds_up_witness :
  4101 <= align (2 ^ 3) 4101 < 4101 + 2 ^ 3 /\
  (2 ^ 3 | align (2 ^ 3) 4101) /\
  (forall m, (2 ^ 3 | m) -> 4101 <= m -> align (2 ^ 3) 4101 <= m) /\
  ((2 ^ 3 | 4101) -> align (2 ^ 3) 4101 = 4101).
Proof.
  apply (align_rounds_up 3 4101); [lia |].
  split; [lia | vm_compute; discriminate].
Defined.

(** X2: a pointer in the last, incomplete alignment unit of the address
    space has no aligned address above it; [align] wraps around and returns
    the null pointer, which lies below the pointer it was given. *)
Theorem align_wraps_to_null (k p : Z) :
  0 <= k < 64 -> 2 ^ 64 - 2 ^ k < p < 2 ^ 64 -> align (2 ^ k) p = 0.
Proof.
  intros Hk Hp. pose proof (pow2_pos k ltac:(lia)) as Hpos.
  pose proof (pow2_pos (64 - k) ltac:(lia)) as Hpos'.
  rewrite (align_up _ _ k) by (lia || reflexivity).
  assert (E : up (2 ^ k) p = 2 ^ 64).
  { pose proof (up_bounds (2 ^ k) p Hpos) as Hb.
    assert (Hdiv : (2 ^ k | 2 ^ 64))
      by (exists (2 ^ (64 - k)); rewrite Z.mul_comm; apply pow2_divides_word; exact Hk).
    pose proof (up_least (2 ^ k) p (2 ^ 64) Hpos Hdiv ltac:(lia)) as Hle.
    destruct (up_divide (2 ^ k) p) as [q Hq].
    pose proof (pow2_divides_word k Hk) as Hw.
    assert (Hq' : 2 ^ (64 - k) <= q).
    { apply Z.lt_pred_le. apply (Z.mul_lt_mono_pos_r (2 ^ k)); [exact Hpos | lia]. }
    assert (2 ^ k * 2 ^ (64 - k) <= q * 2 ^ k)
      by (rewrite (Z.mul_comm q); apply Z.mul_le_mono_nonneg_l; lia).
    lia. }
  rewrite E. reflexivity.
Qed.

Lemma align_wraps_to_null_witness : align (2 ^ 3) (2 ^ 64 - 5) = 0.
Proof.
  apply (align_wraps_to_null 3 (2 ^ 64 - 5)); [lia |].
  split; vm_compute; reflexivity.
Defined.

(** X3: a block that [SetBlock] was never called for has the alignment 0 of
    the value-initialised descriptor; [GetAlignedBlockPtr] then returns the
    null pointer for it, whatever the base and the blocks in front of it. *)
Theorem GetAlignedBlockPtr_unset_block (l : DataLayout) (base : Z) (bid : BlockID) :
  entry_align (blocks l !!! bid) = 0 -> GetAlignedBlockPtr l base bid = 0.
Proof.
  intros H. unfold GetAlignedBlockPtr. cbv zeta. rewrite H. unfold align.
  change (wrap64 (- 0)) with 0. apply Z.land_0_r.
Qed.

Lemma GetAlignedBlockPtr_unset_block_witness :
  GetAlignedBlockPtr new_DataLayout 4096 TIMESTAMP = 0.
Proof. apply (GetAlignedBlockPtr_unset_block new_DataLayout 4096 TIMESTAMP). reflexivity. Defined.

(** ** Which blocks a payload pointer depends on *)

Lemma fold_skip_block_prefix l l' n :
  (forall i, (i < n)%nat ->
     entry_align (blocks l !!! i) = entry_align (blocks l' !!! i) /\
     byte_size (blocks l !!! i) = byte_size (blocks l' !!! i)) ->
  forall p, fold_left (skip_block l) (seq 0 n) p = fold_left (skip_block l') (seq 0 n) p.
Proof.
  induction n as [| n IH]; intros H p; [reflexivity |].
  rewrite seq_S, !fold_left_app. simpl.
  rewrite IH by (intros i Hi; apply H; lia).
  destruct (H n ltac:(lia)) as [Ha Hs].
  unfold skip_block, GetBlockSize. rewrite Ha, Hs. reflexivity.
Qed.

Lemma GetAlignedBlockPtr_prefix l l' base bid :
  (forall i, (i < bid)%nat ->
     entry_align (blocks l !!! i) = entry_align (blocks l' !!! i) /\
     byte_size (blocks l !!! i) = byte_size (blocks l' !!! i)) ->
  entry_align (blocks l !!! bid) = entry_align (blocks l' !!! bid) ->
  GetAlignedBlockPtr l base bid = GetAlignedBlockPtr l' base bid.
Proof.
  intros Hpre Ha. unfold GetAlignedBlockPtr. cbv zeta.
  rewrite (fold_skip_block_prefix l l' bid Hpre), Ha. reflexivity.
Qed.

(** X4: the payload pointer of a block depends on the blocks in front of it
    and on its own alignment only: setting a later block leaves it where it
    is, and so does setting the block itself to a descriptor of the same
    alignment, whatever its size. *)
Theorem GetAlignedBlockPtr_SetBlock (l : DataLayout) (base : Z) (bid j : BlockID)
    (b : Block) :
  ((bid < j)%nat ->
   GetAlignedBlockPtr (SetBlock l j b) base bid = GetAlignedBlockPtr l base bid) /\
  (entry_align b = entry_align (blocks l !!! bid) ->
   GetAlignedBlockPtr (SetBlock l bid b) base bid = GetAlignedBlockPtr l base bid).
Proof.
  split.
  - intros Hlt. apply GetAlignedBlockPtr_prefix.
    + intros i Hi. unfold SetBlock. simpl.
      rewrite list_lookup_total_insert_ne by lia. split; reflexivity.
    + unfold SetBlock. simpl. rewrite list_lookup_total_insert_ne by lia. reflexivity.
  - intros Ha. apply GetAlignedBlockPtr_prefix.
    + intros i Hi. unfold SetBlock. simpl.
      rewrite list_lookup_total_insert_ne by lia. split; reflexivity.
    + unfold SetBlock. simpl.
      destruct (Nat.lt_ge_cases bid (length (blocks l))) as [Hin | Hout].
      * rewrite list_lookup_total_insert_eq by exact Hin. exact Ha.
      * rewrite list_insert_ge by exact Hout. reflexivity.
Qed.

Lemma GetAlignedBlockPtr_SetBlock_witness :
  GetAlignedBlockPtr (SetBlock demo_layout TIMESTAMP (make_block (mkTypeInfo 8 8) 100))
    4096 R_SEARCH_TREE
  = GetAlignedBlockPtr demo_layout 4096 R_SEARCH_TREE.
Proof.
  apply (proj1 (GetAlignedBlockPtr_SetBlock demo_layout 4096 R_SEARCH_TREE TIMESTAMP
                  (make_block (mkTypeInfo 8 8) 100))).
  unfold R_SEARCH_TREE, TIMESTAMP. lia.
Defined.

(** ** Where the region is mapped *)

Lemma up_translate a p d : 0 < a -> (a | d) -> up a (p + d) = up a p + d.
Proof.
  intros Ha [q ->]. unfold up.
  replace (p + q * a + a - 1) with (p + a - 1 + q * a) by lia.
  rewrite Z.div_add by lia. lia.
Qed.

Lemma endZ_translate bs d :
  Forall (fun b => block_ok b = true) bs ->
  Forall (fun b => (entry_align b | d)) bs ->
  forall p, endZ bs (p + d) = endZ bs p + d.
Proof.
  unfold endZ. induction 1 as [| b bs Hb _ IH]; intros Hd p; [reflexivity |].
  inversion Hd as [| ? ? Hdb Hdbs]; subst. simpl.
  rewrite <- IH by exact Hdbs. f_equal.
  apply block_ok_spec in Hb as [_ [k [Hk Ha]]].
  unfold skipZ. replace (p + d + 4) with (p + 4 + d) by lia.
  rewrite up_translate; [lia | rewrite Ha; apply pow2_pos; lia | exact Hdb].
Qed.

Lemma base_aligned_divide l d :
  base_aligned l d = true -> Forall (fun b => (entry_align b | d)) (blocks l).
Proof.
  unfold base_aligned. intros H. apply Forall_forall. intros b Hin.
  rewrite forallb_forall in H. specialize (H b ltac:(apply list_elem_of_In; exact Hin)).
  apply Z.eqb_eq in H.
  destruct (Z.eq_dec (entry_align b) 0) as [E | E].
  - rewrite E, Z.mod_0_r in H. subst d. apply Z.divide_0_r.
  - apply Z.mod_divide; assumption.
Qed.

(** X5: payload offsets do not depend on where the region is mapped, as
    long as the mapping keeps the alignment: moving the base by a multiple of
    every block's alignment leaves the offset of every block from the base
    unchanged.  No bound on the size of the layout is needed. *)
Theorem aligned_offset_of_translate (l : DataLayout) (base d : Z) (bid : BlockID) :
  layout_ok l = true -> (bid < NUM_BLOCKS)%nat -> base_aligned l d = true ->
  aligned_offset_of l (base + d) bid = aligned_offset_of l base bid.
Proof.
  intros Hok Hbid Hd. pose proof (layout_ok_spec l Hok) as [Hlen Hall].
  pose proof (base_aligned_divide l d Hd) as Hdiv.
  unfold aligned_offset_of, offset_from.
  rewrite !GetAlignedBlockPtr_payloadZ by assumption.
  rewrite !wrap64_sub_l. f_equal.
  destruct (block_ok_spec _ (layout_ok_lookup l bid Hok Hbid)) as [_ [k [Hk Ha]]].
  unfold payloadZ.
  rewrite endZ_translate by (apply Forall_take; assumption).
  replace (endZ (take bid (blocks l)) base + d + 4)
    with (endZ (take bid (blocks l)) base + 4 + d) by lia.
  rewrite up_translate; [lia | rewrite Ha; apply pow2_pos; lia |].
  rewrite Forall_forall in Hdiv. apply Hdiv.
  apply list_elem_of_lookup_total_2. lia.
Qed.

Lemma aligned_offset_of_translate_witness :
  aligned_offset_of demo_layout (4099 + 65536) MLD_CELLS
  = aligned_offset_of demo_layout 4099 MLD_CELLS.
Proof.
  apply (aligned_offset_of_translate demo_layout 4099 65536 MLD_CELLS).
  - vm_compute. reflexivity.
  - unfold MLD_CELLS, NUM_BLOCKS. lia.
  - vm_compute. reflexivity.
Defined.

(** ** Blocks and the region *)

(** X6: in a layout whose size sum fits the address space behind the base,
    every block lies inside the region of [GetSizeOfLayout] bytes: its start
    canary begins at or behind the base, and its end canary ends at or before
    the end of the region. *)
Theorem block_within_region (l : DataLayout) (base : Z) (bid : BlockID) :
  layout_ok l = true -> 0 <= base -> base + size_sum l < 2 ^ 64 ->
  (bid < NUM_BLOCKS)%nat ->
  base <= GetAlignedBlockPtr l base bid - sizeof_CANARY /\
  GetAlignedBlockPtr l base bid + GetBlockSize l bid + sizeof_CANARY
  <= base + GetSizeOfLayout l.
Proof.
  intros Hok Hbase Hfit Hbid. pose proof (layout_ok_spec l Hok) as [Hlen Hall].
  pose proof (bound_sum_nonneg _ Hall) as Hnn. fold (size_sum l) in Hnn.
  rewrite GetSizeOfLayout_wrap, wrap64_small by (assumption || lia).
  apply block_room; assumption.
Qed.

Lemma block_within_region_witness :
  4099 <= GetAlignedBlockPtr demo_layout 4099 MLD_CELLS - sizeof_CANARY /\
  GetAlignedBlockPtr demo_layout 4099 MLD_CELLS + GetBlockSize demo_layout MLD_CELLS
    + sizeof_CANARY
  <= 4099 + GetSizeOfLayout demo_layout.
Proof.
  apply (block_within_region demo_layout 4099 MLD_CELLS).
  - vm_compute. reflexivity.
  - lia.
  - vm_compute. reflexivity.
  - unfold MLD_CELLS, NUM_BLOCKS. lia.
Defined.

(** ** Setting and getting blocks *)

Lemma GetSizeOfLayout_sum l :
  length (blocks l) = NUM_BLOCKS -> GetSizeOfLayout l = wrap64 (size_sum l).
Proof.
  intros Hlen. unfold GetSizeOfLayout, size_sum.
  pose proof (fold_indices_take
                (fun result b => wrap64 (result + wrap64 (block_bound b)))
                (blocks l) NUM_BLOCKS 0 ltac:(lia)) as E.
  unfold block_bound in E at 1. unfold GetBlockSize. rewrite E.
  rewrite firstn_all2 by lia. rewrite size_loop by lia. reflexivity.
Qed.

Lemma bound_sum_insert bs i b :
  (i < length bs)%nat ->
  bound_sum (<[i := b]> bs) = bound_sum bs - block_bound (bs !!! i) + block_bound b.
Proof.
  revert i. induction bs as [| x bs IH]; intros i Hi; simpl in Hi; [lia |].
  destruct i as [| i]; simpl.
  - lia.
  - rewrite IH by lia. change ((x :: bs) !!! S i) with (bs !!! i). lia.
Qed.

(** X7: [SetBlock] followed by the getters returns what was set and leaves
    the other blocks as they were; and it changes the size of the layout by
    the difference between the room of the new and of the old descriptor
    (two canaries, the byte size and the alignment), in 64-bit arithmetic. *)
Theorem SetBlock_then_get (l : DataLayout) (bid i : BlockID) (b : Block) :
  length (blocks l) = NUM_BLOCKS -> (bid < NUM_BLOCKS)%nat ->
  GetBlockEntries (SetBlock l bid b) bid = num_entries b /\
  GetBlockSize (SetBlock l bid b) bid = byte_size b /\
  (i <> bid ->
   GetBlockEntries (SetBlock l bid b) i = GetBlockEntries l i /\
   GetBlockSize (SetBlock l bid b) i = GetBlockSize l i) /\
  GetSizeOfLayout (SetBlock l bid b)
  = wrap64 (GetSizeOfLayout l
            - (2 * sizeof_CANARY + GetBlockSize l bid + entry_align (blocks l !!! bid))
            + (2 * sizeof_CANARY + byte_size b + entry_align b)).
Proof.
  intros Hlen Hbid. unfold GetBlockEntries, GetBlockSize.
  rewrite SetBlock_same by lia. split; [reflexivity |]. split; [reflexivity |].
  split.
  - intros Hne. rewrite SetBlock_other by congruence. split; reflexivity.
  - rewrite !GetSizeOfLayout_sum by (rewrite ?SetBlock_length; exact Hlen).
    unfold size_sum, SetBlock. simpl. rewrite bound_sum_insert by lia.
    unfold block_bound.
    match goal with
    | |- _ = wrap64 (wrap64 ?x - ?a + ?c) =>
        replace (wrap64 x - a + c) with (wrap64 x + (c - a)) by lia
    end.
    rewrite wrap64_add_l. f_equal. lia.
Qed.

Lemma SetBlock_then_get_witness :
  GetBlockSize (SetBlock demo_layout TIMESTAMP (make_block (mkTypeInfo 8 8) 100))
    TIMESTAMP = 800 /\
  GetSizeOfLayout (SetBlock demo_layout TIMESTAMP (make_block (mkTypeInfo 8 8) 100))
  = GetSizeOfLayout demo_layout - 28 * 4 - 4 + 808.
Proof.
  destruct (SetBlock_then_get demo_layout TIMESTAMP TIMESTAMP
              (make_block (mkTypeInfo 8 8) 100) eq_refl
              ltac:(unfold TIMESTAMP, NUM_BLOCKS; lia)) as [_ [Hsize [_ Hsum]]].
  split; [exact Hsize |]. rewrite Hsum. vm_compute. reflexivity.
Defined.

(** * Further properties of the canaries *)

Lemma canary_dead_zero_memory ptr : canary_alive zero_memory ptr = false.
Proof. reflexivity. Qed.

(** X8: checking after stamping succeeds.  For every block of a layout
    whose blocks fit the address space behind the base: on a region that was
    never written, [GetBlockPtr<T, false>] throws the start-canary exception;
    after [GetBlockPtr<T, true>] on the same block it returns the pointer
    that the stamping call returned, and leaves the memory as it is. *)
Theorem GetBlockPtr_write_then_check (layout : DataLayout) (base : Z)
    (bid : BlockID) (mem : Memory) :
  layout_ok layout = true -> 0 <= base -> base + size_sum layout < 2 ^ 64 ->
  (bid < NUM_BLOCKS)%nat ->
  GetBlockPtr false layout base bid zero_memory
  = Throw (CanaryCorrupt StartCanary bid) /\
  exists mem',
    GetBlockPtr true layout base bid mem
    = Ok (GetAlignedBlockPtr layout base bid, mem') /\
    GetBlockPtr false layout base bid mem'
    = Ok (GetAlignedBlockPtr layout base bid, mem').
Proof.
  intros Hok Hbase Hfit Hbid. split.
  - rewrite (GetBlockPtr_check_in_region layout base Hok Hbase Hfit bid _ Hbid).
    rewrite canary_dead_zero_memory. reflexivity.
  - destruct (GetBlockPtr_write_in_region layout base Hok Hbase Hfit bid mem Hbid)
      as [mem' [E [Hstart [Hend _]]]].
    exists mem'. split; [exact E |].
    apply canary_alive_spec in Hstart, Hend.
    rewrite (GetBlockPtr_check_in_region layout base Hok Hbase Hfit bid _ Hbid).
    rewrite Hstart, Hend. reflexivity.
Qed.

Lemma GetBlockPtr_write_then_check_witness :
  GetBlockPtr false demo_layout 4096 TIMESTAMP zero_memory
  = Throw (CanaryCorrupt StartCanary TIMESTAMP) /\
  exists mem',
    GetBlockPtr true demo_layout 4096 TIMESTAMP zero_memory
    = Ok (GetAlignedBlockPtr demo_layout 4096 TIMESTAMP, mem') /\
    GetBlockPtr false demo_layout 4096 TIMESTAMP mem'
    = Ok (GetAlignedBlockPtr demo_layout 4096 TIMESTAMP, mem').
Proof.
  apply (GetBlockPtr_write_then_check demo_layout 4096 TIMESTAMP zero_memory).
  - vm_compute. reflexivity.
  - lia.
  - vm_compute. reflexivity.
  - unfold TIMESTAMP, NUM_BLOCKS. lia.
Defined.

(** X9: stamping one block does not change what the check of another block
    finds: the check of block [k] after stamping block [bid] returns or
    throws exactly as it did before. *)
Theorem GetBlockPtr_stamp_keeps_others (layout : DataLayout) (base : Z)
    (bid k : BlockID) (mem : Memory) (ptr : Z) (mem' : Memory) :
  layout_ok layout = true -> 0 <= base -> base + size_sum layout < 2 ^ 64 ->
  (bid < NUM_BLOCKS)%nat -> (k < NUM_BLOCKS)%nat -> k <> bid ->
  GetBlockPtr true layout base bid mem = Ok (ptr, mem') ->
  GetBlockPtr false layout base k mem'
  = match GetBlockPtr false layout base k mem with
    | Ok (q, _) => Ok (q, mem')
    | Throw e => Throw e
    end.
Proof.
  intros Hok Hbase Hfit Hbid Hk Hne Hrun.
  pose proof (block_size_nonneg layout Hok bid Hbid) as Hsb.
  pose proof (block_size_nonneg layout Hok k Hk) as Hsk.
  destruct (GetBlockPtr_write_in_region layout base Hok Hbase Hfit bid mem Hbid)
    as [mem1 [E [_ [_ Hout]]]].
  rewrite E in Hrun. injection Hrun as <- <-.
  assert (Hcases :
            GetAlignedBlockPtr layout base k + GetBlockSize layout k + 2 * sizeof_CANARY
            <= GetAlignedBlockPtr layout base bid \/
            GetAlignedBlockPtr layout base bid + GetBlockSize layout bid
              + 2 * sizeof_CANARY
            <= GetAlignedBlockPtr layout base k).
  { destruct (Nat.lt_trichotomy k bid) as [Hlt | [Heq | Hgt]]; [| contradiction |].
    - left. apply blocks_in_order; assumption.
    - right. apply blocks_in_order; assumption. }
  rewrite sizeof_CANARY_eq in *.
  assert (Hs : canary_alive mem1 (GetAlignedBlockPtr layout base k - sizeof_CANARY)
               = canary_alive mem (GetAlignedBlockPtr layout base k - sizeof_CANARY)).
  { apply canary_alive_ext. intros a Ha. symmetry. apply Hout.
    rewrite sizeof_CANARY_eq in *. destruct Hcases; lia. }
  assert (He : canary_alive mem1 (GetAlignedBlockPtr layout base k + GetBlockSize layout k)
               = canary_alive mem (GetAlignedBlockPtr layout base k + GetBlockSize layout k)).
  { apply canary_alive_ext. intros a Ha. symmetry. apply Hout.
    rewrite sizeof_CANARY_eq in *. destruct Hcases; lia. }
  rewrite !(GetBlockPtr_check_in_region layout base Hok Hbase Hfit k _ Hk).
  rewrite Hs, He.
  destruct (canary_alive mem _); [| reflexivity].
  destruct (canary_alive mem _); reflexivity.
Qed.

Lemma GetBlockPtr_stamp_keeps_others_witness :
  GetBlockPtr false demo_layout 4096 PROPERTIES
    (memory_of (GetBlockPtr true demo_layout 4096 TIMESTAMP zero_memory))
  = Throw (CanaryCorrupt StartCanary PROPERTIES).
Proof.
  rewrite (GetBlockPtr_stamp_keeps_others demo_layout 4096 TIMESTAMP PROPERTIES
             zero_memory (GetAlignedBlockPtr demo_layout 4096 TIMESTAMP)
             (memory_of (GetBlockPtr true demo_layout 4096 TIMESTAMP zero_memory))).
  - reflexivity.
  - vm_compute. reflexivity.
  - lia.
  - vm_compute. reflexivity.
  - unfold TIMESTAMP, NUM_BLOCKS. lia.
  - unfold PROPERTIES, NUM_BLOCKS. lia.
  - unfold PROPERTIES, TIMESTAMP. lia.
  - reflexivity.
Defined.

Lemma GetAlignedBlockPtr_nonneg layout base bid : 0 <= GetAlignedBlockPtr layout base bid.
Proof.
  unfold GetAlignedBlockPtr, align. cbv zeta. apply Z.land_nonneg. left.
  apply wrap64_range.
Qed.

(** X10: for a block made by [make_block<T>] whose payload lies inside the
    address space, [GetBlockEnd<T>] returns the address behind the last
    payload byte, which is where the end canary starts; it throws exactly
    when the canary check of [GetBlockPtr<T>] throws, and writes nothing. *)
Theorem GetBlockEnd_is_end_of_payload (T : TypeInfo) (layout : DataLayout)
    (base : Z) (bid : BlockID) (n : Z) (mem : Memory) :
  blocks layout !!! bid = make_block T n ->
  0 <= sizeof T * n ->
  GetAlignedBlockPtr layout base bid + sizeof T * n < 2 ^ 64 ->
  match GetBlockEnd T layout base bid mem with
  | Ok (e, mem') =>
      GetBlockPtr false layout base bid mem
      = Ok (GetAlignedBlockPtr layout base bid, mem') /\
      e = GetAlignedBlockPtr layout base bid + GetBlockSize layout bid /\
      canary_alive mem' e = true
  | Throw ex => GetBlockPtr false layout base bid mem = Throw ex
  end.
Proof.
  intros Hb Hn Hfit. pose proof (GetAlignedBlockPtr_nonneg layout base bid) as Hp.
  assert (Hsize : GetBlockSize layout bid = sizeof T * n).
  { unfold GetBlockSize. rewrite Hb. simpl. apply wrap64_small. lia. }
  assert (Hentries : GetBlockEntries layout bid = n)
    by (unfold GetBlockEntries; rewrite Hb; reflexivity).
  unfold GetBlockEnd, bind, ret.
  destruct (GetBlockPtr false layout base bid mem) as [[begin mem'] |] eqn:E;
    [| reflexivity].
  unfold GetBlockPtr in E. cbv zeta in E.
  destruct (canary_alive mem (ptr_add (GetAlignedBlockPtr layout base bid)
                                (- sizeof_CANARY)));
    [| discriminate E].
  destruct (canary_alive mem (ptr_add (GetAlignedBlockPtr layout base bid)
                                (GetBlockSize layout bid)))
    eqn:Hend; [| discriminate E].
  simpl in E. injection E as <- <-.
  split; [reflexivity |].
  unfold ptr_add in *. rewrite Hentries. rewrite Hsize in *.
  rewrite wrap64_small in * by lia. split; [reflexivity | exact Hend].
Qed.

Lemma GetBlockEnd_is_end_of_payload_witness :
  exists e mem',
    GetBlockEnd (mkTypeInfo 4 4) demo_layout 4096 TIMESTAMP
      (memory_of (GetBlockPtr true demo_layout 4096 TIMESTAMP zero_memory))
    = Ok (e, mem') /\
    e = GetAlignedBlockPtr demo_layout 4096 TIMESTAMP
        + GetBlockSize demo_layout TIMESTAMP.
Proof.
  pose proof (GetBlockEnd_is_end_of_payload (mkTypeInfo 4 4) demo_layout 4096
                TIMESTAMP 28
                (memory_of (GetBlockPtr true demo_layout 4096 TIMESTAMP zero_memory))
                eq_refl ltac:(simpl; lia) ltac:(vm_compute; reflexivity)) as H.
  destruct (GetBlockEnd (mkTypeInfo 4 4) demo_layout 4096 TIMESTAMP _)
    as [[e mem'] |] eqn:E.
  - exists e, mem'. split; [reflexivity | exact (proj1 (proj2 H))].
  - vm_compute in E. discriminate E.
Defined.

(** * Further properties of the sizing pass *)

(** Block ids by their values. *)
Ltac bid_values :=
  cbv [In
      NAME_CHAR_DATA EDGE_BASED_NODE_DATA_LIST ANNOTATION_DATA_LIST
      CH_GRAPH_NODE_LIST CH_GRAPH_EDGE_LIST CH_EDGE_FILTER_0 CH_EDGE_FILTER_1
      CH_EDGE_FILTER_2 CH_EDGE_FILTER_3 CH_EDGE_FILTER_4 CH_EDGE_FILTER_5
      CH_EDGE_FILTER_6 CH_EDGE_FILTER_7 COORDINATE_LIST OSM_NODE_ID_LIST
      TURN_INSTRUCTION ENTRY_CLASSID R_SEARCH_TREE R_SEARCH_TREE_LEVELS
      GEOMETRIES_INDEX GEOMETRIES_NODE_LIST GEOMETRIES_FWD_WEIGHT_LIST
      GEOMETRIES_REV_WEIGHT_LIST GEOMETRIES_FWD_DURATION_LIST
      GEOMETRIES_REV_DURATION_LIST GEOMETRIES_FWD_DATASOURCES_LIST
      GEOMETRIES_REV_DATASOURCES_LIST HSGR_CHECKSUM TIMESTAMP FILE_INDEX_PATH
      DATASOURCES_NAMES PROPERTIES BEARING_CLASSID BEARING_OFFSETS BEARING_BLOCKS
      BEARING_VALUES ENTRY_CLASS LANE_DATA_ID PRE_TURN_BEARING POST_TURN_BEARING
      TURN_LANE_DATA LANE_DESCRIPTION_OFFSETS LANE_DESCRIPTION_MASKS
      TURN_WEIGHT_PENALTIES TURN_DURATION_PENALTIES MLD_LEVEL_DATA MLD_PARTITION
      MLD_CELL_TO_CHILDREN MLD_CELL_WEIGHTS_0 MLD_CELL_WEIGHTS_1 MLD_CELL_WEIGHTS_2
      MLD_CELL_WEIGHTS_3 MLD_CELL_WEIGHTS_4 MLD_CELL_WEIGHTS_5 MLD_CELL_WEIGHTS_6
      MLD_CELL_WEIGHTS_7 MLD_CELL_DURATIONS_0 MLD_CELL_DURATIONS_1
      MLD_CELL_DURATIONS_2 MLD_CELL_DURATIONS_3 MLD_CELL_DURATIONS_4
      MLD_CELL_DURATIONS_5 MLD_CELL_DURATIONS_6 MLD_CELL_DURATIONS_7
      MLD_CELL_SOURCE_BOUNDARY MLD_CELL_DESTINATION_BOUNDARY MLD_CELLS
      MLD_CELL_LEVEL_OFFSETS MLD_GRAPH_NODE_LIST MLD_GRAPH_EDGE_LIST
      MLD_GRAPH_NODE_TO_OFFSET MANEUVER_OVERRIDES MANEUVER_OVERRIDE_NODE_SEQUENCES] in *.

(** A set of block ids is included in another. *)
Ltac by_ids :=
  let i := fresh "i" in
  let HD := fresh "HD" in
  intros i _ [HD | HD]; bid_values; [lia | tauto].

(** ** Which blocks the populate pass takes a pointer to *)

Lemma existsb_In (j : BlockID) (L : list BlockID) :
  existsb (Nat.eqb j) L = true -> In j L.
Proof.
  intros H. apply existsb_exists in H as [x [Hx Heq]].
  apply Nat.eqb_eq in Heq. subst. exact Hx.
Qed.

Lemma fetched_always config j :
  existsb (Nat.eqb j)
    ([MANEUVER_OVERRIDE_NODE_SEQUENCES; MANEUVER_OVERRIDES; CH_GRAPH_EDGE_LIST;
      CH_GRAPH_NODE_LIST; HSGR_CHECKSUM] ++ mandatory_blocks) = true ->
  In j (stamped_blocks config).
Proof.
  intros H. apply existsb_In in H. unfold stamped_blocks. rewrite !in_app_iff.
  apply in_app_or in H as [H | H].
  - destruct H as [<- | [<- | H]]; [left; simpl; tauto | left; simpl; tauto |].
    do 5 right. left. unfold hsgr_blocks.
    destruct (hsgr config); simpl in *; intuition.
  - do 6 right. exact H.
Qed.

Lemma fetched_hsgr config reader j :
  hsgr config = Some reader -> (CH_EDGE_FILTER_0 <= j <= CH_EDGE_FILTER_7)%nat ->
  In j (stamped_blocks config).
Proof.
  intros E Hj. unfold stamped_blocks, hsgr_blocks. rewrite E, !in_app_iff.
  do 5 right. left. bid_values. lia.
Qed.

Lemma fetched_partition config reader j :
  partition config = Some reader -> (MLD_LEVEL_DATA <= j <= MLD_CELL_TO_CHILDREN)%nat ->
  In j (stamped_blocks config).
Proof.
  intros E Hj. unfold stamped_blocks, partition_blocks. rewrite E, !in_app_iff.
  do 4 right. left. bid_values. lia.
Qed.

Lemma fetched_cells config reader j :
  cells config = Some reader ->
  (MLD_CELL_SOURCE_BOUNDARY <= j <= MLD_CELL_LEVEL_OFFSETS)%nat ->
  In j (stamped_blocks config).
Proof.
  intros E Hj. unfold stamped_blocks, cells_blocks. rewrite E, !in_app_iff.
  do 3 right. left. bid_values. lia.
Qed.

Lemma fetched_cell_metrics config reader j :
  cell_metrics config = Some reader ->
  (MLD_CELL_WEIGHTS_0 <= j <= MLD_CELL_DURATIONS_7)%nat ->
  In j (stamped_blocks config).
Proof.
  intros E Hj. unfold stamped_blocks, cell_metrics_blocks. rewrite E, !in_app_iff.
  do 2 right. left. bid_values. lia.
Qed.

Lemma fetched_mldgr config reader j :
  mldgr config = Some reader ->
  (MLD_GRAPH_NODE_LIST <= j <= MLD_GRAPH_NODE_TO_OFFSET)%nat ->
  In j (stamped_blocks config).
Proof.
  intros E Hj. unfold stamped_blocks, mldgr_blocks. rewrite E, !in_app_iff.
  right. left. bid_values. lia.
Qed.

(** ** What the sizing pass sets *)

Section Settled.

Variable R : BlockID -> Block -> Block -> Prop.
Variable abi : ABI.
Variable config : StorageConfig.

(** [R] holds of the descriptors that the sizing pass writes: of an empty
    one everywhere, and of any at a block that the populate pass takes a
    pointer to. *)
Hypothesis R_empty : forall j T, R j (block_of abi T 0) (block_of abi T 0).
Hypothesis R_fetched :
  forall j T n,
    In j (stamped_blocks config) -> R j (block_of abi T n) (block_of abi T n).

Lemma settled_weaken (D D' : BlockID -> Prop) l l' :
  (forall i, (i < NUM_BLOCKS)%nat -> D' i -> D i) ->
  settled R D l l' -> settled R D' l l'.
Proof.
  intros Hsub [Hl [Hl' H]]. split; [exact Hl |]. split; [exact Hl' |].
  intros i Hi HD. apply H; [exact Hi | apply Hsub; assumption].
Qed.

Lemma settled_SetBlock (D : BlockID -> Prop) l l' j b :
  (j < NUM_BLOCKS)%nat -> R j b b ->
  settled R D l l' ->
  settled R (fun i => i = j \/ D i) (SetBlock l j b) (SetBlock l' j b).
Proof.
  intros Hj Hb [Hl [Hl' H]]. split; [rewrite SetBlock_length; exact Hl |].
  split; [rewrite SetBlock_length; exact Hl' |].
  intros i Hi HD. destruct (decide (j = i)) as [-> | Hne].
  - rewrite !SetBlock_same by lia. exact Hb.
  - rewrite !SetBlock_other by exact Hne. apply H; [exact Hi |].
    destruct HD as [-> | HD]; [contradiction | exact HD].
Qed.

(** A loop whose body settles the blocks [P index] settles them for every
    index of the loop. *)
Lemma settled_loop (step : DataLayout -> nat -> DataLayout)
    (P : nat -> BlockID -> Prop) indices :
  (forall D l l' index,
     In index indices -> settled R D l l' ->
     settled R (fun i => P index i \/ D i) (step l index) (step l' index)) ->
  forall D l l',
    settled R D l l' ->
    settled R (fun i => (exists index, In index indices /\ P index i) \/ D i)
      (fold_left step indices l) (fold_left step indices l').
Proof.
  induction indices as [| index rest IH]; intros Hstep D l l' H; simpl.
  - eapply settled_weaken; [| exact H].
    intros i _ [[index [[] _]] | HD]. exact HD.
  - eapply settled_weaken;
      [| apply IH;
         [intros D0 l0 l0' idx Hin; apply Hstep; right; exact Hin
         | apply (Hstep D l l' index); [left; reflexivity | exact H]]].
    intros i _ [[idx [[<- | Hin] HP]] | HD].
    + right. left. exact HP.
    + left. exists idx. split; assumption.
    + right. right. exact HD.
Qed.

Lemma in_irange index first last :
  In index (irange first last) <-> (first <= index < last)%nat.
Proof. unfold irange. rewrite in_seq. lia. Qed.

Lemma settled_set_blocks (D : BlockID -> Prop) l l' id0 first last b :
  (id0 + last <= NUM_BLOCKS)%nat ->
  (forall index, (first <= index < last)%nat -> R (id0 + index) b b) ->
  settled R D l l' ->
  settled R (fun i => (id0 + first <= i < id0 + last)%nat \/ D i)
    (set_blocks l id0 first last (fun _ => b))
    (set_blocks l' id0 first last (fun _ => b)).
Proof.
  intros Hlast Hb H. unfold set_blocks.
  eapply settled_weaken;
    [| apply (settled_loop
                (fun layout index => SetBlock layout (id0 + index) b)
                (fun index i => i = (id0 + index)%nat));
       [| exact H]].
  - intros i _ [Hi | HD]; [left | right; exact HD].
    exists (i - id0)%nat. split; [apply in_irange; lia | lia].
  - intros D0 l0 l0' index Hin H0. apply in_irange in Hin.
    apply settled_SetBlock; [lia | apply Hb; exact Hin | exact H0].
Qed.

Lemma settled_metric_loop (D : BlockID -> Prop) l l' first last
    (bw bd : nat -> Block) :
  (last <= 8)%nat ->
  (forall index, (first <= index < last)%nat ->
     R (MLD_CELL_WEIGHTS_0 + index) (bw index) (bw index) /\
     R (MLD_CELL_DURATIONS_0 + index) (bd index) (bd index)) ->
  settled R D l l' ->
  settled R
    (fun i => ((MLD_CELL_WEIGHTS_0 + first <= i < MLD_CELL_WEIGHTS_0 + last)%nat \/
               (MLD_CELL_DURATIONS_0 + first <= i < MLD_CELL_DURATIONS_0 + last)%nat)
              \/ D i)
    (fold_left
       (fun layout index =>
          let layout := SetBlock layout (MLD_CELL_WEIGHTS_0 + index) (bw index) in
          SetBlock layout (MLD_CELL_DURATIONS_0 + index) (bd index))
       (irange first last) l)
    (fold_left
       (fun layout index =>
          let layout := SetBlock layout (MLD_CELL_WEIGHTS_0 + index) (bw index) in
          SetBlock layout (MLD_CELL_DURATIONS_0 + index) (bd index))
       (irange first last) l').
Proof.
  intros Hlast Hb H.
  eapply settled_weaken;
    [| apply (settled_loop _
                (fun index i => i = (MLD_CELL_WEIGHTS_0 + index)%nat \/
                                i = (MLD_CELL_DURATIONS_0 + index)%nat));
       [| exact H]].
  - intros i _ [[Hi | Hi] | HD]; [left | left | right; exact HD].
    + exists (i - MLD_CELL_WEIGHTS_0)%nat. split; [apply in_irange; lia | lia].
    + exists (i - MLD_CELL_DURATIONS_0)%nat. split; [apply in_irange; lia | lia].
  - intros D0 l0 l0' index Hin H0. apply in_irange in Hin. cbv zeta.
    destruct (Hb index Hin) as [Hw Hd].
    eapply settled_weaken;
      [| apply settled_SetBlock;
         [| exact Hd | apply settled_SetBlock; [| exact Hw | exact H0]]].
    + intros i _ [[-> | ->] | HD]; [right; left | left | right; right];
        (reflexivity || exact HD).
    + unfold MLD_CELL_DURATIONS_0, NUM_BLOCKS. lia.
    + unfold MLD_CELL_WEIGHTS_0, NUM_BLOCKS. lia.
Qed.

(** The block of a [SetBlock] is one that the populate pass takes a pointer
    to, by the input files at hand. *)
Ltac fetched :=
  first
    [ apply fetched_always; vm_compute; reflexivity
    | eapply fetched_hsgr; [eassumption | bid_values; lia]
    | eapply fetched_partition; [eassumption | bid_values; lia]
    | eapply fetched_cells; [eassumption | bid_values; lia]
    | eapply fetched_cell_metrics; [eassumption | bid_values; lia]
    | eapply fetched_mldgr; [eassumption | bid_values; lia] ].

Ltac written := first [apply R_empty | apply R_fetched; fetched].

(** A chain of [SetBlock]s. *)
Ltac settle H :=
  repeat (apply settled_SetBlock;
          [apply Nat.ltb_lt; vm_compute; reflexivity | written |]);
  exact H.

Lemma settled_front (D : BlockID -> Prop) l l' :
  settled R D l l' ->
  settled R
    (fun i => In i [ANNOTATION_DATA_LIST; EDGE_BASED_NODE_DATA_LIST; ENTRY_CLASSID;
                    LANE_DATA_ID; TURN_INSTRUCTION; POST_TURN_BEARING;
                    PRE_TURN_BEARING; LANE_DESCRIPTION_MASKS;
                    LANE_DESCRIPTION_OFFSETS; NAME_CHAR_DATA; FILE_INDEX_PATH]
              \/ D i)
    (layout_front abi config l) (layout_front abi config l').
Proof.
  intros H. unfold layout_front. cbv zeta.
  eapply settled_weaken; [| settle H].
  by_ids.
Qed.

Lemma settled_hsgr (D : BlockID -> Prop) l l' l1 l1' :
  layout_hsgr abi config l = Ok l1 -> layout_hsgr abi config l' = Ok l1' ->
  settled R D l l' ->
  settled R
    (fun i => ((CH_GRAPH_NODE_LIST <= i <= CH_EDGE_FILTER_7)%nat \/ i = HSGR_CHECKSUM)
              \/ D i) l1 l1'.
Proof.
  unfold layout_hsgr. intros E E' H. destruct (hsgr config) as [reader |] eqn:Eh.
  - destruct (Z.ltb_spec NUM_METRICS (hsgr_num_metrics reader)) as [| Hle];
      [discriminate E |].
    injection E as <-. injection E' as <-. unfold NUM_METRICS in *.
    eapply settled_weaken;
      [| apply settled_set_blocks;
         [| | apply settled_set_blocks; [| | settle H]]].
    + by_ids.
    + unfold CH_EDGE_FILTER_0, NUM_BLOCKS. lia.
    + intros index Hi. written.
    + unfold CH_EDGE_FILTER_0, NUM_BLOCKS. lia.
    + intros index Hi. written.
  - injection E as <-. injection E' as <-. unfold NUM_METRICS in *.
    eapply settled_weaken; [| apply settled_set_blocks; [| | settle H]].
    + by_ids.
    + unfold CH_EDGE_FILTER_0, NUM_BLOCKS. lia.
    + intros index Hi. written.
Qed.

Lemma settled_middle (D : BlockID -> Prop) l l' :
  settled R D l l' ->
  settled R
    (fun i => In i [MANEUVER_OVERRIDE_NODE_SEQUENCES; MANEUVER_OVERRIDES;
                    TURN_LANE_DATA; ENTRY_CLASS; BEARING_BLOCKS; BEARING_OFFSETS;
                    BEARING_CLASSID; BEARING_VALUES; DATASOURCES_NAMES;
                    GEOMETRIES_REV_DATASOURCES_LIST; GEOMETRIES_FWD_DATASOURCES_LIST;
                    GEOMETRIES_REV_DURATION_LIST; GEOMETRIES_FWD_DURATION_LIST;
                    GEOMETRIES_REV_WEIGHT_LIST; GEOMETRIES_FWD_WEIGHT_LIST;
                    GEOMETRIES_NODE_LIST; GEOMETRIES_INDEX; OSM_NODE_ID_LIST;
                    COORDINATE_LIST; TURN_DURATION_PENALTIES; TURN_WEIGHT_PENALTIES;
                    TIMESTAMP; PROPERTIES; R_SEARCH_TREE_LEVELS; R_SEARCH_TREE]
              \/ D i)
    (layout_middle abi config l) (layout_middle abi config l').
Proof.
  intros H. unfold layout_middle. cbv zeta.
  eapply settled_weaken; [| settle H].
  by_ids.
Qed.

Lemma settled_partition (D : BlockID -> Prop) l l' :
  settled R D l l' ->
  settled R
    (fun i => In i [MLD_CELL_TO_CHILDREN; MLD_PARTITION; MLD_LEVEL_DATA] \/ D i)
    (layout_partition abi config l) (layout_partition abi config l').
Proof.
  intros H. unfold layout_partition. cbv zeta.
  destruct (partition config) eqn:E; (eapply settled_weaken; [| settle H]); by_ids.
Qed.

Lemma settled_cells (D : BlockID -> Prop) l l' :
  settled R D l l' ->
  settled R
    (fun i => In i [MLD_CELL_LEVEL_OFFSETS; MLD_CELLS; MLD_CELL_DESTINATION_BOUNDARY;
                    MLD_CELL_SOURCE_BOUNDARY] \/ D i)
    (layout_cells abi config l) (layout_cells abi config l').
Proof.
  intros H. unfold layout_cells. cbv zeta.
  destruct (cells config) eqn:E; (eapply settled_weaken; [| settle H]); by_ids.
Qed.

Lemma settled_cell_metrics (D : BlockID -> Prop) l l' l1 l1' :
  layout_cell_metrics abi config l = Ok l1 ->
  layout_cell_metrics abi config l' = Ok l1' ->
  settled R D l l' ->
  settled R
    (fun i => (MLD_CELL_WEIGHTS_0 <= i <= MLD_CELL_DURATIONS_7)%nat \/ D i) l1 l1'.
Proof.
  unfold layout_cell_metrics. intros E E' H.
  destruct (cell_metrics config) as [reader |] eqn:Ec.
  - destruct (Z.ltb_spec NUM_METRICS (num_metric reader)) as [| Hle];
      [discriminate E |].
    injection E as <-. injection E' as <-. unfold NUM_METRICS in *.
    eapply settled_weaken;
      [| apply settled_metric_loop
           with (bw := fun _ => block_of abi T_EdgeWeight 0)
                (bd := fun _ => block_of abi T_EdgeDuration 0);
         [| | apply settled_metric_loop
                with (bw := fun index => block_of abi T_EdgeWeight
                                           (weights_count reader index))
                     (bd := fun index => block_of abi T_EdgeDuration
                                           (durations_count reader index));
              [| | exact H]]].
    + by_ids.
    + lia.
    + intros index Hi. split; written.
    + lia.
    + intros index Hi. split; written.
  - injection E as <-. injection E' as <-.
    eapply settled_weaken; [| settle H].
    by_ids.
Qed.

Lemma settled_mldgr (D : BlockID -> Prop) l l' :
  settled R D l l' ->
  settled R
    (fun i => In i [MLD_GRAPH_NODE_TO_OFFSET; MLD_GRAPH_EDGE_LIST; MLD_GRAPH_NODE_LIST]
              \/ D i)
    (layout_mldgr abi config l) (layout_mldgr abi config l').
Proof.
  intros H. unfold layout_mldgr. cbv zeta.
  destruct (mldgr config) eqn:E; (eapply settled_weaken; [| settle H]); by_ids.
Qed.

(** Between them the parts of the sizing pass set every block. *)
Lemma PopulateLayout_settles l0 l0' l l' :
  length (blocks l0) = NUM_BLOCKS -> length (blocks l0') = NUM_BLOCKS ->
  PopulateLayout abi config l0 = Ok l -> PopulateLayout abi config l0' = Ok l' ->
  length (blocks l) = NUM_BLOCKS /\ length (blocks l') = NUM_BLOCKS /\
  forall i, (i < NUM_BLOCKS)%nat -> R i (blocks l !!! i) (blocks l' !!! i).
Proof.
  intros Hl Hl' E E'. unfold PopulateLayout in E, E'. cbv zeta in E, E'.
  destruct (layout_hsgr abi config (layout_front abi config l0)) as [l1 |] eqn:E1;
    [| discriminate E].
  destruct (layout_hsgr abi config (layout_front abi config l0')) as [l1' |] eqn:E1';
    [| discriminate E'].
  destruct (layout_cell_metrics abi config _) as [l2 |] eqn:E2 in E; [| discriminate E].
  destruct (layout_cell_metrics abi config _) as [l2' |] eqn:E2' in E';
    [| discriminate E'].
  injection E as <-. injection E' as <-.
  assert (H0 : settled R (fun _ => False) l0 l0').
  { split; [exact Hl |]. split; [exact Hl' |]. intros i _ []. }
  pose proof (settled_mldgr _ _ _
                (settled_cell_metrics _ _ _ _ _ E2 E2'
                   (settled_cells _ _ _
                      (settled_partition _ _ _
                         (settled_middle _ _ _
                            (settled_hsgr _ _ _ _ _ E1 E1'
                               (settled_front _ _ _ H0))))))) as [H1 [H2 H]].
  split; [exact H1 |]. split; [exact H2 |].
  intros i Hi. apply H; [exact Hi |]. clear -Hi. unfold NUM_BLOCKS in Hi.
  bid_values. lia.
Qed.

End Settled.

Lemma block_of_ok abi T n : abi_ok abi = true -> block_ok (block_of abi T n) = true.
Proof.
  intros H. unfold block_ok, block_of, make_block. simpl.
  apply andb_true_intro. split.
  - unfold in_range. pose proof (wrap64_range (sizeof (abi T) * n)).
    apply andb_true_intro. split; [apply Z.leb_le | apply Z.ltb_lt]; lia.
  - unfold abi_ok in H. rewrite forallb_forall in H. apply H.
    destruct T; simpl; repeat (first [left; reflexivity | right]).
Qed.

(** X11: the sizing pass sets every block.  Whatever the layout held
    before, when the pass returns, each of the [NUM_BLOCKS] descriptors has
    the alignment of an element type, so a positive one, which is what
    [GetSizeOfLayout] asserts, and no block is left value-initialised. *)
Theorem PopulateLayout_sets_every_block (abi : ABI) (config : StorageConfig)
    (l0 l : DataLayout) :
  abi_ok abi = true -> length (blocks l0) = NUM_BLOCKS ->
  PopulateLayout abi config l0 = Ok l ->
  layout_ok l = true /\
  forall i, (i < NUM_BLOCKS)%nat -> 0 < entry_align (blocks l !!! i).
Proof.
  intros Habi Hlen E.
  destruct (PopulateLayout_settles (fun _ b _ => block_ok b = true) abi config
              (fun _ T => block_of_ok abi T 0 Habi)
              (fun _ T n _ => block_of_ok abi T n Habi) l0 l0 l l Hlen Hlen E E)
    as [Hl [_ H]].
  split.
  - unfold layout_ok. apply andb_true_intro. split; [apply Nat.eqb_eq; exact Hl |].
    apply forallb_forall. intros b Hin.
    apply list_elem_of_In, list_elem_of_lookup_total_1 in Hin as [i [Hi <-]].
    apply H. lia.
  - intros i Hi. destruct (block_ok_spec _ (H i Hi)) as [_ [k [Hk ->]]].
    apply pow2_pos. lia.
Qed.

Lemma PopulateLayout_sets_every_block_witness :
  layout_ok (sized demo_abi mandatory_config) = true /\
  forall i, (i < NUM_BLOCKS)%nat ->
    0 < entry_align (blocks (sized demo_abi mandatory_config) !!! i).
Proof.
  apply (PopulateLayout_sets_every_block demo_abi mandatory_config new_DataLayout).
  - vm_compute. reflexivity.
  - reflexivity.
  - vm_compute. reflexivity.
Defined.

Lemma layout_hsgr_throw abi config l l' e :
  layout_hsgr abi config l = Throw e -> layout_hsgr abi config l' = Throw e.
Proof.
  unfold layout_hsgr. destruct (hsgr config) as [reader |]; [| discriminate].
  destruct (NUM_METRICS <? hsgr_num_metrics reader); [tauto | discriminate].
Qed.

Lemma layout_cell_metrics_throw abi config l l' e :
  layout_cell_metrics abi config l = Throw e ->
  layout_cell_metrics abi config l' = Throw e.
Proof.
  unfold layout_cell_metrics. destruct (cell_metrics config) as [reader |];
    [| discriminate].
  destruct (NUM_METRICS <? num_metric reader); [tauto | discriminate].
Qed.

Lemma PopulateLayout_throw abi config l0 l0' e :
  PopulateLayout abi config l0 = Throw e -> PopulateLayout abi config l0' = Throw e.
Proof.
  unfold PopulateLayout. cbv zeta. intros H.
  destruct (layout_hsgr abi config (layout_front abi config l0)) as [l1 |] eqn:E1.
  - destruct (layout_hsgr abi config (layout_front abi config l0')) as [l1' |] eqn:E1'.
    + destruct (layout_cell_metrics abi config
                  (layout_cells abi config
                     (layout_partition abi config (layout_middle abi config l1))))
        as [l2 |] eqn:E2; [discriminate H |].
      rewrite (layout_cell_metrics_throw abi config _
                 (layout_cells abi config
                    (layout_partition abi config (layout_middle abi config l1')))
                 _ E2).
      exact H.
    + apply (layout_hsgr_throw abi config _ (layout_front abi config l0)) in E1'.
      congruence.
  - rewrite (layout_hsgr_throw abi config _ (layout_front abi config l0') _ E1).
    exact H.
Qed.

(** X12: the sizing pass overwrites every descriptor: its outcome, the
    layout or the exception, does not depend on what the layout held before,
    so running it on a used layout gives what running it on a fresh one
    gives. *)
Theorem PopulateLayout_overwrites (abi : ABI) (config : StorageConfig)
    (l0 l0' : DataLayout) :
  length (blocks l0) = NUM_BLOCKS -> length (blocks l0') = NUM_BLOCKS ->
  PopulateLayout abi config l0 = PopulateLayout abi config l0'.
Proof.
  intros Hlen Hlen'.
  destruct (PopulateLayout abi config l0) as [l | e] eqn:E.
  - destruct (PopulateLayout abi config l0') as [l' | e'] eqn:E'.
    + destruct (PopulateLayout_settles (fun _ => eq) abi config
                  (fun _ _ => eq_refl) (fun _ _ _ _ => eq_refl)
                  l0 l0' l l' Hlen Hlen' E E') as [Hl [Hl' H]].
      f_equal. destruct l as [bs], l' as [bs']. simpl in *. f_equal.
      apply (list_eq_same_length _ _ NUM_BLOCKS Hl' Hl).
      intros i x y Hi Hx Hy. specialize (H i Hi).
      rewrite (list_lookup_total_correct _ _ _ Hx),
        (list_lookup_total_correct _ _ _ Hy) in H. exact H.
    + apply (PopulateLayout_throw abi config l0' l0) in E'. congruence.
  - symmetry. apply (PopulateLayout_throw abi config l0 l0'). exact E.
Qed.

Lemma PopulateLayout_overwrites_witness :
  PopulateLayout demo_abi demo_config new_DataLayout
  = PopulateLayout demo_abi demo_config demo_layout.
Proof.
  apply (PopulateLayout_overwrites demo_abi demo_config new_DataLayout demo_layout);
    reflexivity.
Defined.

(** X13: the sizing pass and the populate pass agree on the blocks of absent
    inputs.  Every block that the populate pass does not take a pointer to,
    and so leaves without canaries, has been sized by the sizing pass with no
    entries and no bytes. *)
Theorem PopulateLayout_unfetched_blocks_empty (abi : ABI) (config : StorageConfig)
    (l0 layout : DataLayout) (k : BlockID) :
  length (blocks l0) = NUM_BLOCKS ->
  PopulateLayout abi config l0 = Ok layout ->
  (k < NUM_BLOCKS)%nat -> ~ In k (stamped_blocks config) ->
  GetBlockEntries layout k = 0 /\ GetBlockSize layout k = 0.
Proof.
  intros Hlen E Hk Hnot.
  destruct (PopulateLayout_settles
              (fun j b _ => ~ In j (stamped_blocks config) ->
                            num_entries b = 0 /\ byte_size b = 0)
              abi config) with (l0 := l0) (l0' := l0) (l := layout) (l' := layout)
    as [_ [_ H]]; try assumption.
  - intros j T _. unfold block_of, make_block. simpl.
    rewrite Z.mul_0_r. split; reflexivity.
  - intros j T n Hin Hno. contradiction.
  - apply (H k Hk Hnot).
Qed.

Lemma PopulateLayout_unfetched_blocks_empty_witness :
  GetBlockEntries (sized demo_abi mandatory_config) MLD_CELLS = 0 /\
  GetBlockSize (sized demo_abi mandatory_config) MLD_CELLS = 0.
Proof.
  apply (PopulateLayout_unfetched_blocks_empty demo_abi mandatory_config
           new_DataLayout).
  - reflexivity.
  - vm_compute. reflexivity.
  - unfold MLD_CELLS, NUM_BLOCKS. lia.
  - vm_compute. intuition discriminate.
Defined.


(** ** The blocks of the cell metrics *)

Lemma metric_loop_length (bw bd : nat -> Block) indices l :
  length (blocks (fold_left
                    (fun layout index =>
                       let layout :=
                         SetBlock layout (MLD_CELL_WEIGHTS_0 + index) (bw index) in
                       SetBlock layout (MLD_CELL_DURATIONS_0 + index) (bd index))
                    indices l))
  = length (blocks l).
Proof.
  revert l. induction indices as [| index rest IH]; intros l; simpl; [reflexivity |].
  rewrite IH, !SetBlock_length. reflexivity.
Qed.

Lemma metric_loop_lookup (bw bd : nat -> Block) first n l index :
  (first + n <= 8)%nat -> (index < 8)%nat -> length (blocks l) = NUM_BLOCKS ->
  let l' :=
    fold_left
      (fun layout index =>
         let layout := SetBlock layout (MLD_CELL_WEIGHTS_0 + index) (bw index) in
         SetBlock layout (MLD_CELL_DURATIONS_0 + index) (bd index))
      (seq first n) l in
  blocks l' !!! (MLD_CELL_WEIGHTS_0 + index)%nat
  = (if bool_decide (first <= index < first + n)%nat then bw index
     else blocks l !!! (MLD_CELL_WEIGHTS_0 + index)%nat) /\
  blocks l' !!! (MLD_CELL_DURATIONS_0 + index)%nat
  = (if bool_decide (first <= index < first + n)%nat then bd index
     else blocks l !!! (MLD_CELL_DURATIONS_0 + index)%nat).
Proof.
  unfold MLD_CELL_WEIGHTS_0, MLD_CELL_DURATIONS_0, NUM_BLOCKS.
  revert l first. induction n as [| n IH]; intros l first Hn Hi Hlen; cbv zeta; cbn [seq fold_left].
  - rewrite !bool_decide_false by lia. split; reflexivity.
  - pose proof (IH (SetBlock (SetBlock l (48 + first) (bw first)) (56 + first)
                      (bd first))
                  (S first) ltac:(lia) Hi
                  ltac:(rewrite !SetBlock_length; exact Hlen)) as H.
    cbv zeta in H. destruct H as [Hw Hd]. rewrite Hw, Hd. clear Hw Hd IH.
    destruct (decide (index = first)) as [-> | Hne].
    + rewrite !(bool_decide_false (S first <= first < _)%nat) by lia.
      rewrite !(bool_decide_true (first <= first < _)%nat) by lia.
      rewrite SetBlock_other by lia.
      rewrite !SetBlock_same by (rewrite ?SetBlock_length; lia).
      split; reflexivity.
    + rewrite !SetBlock_other by lia.
      destruct (decide (S first <= index < S first + n)%nat).
      * rewrite !bool_decide_true by lia. split; reflexivity.
      * rewrite !bool_decide_false by lia. split; reflexivity.
Qed.

Lemma layout_mldgr_metrics_frame abi config l i :
  (MLD_CELL_WEIGHTS_0 <= i <= MLD_CELL_DURATIONS_7)%nat ->
  blocks (layout_mldgr abi config l) !!! i = blocks l !!! i.
Proof.
  unfold MLD_CELL_WEIGHTS_0, MLD_CELL_DURATIONS_7. intros Hi. unfold layout_mldgr.
  destruct (mldgr config);
    repeat (rewrite SetBlock_other; [| compute; lia]); reflexivity.
Qed.

(** X14: the blocks of the cell metrics as the sizing pass leaves them.  When
    the pass returns and [.osrm.cell_metrics] exists, the file declares at
    most 8 metrics; for each metric below that number the weights and the
    durations block hold as many entries as the file gives for that metric,
    and the blocks of the other metrics up to the eighth are empty blocks of
    the same element types. *)
Theorem PopulateLayout_cell_metrics_blocks (abi : ABI) (config : StorageConfig)
    (l0 layout : DataLayout) (reader : CellMetricsFile) (index : nat) :
  length (blocks l0) = NUM_BLOCKS ->
  PopulateLayout abi config l0 = Ok layout ->
  cell_metrics config = Some reader -> (index < 8)%nat ->
  num_metric reader <= 8 /\
  blocks layout !!! (MLD_CELL_WEIGHTS_0 + index)%nat
  = make_block (abi T_EdgeWeight)
      (if Z.of_nat index <? num_metric reader then weights_count reader index else 0) /\
  blocks layout !!! (MLD_CELL_DURATIONS_0 + index)%nat
  = make_block (abi T_EdgeDuration)
      (if Z.of_nat index <? num_metric reader then durations_count reader index
       else 0).
Proof.
  intros Hlen H Hr Hi. unfold PopulateLayout in H. cbv zeta in H.
  destruct (layout_hsgr abi config (layout_front abi config l0)) as [l1 |] eqn:E1;
    [| discriminate H].
  destruct (layout_cell_metrics abi config _) as [l2 |] eqn:E2; [| discriminate H].
  injection H as <-.
  assert (Hlen1 : length (blocks l1) = NUM_BLOCKS)
    by (rewrite (layout_hsgr_length _ _ _ _ E1), layout_front_length; exact Hlen).
  unfold layout_cell_metrics in E2. rewrite Hr in E2.
  destruct (Z.ltb_spec NUM_METRICS (num_metric reader)) as [| Hle];
    [discriminate E2 |].
  unfold NUM_METRICS in *. split; [exact Hle |].
  injection E2 as <-.
  rewrite !layout_mldgr_metrics_frame
    by (unfold MLD_CELL_WEIGHTS_0, MLD_CELL_DURATIONS_0, MLD_CELL_DURATIONS_7; lia).
  set (lc := layout_cells abi config
               (layout_partition abi config (layout_middle abi config l1))).
  assert (Hlc : length (blocks lc) = NUM_BLOCKS).
  { unfold lc, layout_cells, layout_partition.
    destruct (cells config), (partition config);
      rewrite !SetBlock_length, layout_middle_length; exact Hlen1. }
  unfold irange. change (Z.to_nat 8) with 8%nat.
  set (n := Z.to_nat (num_metric reader)).
  assert (Hn : (n <= 8)%nat) by (unfold n; lia).
  replace (n - 0)%nat with n by lia.
  match goal with
  | |- context [fold_left ?f (seq n (8 - n)) (fold_left ?g (seq 0 n) lc)] =>
      pose proof (metric_loop_lookup
                    (fun _ => block_of abi T_EdgeWeight 0)
                    (fun _ => block_of abi T_EdgeDuration 0)
                    n (8 - n) (fold_left g (seq 0 n) lc) index ltac:(lia) Hi
                    ltac:(rewrite metric_loop_length; exact Hlc)) as H2;
      pose proof (metric_loop_lookup
                    (fun index => block_of abi T_EdgeWeight (weights_count reader index))
                    (fun index => block_of abi T_EdgeDuration
                                    (durations_count reader index))
                    0 n lc index ltac:(lia) Hi Hlc) as H1
  end.
  cbv beta zeta in H1, H2. destruct H1 as [Hw1 Hd1]. destruct H2 as [Hw2 Hd2].
  split.
  - etransitivity; [exact Hw2 |].
    destruct (Z.ltb_spec (Z.of_nat index) (num_metric reader)) as [Hlt | Hge].
    + rewrite bool_decide_false by (unfold n; lia).
      etransitivity; [exact Hw1 |].
      rewrite bool_decide_true by (unfold n; lia). reflexivity.
    + rewrite bool_decide_true by (unfold n; lia). reflexivity.
  - etransitivity; [exact Hd2 |].
    destruct (Z.ltb_spec (Z.of_nat index) (num_metric reader)) as [Hlt | Hge].
    + rewrite bool_decide_false by (unfold n; lia).
      etransitivity; [exact Hd1 |].
      rewrite bool_decide_true by (unfold n; lia). reflexivity.
    + rewrite bool_decide_true by (unfold n; lia). reflexivity.
Qed.

Lemma PopulateLayout_cell_metrics_blocks_witness :
  GetBlockEntries (sized demo_abi demo_config) MLD_CELL_WEIGHTS_1 = 12 /\
  GetBlockEntries (sized demo_abi demo_config) MLD_CELL_WEIGHTS_2 = 0.
Proof.
  destruct (PopulateLayout_cell_metrics_blocks demo_abi demo_config new_DataLayout
              (sized demo_abi demo_config) (mkCellMetricsFile 2 (fun _ => 12) (fun _ => 12))
              1 eq_refl ltac:(vm_compute; reflexivity) eq_refl ltac:(lia))
    as [_ [H1 _]].
  destruct (PopulateLayout_cell_metrics_blocks demo_abi demo_config new_DataLayout
              (sized demo_abi demo_config) (mkCellMetricsFile 2 (fun _ => 12) (fun _ => 12))
              2 eq_refl ltac:(vm_compute; reflexivity) eq_refl ltac:(lia))
    as [_ [H2 _]].
  unfold GetBlockEntries. split.
  - exact (f_equal num_entries H1).
  - exact (f_equal num_entries H2).
Defined.

(** * What the populate pass writes *)

Lemma bind_inv {A B} (m : Mem A) (k : A -> Mem B) mem r :
  bind m k mem = Ok r -> exists a mem1, m mem = Ok (a, mem1) /\ k a mem1 = Ok r.
Proof.
  unfold bind. destruct (m mem) as [[a mem1] | e]; [| discriminate].
  intros H. exists a, mem1. split; [reflexivity | exact H].
Qed.

(** Inclusion of lists of block ids, by computation. *)
Lemma incl_check (W W' : list BlockID) :
  forallb (fun x => existsb (Nat.eqb x) W') W = true ->
  forall bid, In bid W -> In bid W'.
Proof.
  intros H bid Hin. rewrite forallb_forall in H. specialize (H bid Hin).
  apply existsb_exists in H as [x [Hx Heq]]. apply Nat.eqb_eq in Heq. subst.
  exact Hx.
Qed.

Section Touches.

Variable abi : ABI.
Variable config : StorageConfig.
Variable layout : DataLayout.
Variable base : Z.

Hypothesis layout_sized : layout_ok layout = true.
Hypothesis base_nonneg : 0 <= base.
Hypothesis region_fits : base + size_sum layout < 2 ^ 64.
Hypothesis reads : reads_fit abi config layout.

(** The rooms of two blocks do not meet. *)
Lemma footprint_disjoint i j a :
  (i < NUM_BLOCKS)%nat -> (j < NUM_BLOCKS)%nat -> i <> j ->
  footprint layout base i a -> ~ footprint layout base j a.
Proof.
  unfold footprint. intros Hi Hj Hne Ha Hb.
  pose proof (block_size_nonneg layout layout_sized i Hi).
  pose proof (block_size_nonneg layout layout_sized j Hj).
  rewrite sizeof_CANARY_eq in *.
  destruct (Nat.lt_trichotomy i j) as [Hlt | [Heq | Hgt]]; [| contradiction |].
  - pose proof (blocks_in_order layout base layout_sized base_nonneg region_fits
                  i j Hlt Hj).
    rewrite sizeof_CANARY_eq in *. lia.
  - pose proof (blocks_in_order layout base layout_sized base_nonneg region_fits
                  j i Hgt Hi).
    rewrite sizeof_CANARY_eq in *. lia.
Qed.

(** ** The rules *)

Lemma touches_ret {A} (v : A) : touches layout base (ret v) v [].
Proof. intros mem. unfold ret. split; reflexivity. Qed.

Lemma touches_throw {A} e (v : A) W : touches layout base (throw e) v W.
Proof. intros mem. exact I. Qed.

Lemma touches_bind {A B} (m : Mem A) (k : A -> Mem B) v W1 v' W2 :
  touches layout base m v W1 -> touches layout base (k v) v' W2 ->
  touches layout base (bind m k) v' (W2 ++ W1).
Proof.
  intros Hm Hk mem. unfold bind. specialize (Hm mem).
  destruct (m mem) as [[a mem1] | e]; [| exact I].
  destruct Hm as [-> H1]. specialize (Hk mem1).
  destruct (k v mem1) as [[b mem2] | e]; [| exact I].
  destruct Hk as [-> H2]. split; [reflexivity |].
  intros addr Hout. rewrite H2, H1; [reflexivity | |];
    intros bid Hin; apply Hout; apply in_or_app; [right | left]; exact Hin.
Qed.

Lemma touches_weaken {A} (m : Mem A) v W W' :
  (forall bid, In bid W -> In bid W') ->
  touches layout base m v W -> touches layout base m v W'.
Proof.
  intros Hsub Hm mem. specialize (Hm mem).
  destruct (m mem) as [[a mem1] | e]; [| exact I].
  destruct Hm as [-> H]. split; [reflexivity |].
  intros addr Hout. apply H. intros bid Hin. apply Hout, Hsub, Hin.
Qed.

Lemma touches_block_ptr bid :
  (bid < NUM_BLOCKS)%nat ->
  touches layout base (block_ptr layout base bid)
    (GetAlignedBlockPtr layout base bid) [bid].
Proof.
  intros Hbid mem. unfold block_ptr.
  destruct (GetBlockPtr_write_in_region layout base layout_sized base_nonneg
              region_fits bid mem Hbid)
    as [mem' [-> [_ [_ Hout]]]].
  split; [reflexivity |]. intros addr Hno. apply Hout.
  specialize (Hno bid ltac:(left; reflexivity) Hbid). unfold footprint in Hno. lia.
Qed.

(** Code that writes into the payload of a block only. *)
Lemma touches_modify_payload bid f :
  (bid < NUM_BLOCKS)%nat ->
  (forall mem a,
     a < GetAlignedBlockPtr layout base bid \/
     GetAlignedBlockPtr layout base bid + GetBlockSize layout bid <= a ->
     f mem a = mem a) ->
  touches layout base (modify f) tt [bid].
Proof.
  intros Hbid Hf mem. unfold modify. split; [reflexivity |].
  intros addr Hno. apply Hf.
  specialize (Hno bid ltac:(left; reflexivity) Hbid). unfold footprint in Hno.
  rewrite sizeof_CANARY_eq in Hno. lia.
Qed.

Lemma touches_read_view bid :
  (bid < NUM_BLOCKS)%nat ->
  touches layout base
    (read_view config layout bid (GetAlignedBlockPtr layout base bid)) tt [bid].
Proof.
  intros Hbid. apply (touches_modify_payload bid); [exact Hbid |].
  intros mem a Ha. apply read_to_outside. exact Ha.
Qed.

Lemma touches_ReadInto T bid count :
  (bid < NUM_BLOCKS)%nat ->
  wrap64 (sizeof (abi T) * count) <= GetBlockSize layout bid ->
  touches layout base
    (ReadInto abi config T bid (GetAlignedBlockPtr layout base bid) count) tt [bid].
Proof.
  intros Hbid Hle. apply (touches_modify_payload bid); [exact Hbid |].
  intros mem a Ha. apply read_to_outside. lia.
Qed.

Lemma touches_check (b : bool) e :
  touches layout base (if b then throw e else ret tt) tt [].
Proof. destruct b; [apply touches_throw | apply touches_ret]. Qed.

(** ** The parts of the populate pass *)

Ltac bid_lt := apply Nat.ltb_lt; vm_compute; reflexivity.

Ltac touches_step :=
  cbv beta zeta; cbn [for_each nth fst snd];
  lazymatch goal with
  | |- touches _ _ (bind _ _) _ _ => eapply touches_bind
  | |- touches _ _ (block_ptr _ _ _) _ _ => apply touches_block_ptr; bid_lt
  | |- touches _ _ (read_view _ _ _ _) _ _ => apply touches_read_view; bid_lt
  | |- touches _ _ (ReadInto _ _ _ _ _ _) _ _ =>
      apply touches_ReadInto; [bid_lt | apply reads]
  | |- touches _ _ (ret _) _ _ => apply touches_ret
  | |- touches _ _ (if _ then throw _ else ret tt) _ _ => apply touches_check
  end.

(** A derivation, and the comparison of the blocks it has met with the
    blocks of the statement. *)
Ltac footprints :=
  eapply touches_weaken; [| repeat touches_step];
  apply incl_check; vm_compute; reflexivity.

Lemma touches_file_index_path :
  touches layout base (file_index_path config layout base) tt [FILE_INDEX_PATH].
Proof.
  unfold file_index_path.
  eapply touches_weaken;
    [| eapply touches_bind;
       [touches_step
       | cbv beta; eapply touches_bind; [| cbv beta];
         apply (touches_modify_payload FILE_INDEX_PATH); try bid_lt]].
  - apply incl_check. vm_compute. reflexivity.
  - intros mem a Ha. apply read_to_outside. exact Ha.
  - intros mem a Ha. apply copy_to_outside. destruct reads as [Hpath _]. lia.
Qed.

Lemma touches_name_data :
  touches layout base (name_data abi config layout base) tt [NAME_CHAR_DATA].
Proof. unfold name_data. footprints. Qed.

Lemma touches_turn_lane_data :
  touches layout base (turn_lane_data abi config layout base) tt [TURN_LANE_DATA].
Proof. unfold turn_lane_data. footprints. Qed.

Lemma touches_turn_lane_descriptions :
  touches layout base (turn_lane_descriptions config layout base) tt
    [LANE_DESCRIPTION_MASKS; LANE_DESCRIPTION_OFFSETS].
Proof. unfold turn_lane_descriptions. footprints. Qed.

Lemma touches_edge_based_nodes_data :
  touches layout base (edge_based_nodes_data config layout base) tt
    [ANNOTATION_DATA_LIST; EDGE_BASED_NODE_DATA_LIST].
Proof. unfold edge_based_nodes_data. footprints. Qed.

Lemma touches_original_edge_data :
  touches layout base (original_edge_data config layout base)
    (edges_connectivity_checksum config)
    [POST_TURN_BEARING; PRE_TURN_BEARING; ENTRY_CLASSID; TURN_INSTRUCTION;
     LANE_DATA_ID].
Proof. unfold original_edge_data. footprints. Qed.

Lemma touches_compressed_geometry :
  touches layout base (compressed_geometry config layout base) tt
    [GEOMETRIES_REV_DATASOURCES_LIST; GEOMETRIES_FWD_DATASOURCES_LIST;
     GEOMETRIES_REV_DURATION_LIST; GEOMETRIES_FWD_DURATION_LIST;
     GEOMETRIES_REV_WEIGHT_LIST; GEOMETRIES_FWD_WEIGHT_LIST;
     GEOMETRIES_NODE_LIST; GEOMETRIES_INDEX].
Proof. unfold compressed_geometry. footprints. Qed.

Lemma touches_datasources_names :
  touches layout base (datasources_names config layout base) tt [DATASOURCES_NAMES].
Proof. unfold datasources_names. footprints. Qed.

Lemma touches_coordinates :
  touches layout base (coordinates config layout base) tt
    [OSM_NODE_ID_LIST; COORDINATE_LIST].
Proof. unfold coordinates. footprints. Qed.

Lemma touches_turn_weight_penalties :
  touches layout base (turn_weight_penalties abi config layout base) tt
    [TURN_WEIGHT_PENALTIES].
Proof. unfold turn_weight_penalties. footprints. Qed.

Lemma touches_turn_duration_penalties :
  touches layout base (turn_duration_penalties abi config layout base) tt
    [TURN_DURATION_PENALTIES].
Proof. unfold turn_duration_penalties. footprints. Qed.

Lemma touches_store_timestamp :
  touches layout base (store_timestamp abi config layout base) tt [TIMESTAMP].
Proof. unfold store_timestamp. footprints. Qed.

Lemma touches_search_tree :
  touches layout base (search_tree abi config layout base) tt
    [R_SEARCH_TREE_LEVELS; R_SEARCH_TREE].
Proof. unfold search_tree. footprints. Qed.

Lemma touches_profile_properties :
  touches layout base (profile_properties config layout base) tt [PROPERTIES].
Proof. unfold profile_properties. footprints. Qed.

Lemma touches_intersection_data :
  touches layout base (intersection_data config layout base) tt
    [ENTRY_CLASS; BEARING_BLOCKS; BEARING_OFFSETS; BEARING_VALUES; BEARING_CLASSID].
Proof. unfold intersection_data. footprints. Qed.

Lemma touches_hsgr_file turns :
  touches layout base (hsgr_file config layout base turns) tt (hsgr_blocks config).
Proof.
  unfold hsgr_file, hsgr_blocks. destruct (hsgr config) as [file |].
  - change (irange 0 (Z.to_nat NUM_METRICS)) with [0; 1; 2; 3; 4; 5; 6; 7]%nat.
    footprints.
  - footprints.
Qed.

Lemma touches_mld_partition :
  touches layout base (mld_partition config layout base) tt (partition_blocks config).
Proof.
  unfold mld_partition, partition_blocks. destruct (partition config); footprints.
Qed.

Lemma touches_mld_cells :
  touches layout base (mld_cells config layout base) tt (cells_blocks config).
Proof. unfold mld_cells, cells_blocks. destruct (cells config); footprints. Qed.

Lemma touches_mld_cell_metrics :
  touches layout base (mld_cell_metrics config layout base) tt
    (cell_metrics_blocks config).
Proof.
  unfold mld_cell_metrics, cell_metrics_blocks. destruct (cell_metrics config).
  - change (irange 0 (Z.to_nat NUM_METRICS)) with [0; 1; 2; 3; 4; 5; 6; 7]%nat.
    footprints.
  - footprints.
Qed.

Lemma touches_mld_graph turns :
  touches layout base (mld_graph config layout base turns) tt (mldgr_blocks config).
Proof. unfold mld_graph, mldgr_blocks. destruct (mldgr config); footprints. Qed.

Lemma touches_maneuver_overrides :
  touches layout base (maneuver_overrides config layout base) tt
    [MANEUVER_OVERRIDE_NODE_SEQUENCES; MANEUVER_OVERRIDES].
Proof. unfold maneuver_overrides. footprints. Qed.

(** The blocks that the parts behind the file index path write. *)
Lemma touches_after_file_index_path mem mem1 mem' :
  file_index_path config layout base mem = Ok (tt, mem1) ->
  PopulateData abi config layout base mem = Ok (tt, mem') ->
  forall addr,
    (forall bid, In bid (stamped_blocks config) -> bid <> FILE_INDEX_PATH ->
                 (bid < NUM_BLOCKS)%nat -> ~ footprint layout base bid addr) ->
    mem' addr = mem1 addr.
Proof.
  intros E1 Hrun. unfold PopulateData in Hrun.
  apply bind_inv in Hrun as [[] [mem1' [E1' Hrest]]].
  rewrite E1 in E1'. injection E1' as <-.
  match type of Hrest with
  | ?rest mem1 = _ =>
      assert (Ht : touches layout base rest tt
                     ([MANEUVER_OVERRIDE_NODE_SEQUENCES; MANEUVER_OVERRIDES]
                      ++ mldgr_blocks config ++ cell_metrics_blocks config
                      ++ cells_blocks config ++ partition_blocks config
                      ++ hsgr_blocks config
                      ++ removelast mandatory_blocks))
  end.
  { eapply touches_weaken;
      [| eapply touches_bind; [apply touches_name_data |];
         eapply touches_bind; [apply touches_turn_lane_data |];
         eapply touches_bind; [apply touches_turn_lane_descriptions |];
         eapply touches_bind; [apply touches_edge_based_nodes_data |];
         eapply touches_bind; [apply touches_original_edge_data |];
         eapply touches_bind; [apply touches_compressed_geometry |];
         eapply touches_bind; [apply touches_datasources_names |];
         eapply touches_bind; [apply touches_coordinates |];
         eapply touches_bind; [apply touches_turn_weight_penalties |];
         eapply touches_bind; [apply touches_turn_duration_penalties |];
         eapply touches_bind; [apply touches_store_timestamp |];
         eapply touches_bind; [apply touches_search_tree |];
         eapply touches_bind; [apply touches_profile_properties |];
         eapply touches_bind; [apply touches_intersection_data |];
         eapply touches_bind; [apply touches_hsgr_file |];
         eapply touches_bind; [apply touches_mld_partition |];
         eapply touches_bind; [apply touches_mld_cells |];
         eapply touches_bind; [apply touches_mld_cell_metrics |];
         eapply touches_bind; [apply touches_mld_graph |];
         apply touches_maneuver_overrides].
    unfold mldgr_blocks, cell_metrics_blocks, cells_blocks, partition_blocks,
      hsgr_blocks.
    destruct (hsgr config), (partition config), (cells config),
      (cell_metrics config), (mldgr config);
      apply incl_check; vm_compute; reflexivity. }
  specialize (Ht mem1). rewrite Hrest in Ht. destruct Ht as [_ Ht].
  intros addr Hno. apply Ht. intros bid Hin Hbid. apply Hno; [| | exact Hbid].
  - unfold stamped_blocks. rewrite !in_app_iff in *.
    destruct Hin as [H | [H | [H | [H | [H | [H | H]]]]]]; auto 10.
    right. right. right. right. right. right.
    revert H. apply incl_check. vm_compute. reflexivity.
  - intros ->. revert Hin.
    unfold mldgr_blocks, cell_metrics_blocks, cells_blocks, partition_blocks,
      hsgr_blocks.
    destruct (hsgr config), (partition config), (cells config),
      (cell_metrics config), (mldgr config);
      vm_compute; intuition discriminate.
Qed.

Lemma touches_PopulateData :
  touches layout base (PopulateData abi config layout base) tt
    (stamped_blocks config).
Proof.
  intros mem.
  destruct (PopulateData abi config layout base mem) as [[[] mem'] |] eqn:Hrun;
    [| exact I].
  split; [reflexivity |]. intros addr Hno.
  pose proof Hrun as Hrun'. unfold PopulateData in Hrun'.
  apply bind_inv in Hrun' as [[] [mem1 [E1 _]]].
  rewrite (touches_after_file_index_path mem mem1 mem' E1 Hrun).
  - pose proof (touches_file_index_path mem) as H1. rewrite E1 in H1.
    destruct H1 as [_ H1]. apply H1. intros bid [<- | []] Hbid.
    apply Hno; [| exact Hbid].
    unfold stamped_blocks. rewrite !in_app_iff. do 6 right.
    apply (incl_check [FILE_INDEX_PATH]); [vm_compute; reflexivity | left; reflexivity].
  - intros bid Hin _ Hbid. apply Hno; assumption.
Qed.

End Touches.

(** X15: the populate pass writes inside the region only.  With a layout
    whose room fits the address space behind the base, and whose blocks have
    room for what [ReadInto] and the file index path put into them, every
    byte in front of the base and every byte from [GetSizeOfLayout] bytes
    behind it on is after the pass what it was before. *)
Theorem PopulateData_writes_inside_region (abi : ABI) (config : StorageConfig)
    (layout : DataLayout) (base : Z) (mem mem' : Memory) :
  layout_ok layout = true -> 0 <= base -> base + size_sum layout < 2 ^ 64 ->
  reads_fit abi config layout ->
  PopulateData abi config layout base mem = Ok (tt, mem') ->
  forall a, a < base \/ base + GetSizeOfLayout layout <= a -> mem' a = mem a.
Proof.
  intros Hok Hbase Hfit Hreads Hrun a Ha.
  pose proof (touches_PopulateData abi config layout base Hok Hbase Hfit Hreads mem)
    as H.
  rewrite Hrun in H. destruct H as [_ H]. apply H. intros bid _ Hbid Hfoot.
  pose proof (layout_ok_spec layout Hok) as [_ Hall].
  pose proof (bound_sum_nonneg _ Hall) as Hnn. fold (size_sum layout) in Hnn.
  rewrite GetSizeOfLayout_wrap, wrap64_small in Ha by (assumption || lia).
  pose proof (block_room layout base Hok Hbase Hfit bid Hbid).
  unfold footprint in Hfoot. lia.
Qed.

Lemma demo_run (config : StorageConfig) :
  is_Ok (PopulateData demo_abi config (sized demo_abi config) demo_base zero_memory)
  = true ->
  PopulateData demo_abi config (sized demo_abi config) demo_base zero_memory
  = Ok (tt, memory_of (PopulateData demo_abi config (sized demo_abi config)
                         demo_base zero_memory)).
Proof. intros H. apply Ok_memory_of; [exact H | intros []; reflexivity]. Qed.

Lemma PopulateData_writes_inside_region_witness :
  memory_of (PopulateData demo_abi demo_config (sized demo_abi demo_config)
               demo_base zero_memory) (demo_base - 1)
  = zero_memory (demo_base - 1).
Proof.
  apply (PopulateData_writes_inside_region demo_abi demo_config
           (sized demo_abi demo_config) demo_base zero_memory).
  - vm_compute. reflexivity.
  - vm_compute. discriminate.
  - vm_compute. reflexivity.
  - apply PopulateLayout_reads_fit; [vm_compute; reflexivity | vm_compute; discriminate].
  - apply demo_run. vm_compute. reflexivity.
  - left. vm_compute. reflexivity.
Defined.

(** X16: the populate pass leaves the blocks alone that it does not take a
    pointer to.  In a fresh region their bytes, canaries included, are still
    zero when the pass returns, and a reader that asks for such a block with
    [GetBlockPtr<T, false>] gets the start-canary exception. *)
Theorem PopulateData_leaves_unfetched_blocks (abi : ABI) (config : StorageConfig)
    (layout : DataLayout) (base : Z) (mem' : Memory) (k : BlockID) :
  layout_ok layout = true -> 0 <= base -> base + size_sum layout < 2 ^ 64 ->
  reads_fit abi config layout ->
  PopulateData abi config layout base zero_memory = Ok (tt, mem') ->
  (k < NUM_BLOCKS)%nat -> ~ In k (stamped_blocks config) ->
  (forall a, footprint layout base k a -> mem' a = zero) /\
  GetBlockPtr false layout base k mem' = Throw (CanaryCorrupt StartCanary k).
Proof.
  intros Hok Hbase Hfit Hreads Hrun Hk Hnot.
  pose proof (touches_PopulateData abi config layout base Hok Hbase Hfit Hreads zero_memory) as H.
  rewrite Hrun in H. destruct H as [_ H].
  assert (Hzero : forall a, footprint layout base k a -> mem' a = zero).
  { intros a Ha. rewrite H; [reflexivity |]. intros bid Hin Hbid.
    apply (footprint_disjoint layout base Hok Hbase Hfit k bid a);
      [exact Hk | exact Hbid | | exact Ha].
    intros ->. contradiction. }
  split; [exact Hzero |].
  pose proof (block_size_nonneg layout Hok k Hk) as Hsize.
  rewrite (GetBlockPtr_check_in_region layout base Hok Hbase Hfit k _ Hk).
  rewrite (canary_alive_ext zero_memory mem'); [reflexivity |].
  intros a Ha. symmetry. apply Hzero. unfold footprint. lia.
Qed.

Lemma PopulateData_leaves_unfetched_blocks_witness :
  GetBlockPtr false (sized demo_abi mandatory_config) demo_base MLD_LEVEL_DATA
    (memory_of (PopulateData demo_abi mandatory_config
                  (sized demo_abi mandatory_config) demo_base zero_memory))
  = Throw (CanaryCorrupt StartCanary MLD_LEVEL_DATA).
Proof.
  apply (PopulateData_leaves_unfetched_blocks demo_abi mandatory_config
           (sized demo_abi mandatory_config) demo_base).
  - vm_compute. reflexivity.
  - vm_compute. discriminate.
  - vm_compute. reflexivity.
  - apply PopulateLayout_reads_fit; [vm_compute; reflexivity | vm_compute; discriminate].
  - apply demo_run. vm_compute. reflexivity.
  - unfold MLD_LEVEL_DATA, NUM_BLOCKS. lia.
  - vm_compute. intuition discriminate.
Defined.

(** X17: the file index path is stored first and survives the rest of the
    pass: when the pass returns, the payload of the [FILE_INDEX_PATH] block
    starts with the characters of the absolute path, and every byte of the
    block behind them is zero, so that the path is terminated whenever the
    block is longer than the path. *)
Theorem PopulateData_file_index_path (abi : ABI) (config : StorageConfig)
    (layout : DataLayout) (base : Z) (mem mem' : Memory) :
  layout_ok layout = true -> 0 <= base -> base + size_sum layout < 2 ^ 64 ->
  reads_fit abi config layout ->
  PopulateData abi config layout base mem = Ok (tt, mem') ->
  bytes_at mem' (GetAlignedBlockPtr layout base FILE_INDEX_PATH)
    (length (absolute_file_index_path config))
  = absolute_file_index_path config /\
  forall j,
    Z.of_nat (length (absolute_file_index_path config)) <= j
    < GetBlockSize layout FILE_INDEX_PATH ->
    mem' (GetAlignedBlockPtr layout base FILE_INDEX_PATH + j) = zero.
Proof.
  intros Hok Hbase Hfit Hreads Hrun.
  assert (Hfip : (FILE_INDEX_PATH < NUM_BLOCKS)%nat)
    by (unfold FILE_INDEX_PATH, NUM_BLOCKS; lia).
  pose proof Hrun as Hrun'. unfold PopulateData in Hrun'.
  apply bind_inv in Hrun' as [[] [mem1 [E1 _]]].
  assert (Hkeep : forall j, 0 <= j < GetBlockSize layout FILE_INDEX_PATH ->
            mem' (GetAlignedBlockPtr layout base FILE_INDEX_PATH + j)
            = mem1 (GetAlignedBlockPtr layout base FILE_INDEX_PATH + j)).
  { intros j Hj.
    apply (touches_after_file_index_path abi config layout base Hok Hbase Hfit Hreads
             mem mem1 mem' E1 Hrun).
    intros bid _ Hne Hbid.
    apply (footprint_disjoint layout base Hok Hbase Hfit FILE_INDEX_PATH bid);
      [exact Hfip | exact Hbid | congruence |].
    unfold footprint. rewrite sizeof_CANARY_eq. lia. }
  unfold file_index_path in E1.
  apply bind_inv in E1 as [ptr [mem0 [E0 E1]]].
  unfold block_ptr in E0.
  destruct (GetBlockPtr_write_in_region layout base Hok Hbase Hfit FILE_INDEX_PATH
              mem Hfip) as [mem0' [E0' _]].
  rewrite E0' in E0. injection E0 as <- <-.
  unfold bind, modify in E1. injection E1 as <-.
  destruct Hreads as [Hpath _]. split.
  - rewrite <- (bytes_at_copy_to
                  (read_to mem0' (GetAlignedBlockPtr layout base FILE_INDEX_PATH)
                     (GetBlockSize layout FILE_INDEX_PATH) (fun _ => zero))
                  (GetAlignedBlockPtr layout base FILE_INDEX_PATH)
                  (absolute_file_index_path config)) at 2.
    apply bytes_at_ext. intros a Ha.
    replace a with (GetAlignedBlockPtr layout base FILE_INDEX_PATH
                    + (a - GetAlignedBlockPtr layout base FILE_INDEX_PATH)) by lia.
    apply Hkeep. lia.
  - intros j Hj. rewrite Hkeep by lia.
    rewrite copy_to_outside by lia. unfold read_to.
    replace ((GetAlignedBlockPtr layout base FILE_INDEX_PATH
              <=? GetAlignedBlockPtr layout base FILE_INDEX_PATH + j)
             && (GetAlignedBlockPtr layout base FILE_INDEX_PATH + j
                 <? GetAlignedBlockPtr layout base FILE_INDEX_PATH
                    + GetBlockSize layout FILE_INDEX_PATH)) with true; [reflexivity |].
    symmetry. apply andb_true_intro. split; [apply Z.leb_le | apply Z.ltb_lt]; lia.
Qed.

Lemma PopulateData_file_index_path_witness :
  bytes_at (memory_of (PopulateData demo_abi demo_config (sized demo_abi demo_config)
                         demo_base zero_memory))
    (GetAlignedBlockPtr (sized demo_abi demo_config) demo_base FILE_INDEX_PATH)
    (length (absolute_file_index_path demo_config))
  = absolute_file_index_path demo_config.
Proof.
  apply (PopulateData_file_index_path demo_abi demo_config
           (sized demo_abi demo_config) demo_base zero_memory).
  - vm_compute. reflexivity.
  - vm_compute. discriminate.
  - vm_compute. reflexivity.
  - apply PopulateLayout_reads_fit; [vm_compute; reflexivity | vm_compute; discriminate].
  - apply demo_run. vm_compute. reflexivity.
Defined.

(** * Further properties of the publisher *)

Section RunOutcomes.

Variable abi : ABI.
Variable config : StorageConfig.
Variable env : Environment.

(** A run that throws has thrown in the sizing pass or in the populate
    pass. *)
Lemma Run_thrown max_wait w e w' :
  Run abi config env max_wait w = Thrown e w' ->
  (PopulateLayout abi config new_DataLayout = Throw e /\ w' = opened w) \/
  (exists layout,
     PopulateLayout abi config new_DataLayout = Ok layout /\
     PopulateData abi config layout
       (ptr_add (shared_memory_ptr env) (sizeof_layout env)) (fresh_segment env layout)
     = Throw e /\
     w' = loading env w layout).
Proof.
  rewrite Run_cases. intros H.
  destruct (PopulateLayout abi config new_DataLayout) as [layout | e0].
  - right. exists layout. split; [reflexivity |]. cbv zeta in H.
    destruct (PopulateData abi config layout _ _) as [[[] mem] | e1] eqn:E.
    + destruct (0 <=? max_wait), (lock_granted env); discriminate H.
    + injection H as <- <-. split; reflexivity.
  - left. injection H as <- <-. split; reflexivity.
Qed.

(** A run that returns has populated the region that it publishes. *)
Lemma Run_returned_populated max_wait w code w' :
  Run abi config env max_wait w = Returned code w' ->
  exists layout mem,
    PopulateLayout abi config new_DataLayout = Ok layout /\
    PopulateData abi config layout
      (ptr_add (shared_memory_ptr env) (sizeof_layout env)) (fresh_segment env layout)
    = Ok (tt, mem) /\
    let next :=
      mkSharedDataTimestamp (next_of (region (data w)))
        (wrap32 (timestamp (data w) + 1)) in
    (lock_granted env = true /\
     w' = published (prepared env w layout mem) (region (data w)) next) \/
    (lock_granted env = false /\ 0 <= max_wait /\
     w' = published (recovered max_wait (prepared env w layout mem)) REGION_NONE next).
Proof.
  rewrite Run_cases.
  destruct (PopulateLayout abi config new_DataLayout) as [layout |]; [| discriminate].
  cbv zeta.
  destruct (PopulateData abi config layout _ _) as [[[] mem] |] eqn:E;
    [| discriminate].
  intros H. destruct (lock_granted env) eqn:Hlock;
    [| destruct (Z.leb_spec 0 max_wait) as [Hw | Hw]]; try discriminate H;
    injection H as <- <-; exists layout, mem;
    (split; [reflexivity |]); (split; [exact E |]);
    [left | right]; repeat split; assumption.
Qed.

End RunOutcomes.

Lemma PopulateLayout_throws_metrics abi config l e :
  PopulateLayout abi config l = Throw e -> e = TooManyMetrics NUM_METRICS.
Proof.
  unfold PopulateLayout, layout_hsgr, layout_cell_metrics. cbv zeta.
  destruct (hsgr config) as [h |];
    [destruct (NUM_METRICS <? hsgr_num_metrics h); [congruence |] |];
    (destruct (cell_metrics config) as [c |];
     [destruct (NUM_METRICS <? num_metric c); [congruence | discriminate]
     | discriminate]).
Qed.

Lemma regions_next_prepared env w layout mem :
  regions (prepared env w layout mem) (next_of (region (data w)))
  = Some (mkRegion (wrap64 (sizeof_layout env + GetSizeOfLayout layout))
            (Some layout) mem).
Proof. unfold prepared, loading, opened. simpl. rewrite decide_True by reflexivity. reflexivity. Qed.

Lemma regions_published_other w in_use next r :
  r <> in_use -> regions (published w in_use next) r = regions w r.
Proof.
  intros Hr. unfold published. cbv zeta.
  match goal with |- context [if ?c then _ else _] => destruct c end;
    simpl; rewrite ?decide_False by exact Hr; reflexivity.
Qed.

(** The world in which the sizing pass starts: the monitor is there, no
    region but the next one has changed, the next region is gone, and no one
    has been notified. *)
Lemma opened_spec w :
  monitor (opened w) = Some (data w) /\
  (forall r, r <> next_of (region (data w)) -> regions (opened w) r = regions w r) /\
  (exists new,
     events (opened w) = events w ++ new /\
     Forall (fun ev =>
               match ev with
               | CreateMonitor _ | LogWarning (OldRegionStillExists _) => True
               | RemoveRegion r => r = next_of (region (data w))
               | _ => False
               end) new) /\
  regions (opened w) (next_of (region (data w))) = None.
Proof.
  unfold opened. cbv zeta. unfold Monitor_open_or_create, data.
  destruct (monitor w) as [d |] eqn:Em;
    match goal with
    | |- context [RegionExists ?a ?b] => destruct (RegionExists a b) eqn:Ex
    end; simpl; rewrite ?Em; (split; [reflexivity |]); split;
    try (intros r Hr; rewrite ?decide_False by exact Hr; reflexivity);
    (split; [eexists; rewrite <- ?app_assoc;
             split; [try reflexivity; symmetry; apply app_nil_r
                    | repeat constructor] |]);
    rewrite ?decide_True by reflexivity; try reflexivity;
    unfold RegionExists in Ex; apply bool_decide_eq_false in Ex; simpl in Ex;
    rewrite ?Em in Ex; simpl in Ex;
    match goal with
    | |- ?x = None => destruct x eqn:Er; [exfalso; apply Ex; eauto | reflexivity]
    end.
Qed.

(** X18: a load that fails publishes nothing, whatever makes it fail.  For
    every sizing pass and every populate pass (so also for passes whose
    readers fail on a fingerprint or on a short read) and whether or not the
    segment is refused: when the run throws, the monitor holds the region
    and timestamp it held at the start (the initial ones if it had to be
    created), no one has been notified, the monitor has not been removed,
    and every region other than the next one is as it was.  What is thrown
    is the exception of the sizing pass or the refusal of the segment, and
    then there is no next region; or it is the exception of the populate
    pass, and then the next region is left behind with the layout at its
    front, created but unpublished. *)
Theorem Run_failed_load_publishes_nothing (env : Environment) (refused : Z -> bool)
    (populate_layout : DataLayout -> result DataLayout)
    (populate_data : DataLayout -> Z -> Mem unit)
    (max_wait : Z) (w : World) (e : exception) (w' : World) :
  Run_with env refused populate_layout populate_data max_wait w = Thrown e w' ->
  monitor w' = Some (data w) /\
  (forall r, r <> next_of (region (data w)) -> regions w' r = regions w r) /\
  (exists new,
     events w' = events w ++ new /\
     Forall (fun ev =>
               match ev with
               | CreateMonitor _ | LogWarning (OldRegionStillExists _) => True
               | RemoveRegion r | CreateRegion r _ => r = next_of (region (data w))
               | _ => False
               end) new) /\
  ((regions w' (next_of (region (data w))) = None /\
    (populate_layout new_DataLayout = Throw e \/
     exists layout,
       populate_layout new_DataLayout = Ok layout /\
       refused (wrap64 (sizeof_layout env + GetSizeOfLayout layout)) = true /\
       e = Failure (RegionAllocationFailed
                      (wrap64 (sizeof_layout env + GetSizeOfLayout layout))))) \/
   (exists layout,
      populate_layout new_DataLayout = Ok layout /\
      refused (wrap64 (sizeof_layout env + GetSizeOfLayout layout)) = false /\
      populate_data layout (ptr_add (shared_memory_ptr env) (sizeof_layout env))
        (memcpy zero_memory (shared_memory_ptr env) (layout_object env layout)
           (sizeof_layout env))
      = Throw e /\
      exists bytes,
        regions w' (next_of (region (data w)))
        = Some (mkRegion (wrap64 (sizeof_layout env + GetSizeOfLayout layout))
                  (Some layout) bytes))).
Proof.
  rewrite Run_with_cases. intros H.
  destruct (opened_spec w) as [Hmon [Hreg [[new [Hev Hkinds]] Hnone]]].
  assert (Hkinds' :
            Forall (fun ev =>
                      match ev with
                      | CreateMonitor _ | LogWarning (OldRegionStillExists _) => True
                      | RemoveRegion r | CreateRegion r _ =>
                          r = next_of (region (data w))
                      | _ => False
                      end) new).
  { eapply Forall_impl; [exact Hkinds |]. intros [] Hx; try exact Hx; destruct Hx. }
  destruct (populate_layout new_DataLayout) as [layout | e0] eqn:El.
  - cbv zeta in H.
    destruct (refused _) eqn:Eref.
    + injection H as <- <-.
      split; [exact Hmon |]. split; [exact Hreg |].
      split; [exists new; split; assumption |].
      left. split; [exact Hnone |]. right. exists layout.
      split; [reflexivity |]. split; [exact Eref | reflexivity].
    + destruct (populate_data layout _ _) as [[[] mem] | e1] eqn:Ed.
      * destruct (lock_granted env); [discriminate H |].
        destruct (0 <=? max_wait); discriminate H.
      * injection H as <- <-. unfold loading. cbv zeta.
        split; [exact Hmon |].
        split; [intros r Hr; simpl; rewrite !decide_False by exact Hr;
                apply Hreg, Hr |].
        split.
        -- eexists. simpl. rewrite Hev, <- app_assoc. split; [reflexivity |].
           apply Forall_app. split; [exact Hkinds' | repeat constructor].
        -- right. exists layout. split; [reflexivity |]. split; [exact Eref |].
           split; [exact Ed |]. eexists. simpl.
           rewrite decide_True by reflexivity. reflexivity.
  - injection H as <- <-.
    split; [exact Hmon |]. split; [exact Hreg |].
    split; [exists new; split; assumption |].
    left. split; [exact Hnone |]. left. reflexivity.
Qed.

Lemma Run_failed_load_publishes_nothing_witness :
  monitor (world_of
             (Run_with demo_env (fun _ => false)
                (fun _ => Throw (Failure (FingerprintMismatch ".osrm.names")))
                (PopulateData demo_abi demo_config) 2 (live_world 5)))
  = Some (mkSharedDataTimestamp REGION_1 5).
Proof.
  apply (Run_failed_load_publishes_nothing demo_env (fun _ => false)
           (fun _ => Throw (Failure (FingerprintMismatch ".osrm.names")))
           (PopulateData demo_abi demo_config) 2 (live_world 5)
           (Failure (FingerprintMismatch ".osrm.names"))).
  reflexivity.
Defined.

Lemma data_monitor w d : monitor w = Some d -> data w = d.
Proof. intros H. unfold data. rewrite H. reflexivity. Qed.

(** What a run that returns leaves: the monitor on the next region, and the
    next region holding the layout and the populated bytes. *)
Lemma Run_returned_world abi config env max_wait w code w' :
  Run abi config env max_wait w = Returned code w' ->
  exists layout mem,
    PopulateLayout abi config new_DataLayout = Ok layout /\
    PopulateData abi config layout
      (ptr_add (shared_memory_ptr env) (sizeof_layout env)) (fresh_segment env layout)
    = Ok (tt, mem) /\
    monitor w'
    = Some (mkSharedDataTimestamp (next_of (region (data w)))
              (wrap32 (timestamp (data w) + 1))) /\
    regions w' (next_of (region (data w)))
    = Some (mkRegion (wrap64 (sizeof_layout env + GetSizeOfLayout layout))
              (Some layout) mem).
Proof.
  intros H.
  apply Run_returned_populated in H as [layout [mem [Hl [Hd H]]]]. cbv zeta in H.
  exists layout, mem. split; [exact Hl |]. split; [exact Hd |].
  destruct H as [[_ ->] | [_ [_ ->]]].
  - split; [eapply monitor_published, monitor_prepared |].
    destruct (decide (region (data w) = REGION_NONE)) as [E | E].
    + rewrite E at 1. rewrite (proj2 (published_NONE _ _)).
      apply regions_next_prepared.
    + rewrite regions_published_other by (apply next_of_differs; exact E).
      apply regions_next_prepared.
  - split; [eapply monitor_published, monitor_recovered |].
    rewrite (proj2 (published_NONE _ _)), regions_recovered.
    apply regions_next_prepared.
Qed.

(** X19: the monitor never names a region that is not there.  After a run
    that returns, the region that the monitor names exists, has the size
    [sizeof(layout) + GetSizeOfLayout()], and holds the layout of the sizing
    pass and the bytes that the populate pass left, started behind the
    layout on the fresh segment: zero bytes but for the [sizeof(layout)]
    bytes of the layout that [memcpy] has put at the front. *)
Theorem Run_publishes_populated_region (abi : ABI) (config : StorageConfig)
    (env : Environment) (max_wait : Z) (w : World) (code : Z) (w' : World) :
  Run abi config env max_wait w = Returned code w' ->
  region (data w') <> REGION_NONE /\
  exists layout mem,
    PopulateLayout abi config new_DataLayout = Ok layout /\
    PopulateData abi config layout
      (ptr_add (shared_memory_ptr env) (sizeof_layout env))
      (memcpy zero_memory (shared_memory_ptr env) (layout_object env layout)
         (sizeof_layout env))
    = Ok (tt, mem) /\
    regions w' (region (data w'))
    = Some (mkRegion (wrap64 (sizeof_layout env + GetSizeOfLayout layout))
              (Some layout) mem).
Proof.
  intros H.
  apply Run_returned_world in H as [layout [mem [Hl [Hd [Hmon Hreg]]]]].
  rewrite (data_monitor _ _ Hmon). simpl. split.
  - destruct (region (data w)); discriminate.
  - exists layout, mem. split; [exact Hl |]. split; [exact Hd | exact Hreg].
Qed.

Lemma Run_publishes_populated_region_witness :
  is_Some (regions (world_of (Run demo_abi demo_config demo_env 2 (live_world 5)))
             (region (data (world_of (Run demo_abi demo_config demo_env 2
                                        (live_world 5)))))).
Proof.
  destruct (Run_publishes_populated_region demo_abi demo_config demo_env 2
              (live_world 5) EXIT_SUCCESS
              (world_of (Run demo_abi demo_config demo_env 2 (live_world 5))))
    as [_ [layout [mem [_ [_ H]]]]].
  - apply returned_spec. vm_compute. reflexivity.
  - rewrite H. eexists. reflexivity.
Defined.

Lemma next_of_next_of r : r <> REGION_NONE -> next_of (next_of r) = r.
Proof. destruct r; simpl; congruence. Qed.

Lemma wrap32_succ_succ t : wrap32 (wrap32 (t + 1) + 1) = wrap32 (t + 2).
Proof.
  unfold wrap32, wrap. rewrite Zplus_mod_idemp_l. f_equal. lia.
Qed.

(** X20: two runs in a row.  When both runs return and the second takes the
    lock, the monitor ends two timestamps (modulo [2^32]) later; the region
    that the first run published has been removed by the second, and the
    region that the second published exists; and if a region was live before
    the first run, the second run publishes into that same region id
    again. *)
Theorem Run_twice_alternates (abi : ABI) (config : StorageConfig)
    (env env' : Environment) (max_wait max_wait' : Z) (w : World)
    (code code' : Z) (w1 w2 : World) :
  Run abi config env max_wait w = Returned code w1 ->
  Run abi config env' max_wait' w1 = Returned code' w2 ->
  lock_granted env' = true ->
  timestamp (data w2) = wrap32 (timestamp (data w) + 2) /\
  region (data w2) = next_of (next_of (region (data w))) /\
  (region (data w) <> REGION_NONE -> region (data w2) = region (data w)) /\
  regions w2 (region (data w1)) = None /\
  is_Some (regions w2 (region (data w2))).
Proof.
  intros H1 H2 Hlock.
  apply Run_returned_world in H1 as [layout1 [mem1 [_ [_ [Hmon1 Hreg1]]]]].
  pose proof (data_monitor _ _ Hmon1) as Hd1.
  pose proof H2 as H2'.
  apply Run_returned_world in H2 as [layout2 [mem2 [_ [_ [Hmon2 Hreg2]]]]].
  pose proof (data_monitor _ _ Hmon2) as Hd2.
  rewrite Hd1 in Hd2. simpl in Hd2. rewrite wrap32_succ_succ in Hd2.
  rewrite Hd2. simpl. split; [reflexivity |]. split; [reflexivity |].
  split; [apply next_of_next_of |]. split.
  - apply Run_returned_populated in H2' as [layout [mem [_ [_ H2']]]].
    cbv zeta in H2'. destruct H2' as [[_ ->] | [Hl _]]; [| congruence].
    assert (Hne : region (data w1) <> REGION_NONE)
      by (rewrite Hd1; simpl; destruct (region (data w)); discriminate).
    apply (published_in_use _ _ _ Hne).
    rewrite regions_prepared by (apply not_eq_sym, next_of_differs; exact Hne).
    rewrite Hd1. simpl. rewrite Hreg1. eauto.
  - rewrite Hd1 in Hreg2. simpl in Hreg2. rewrite Hreg2. eauto.
Qed.

Lemma Run_twice_alternates_witness :
  region (data (world_of
                  (Run demo_abi demo_config demo_env 2
                     (world_of (Run demo_abi demo_config demo_env 2 (live_world 5))))))
  = REGION_1.
Proof.
  apply (Run_twice_alternates demo_abi demo_config demo_env demo_env 2 2 (live_world 5)
           EXIT_SUCCESS EXIT_SUCCESS
           (world_of (Run demo_abi demo_config demo_env 2 (live_world 5)))).
  - apply returned_spec. vm_compute. reflexivity.
  - apply returned_spec. vm_compute. reflexivity.
  - reflexivity.
  - discriminate.
Defined.





(** X22: without a timeout the run waits for the lock.  With a negative
    [max_wait] and a mutex that cannot be acquired the run never returns; it
    throws what the load throws, and otherwise stays in front of the lock with
    the next region created and populated, the monitor still holding what it
    held at the start, and the monitor not removed. *)
Theorem Run_without_timeout_waits (abi : ABI) (config : StorageConfig)
    (env : Environment) (max_wait : Z) (w : World) :
  max_wait < 0 -> lock_granted env = false ->
  match Run abi config env max_wait w with
  | Returned _ _ => False
  | Thrown e _ =>
      PopulateLayout abi config new_DataLayout = Throw e \/
      first_mismatch config = Some e
  | Blocked w' =>
      monitor w' = Some (data w) /\
      is_Some (regions w' (next_of (region (data w)))) /\
      exists new,
        events w' = events w ++ new /\ ~ In RemoveMonitor new /\ ~ In NotifyAll new
  end.
Proof.
  intros Hwait Hlock.
  destruct (Run abi config env max_wait w) as [code w' | e w' | w'] eqn:H.
  - apply Run_returned in H as [_ [layout [mem [_ H]]]]. cbv zeta in H.
    destruct H as [[Hl _] | [_ [Hw _]]]; [congruence | lia].
  - apply Run_thrown in H as [[Hthrow _] | [layout [_ [Hthrow _]]]].
    + left. exact Hthrow.
    + right.
      pose proof (PopulateData_result abi config layout
                    (ptr_add (shared_memory_ptr env) (sizeof_layout env))
                    (fresh_segment env layout))
        as Hres.
      destruct (first_mismatch config) as [e0 |]; [congruence |].
      destruct Hres as [mem' Hres]. congruence.
  - rewrite Run_cases in H.
    destruct (PopulateLayout abi config new_DataLayout) as [layout |];
      [| discriminate H].
    cbv zeta in H.
    destruct (PopulateData abi config layout _ _) as [[[] mem] |];
      [| discriminate H].
    rewrite Hlock in H. destruct (Z.leb_spec 0 max_wait); [lia |].
    injection H as <-.
    split; [apply monitor_prepared |].
    split; [rewrite regions_next_prepared; eauto |].
    destruct (events_prepared_kinds env w layout mem) as [before [E Hkinds]].
    exists before. split; [exact E |].
    rewrite Forall_forall in Hkinds.
    split; intros Hin; apply list_elem_of_In, Hkinds in Hin; exact Hin.
Qed.

Lemma Run_without_timeout_waits_witness :
  exists w',
    Run demo_abi demo_config stuck_env (-1) (live_world 5) = Blocked w' /\
    monitor w' = Some (mkSharedDataTimestamp REGION_1 5).
Proof.
  pose proof (Run_without_timeout_waits demo_abi demo_config stuck_env (-1)
                (live_world 5) ltac:(lia) eq_refl) as H.
  destruct (Run demo_abi demo_config stuck_env (-1) (live_world 5))
    as [code w' | e w' | w'] eqn:E.
  - destruct H.
  - destruct H as [H | H]; vm_compute in H; discriminate H.
  - exists w'. split; [reflexivity | exact (proj1 H)].
Defined.

Lemma events_prepared_shape env w layout mem :
  exists pre,
    events (prepared env w layout mem)
    = events w ++ pre ++
      [CreateRegion (next_of (region (data w)))
         (wrap64 (sizeof_layout env + GetSizeOfLayout layout))] /\
    Forall (fun e =>
              match e with
              | CreateMonitor _ | LogWarning (OldRegionStillExists _) => True
              | RemoveRegion r => r = next_of (region (data w))
              | _ => False
              end) pre.
Proof.
  unfold prepared, loading, opened, Monitor_open_or_create.
  destruct (monitor w) as [d |];
    match goal with |- context [RegionExists ?a ?b] => destruct (RegionExists a b) end;
    simpl; rewrite <- ?app_assoc.
  - exists [LogWarning (OldRegionStillExists (next_of (region (data w))));
            RemoveRegion (next_of (region (data w)))].
    split; [reflexivity | repeat constructor].
  - exists []. split; [reflexivity | constructor].
  - exists [CreateMonitor (mkSharedDataTimestamp REGION_NONE 0);
            LogWarning (OldRegionStillExists (next_of (region (data w))));
            RemoveRegion (next_of (region (data w)))].
    split; [reflexivity | repeat constructor].
  - exists [CreateMonitor (mkSharedDataTimestamp REGION_NONE 0)].
    split; [reflexivity | repeat constructor].
Qed.

Lemma events_published_shape w in_use next :
  exists after,
    events (published w in_use next) = events w ++ NotifyAll :: after /\
    Forall (fun e =>
              match e with
              | OpenRegion r | RemoveRegion r | WaitForDetach r =>
                  r = in_use /\ in_use <> REGION_NONE
              | _ => False
              end) after.
Proof.
  unfold published. cbv zeta.
  destruct (decide (in_use = REGION_NONE)) as [E | E].
  - rewrite (bool_decide_true _ E). simpl. exists []. split; [reflexivity | constructor].
  - rewrite (bool_decide_false _ E). simpl.
    match goal with |- context [RegionExists ?a ?b] => destruct (RegionExists a b) end;
      simpl; rewrite <- ?app_assoc.
    + exists [OpenRegion in_use; RemoveRegion in_use; WaitForDetach in_use].
      split; [reflexivity | repeat constructor; assumption].
    + exists []. split; [reflexivity | constructor].
Qed.

(** X23: clients are notified once, after the load and before the cleanup.
    In a run that returns, the new events consist of a part that creates the
    next region, then the one notification, then the cleanup.  Before the
    notification no region but the next one is removed, so the region in use
    stays; after it nothing is touched but the region that was in use, and
    that only when the lock was taken. *)
Theorem Run_notifies_between_load_and_cleanup (abi : ABI) (config : StorageConfig)
    (env : Environment) (max_wait : Z) (w : World) (code : Z) (w' : World) :
  Run abi config env max_wait w = Returned code w' ->
  exists before after size,
    events w' = events w ++ before ++ NotifyAll :: after /\
    In (CreateRegion (next_of (region (data w))) size) before /\
    ~ In NotifyAll before /\
    (forall r, In (RemoveRegion r) before -> r = next_of (region (data w))) /\
    Forall (fun e =>
              match e with
              | OpenRegion r | RemoveRegion r | WaitForDetach r =>
                  r = region (data w) /\ r <> REGION_NONE /\ lock_granted env = true
              | _ => False
              end) after.
Proof.
  intros H. apply Run_returned in H as [_ [layout [mem [_ H]]]]. cbv zeta in H.
  destruct (events_prepared_shape env w layout mem) as [pre [Epre Hpre]].
  rewrite Forall_forall in Hpre.
  destruct H as [[Hlock ->] | [Hlock [_ ->]]].
  - destruct (events_published_shape (prepared env w layout mem) (region (data w))
                (mkSharedDataTimestamp (next_of (region (data w)))
                   (wrap32 (timestamp (data w) + 1)))) as [after [E Hafter]].
    exists (pre ++ [CreateRegion (next_of (region (data w)))
                      (wrap64 (sizeof_layout env + GetSizeOfLayout layout))]),
      after, (wrap64 (sizeof_layout env + GetSizeOfLayout layout)).
    split; [rewrite E, Epre, <- !app_assoc; reflexivity |].
    split; [apply in_or_app; right; left; reflexivity |].
    split; [| split].
    + intros Hin. apply in_app_or in Hin as [Hin | [Hin | []]]; [| discriminate Hin].
      apply list_elem_of_In, Hpre in Hin. exact Hin.
    + intros r Hin. apply in_app_or in Hin as [Hin | [Hin | []]]; [| discriminate Hin].
      apply list_elem_of_In, Hpre in Hin. exact Hin.
    + eapply Forall_impl; [exact Hafter |]. intros [] Hx; try exact Hx;
        destruct Hx as [-> Hne]; repeat split; assumption.
  - destruct (events_published_shape
                (recovered max_wait (prepared env w layout mem)) REGION_NONE
                (mkSharedDataTimestamp (next_of (region (data w)))
                   (wrap32 (timestamp (data w) + 1)))) as [after [E Hafter]].
    exists (pre ++ [CreateRegion (next_of (region (data w)))
                      (wrap64 (sizeof_layout env + GetSizeOfLayout layout));
                    LogWarning (CouldNotAquireLock max_wait); RemoveMonitor;
                    CreateMonitor (mkSharedDataTimestamp REGION_NONE 0)]),
      after, (wrap64 (sizeof_layout env + GetSizeOfLayout layout)).
    split; [rewrite E, events_recovered, Epre, <- !app_assoc; reflexivity |].
    split; [apply in_or_app; right; left; reflexivity |].
    split; [| split].
    + intros Hin. apply in_app_or in Hin as [Hin | Hin].
      * apply list_elem_of_In, Hpre in Hin. exact Hin.
      * simpl in Hin. intuition discriminate.
    + intros r Hin. apply in_app_or in Hin as [Hin | Hin].
      * apply list_elem_of_In, Hpre in Hin. exact Hin.
      * simpl in Hin. intuition discriminate.
    + eapply Forall_impl; [exact Hafter |]. intros [] Hx; try exact Hx;
        destruct Hx as [_ Hne]; contradiction.
Qed.

Lemma Run_notifies_between_load_and_cleanup_witness :
  exists before after size,
    events (world_of (Run demo_abi demo_config demo_env 2 (live_world 5)))
    = events (live_world 5) ++ before ++ NotifyAll :: after /\
    In (CreateRegion (next_of (region (data (live_world 5)))) size) before /\
    ~ In NotifyAll before /\
    (forall r, In (RemoveRegion r) before -> r = next_of (region (data (live_world 5)))) /\
    Forall (fun e =>
              match e with
              | OpenRegion r | RemoveRegion r | WaitForDetach r =>
                  r = region (data (live_world 5)) /\ r <> REGION_NONE /\
                  lock_granted demo_env = true
              | _ => False
              end) after.
Proof.
  apply (Run_notifies_between_load_and_cleanup demo_abi demo_config demo_env 2
           (live_world 5) EXIT_SUCCESS).
  apply returned_spec. vm_compute. reflexivity.
Defined.


(** * The populate pass inside the segment of the run *)

Lemma PopulateLayout_file_index_path_block abi config layout :
  PopulateLayout abi config new_DataLayout = Ok layout ->
  blocks layout !!! FILE_INDEX_PATH
  = block_of abi T_char (Z.of_nat (length (absolute_file_index_path config)) + 1).
Proof.
  unfold PopulateLayout. intros H.
  destruct (layout_hsgr abi config (layout_front abi config new_DataLayout))
    as [l1 |] eqn:E1; [| discriminate H].
  destruct (layout_cell_metrics abi config _) as [l2 |] eqn:E2; [| discriminate H].
  injection H as <-.
  rewrite layout_mldgr_frame by (compute; lia).
  rewrite (layout_cell_metrics_frame abi config _ l2 _ E2) by (compute; lia).
  rewrite layout_cells_frame, layout_partition_frame by (compute; lia).
  unfold layout_middle. repeat (rewrite SetBlock_other; [| compute; lia]).
  rewrite (layout_hsgr_frame _ _ _ _ _ E1) by (compute; lia).
  unfold layout_front. repeat (rewrite SetBlock_other; [| compute; lia]).
  rewrite SetBlock_same; [reflexivity | compute; lia].
Qed.

Lemma fresh_segment_front env layout j :
  0 <= j < sizeof_layout env ->
  fresh_segment env layout (shared_memory_ptr env + j) = layout_object env layout j.
Proof.
  intros Hj. unfold fresh_segment, memcpy, read_to.
  replace ((shared_memory_ptr env <=? shared_memory_ptr env + j)
           && (shared_memory_ptr env + j <? shared_memory_ptr env + sizeof_layout env))
    with true
    by (symmetry; apply andb_true_intro; split; [apply Z.leb_le | apply Z.ltb_lt]; lia).
  f_equal. lia.
Qed.

Lemma fresh_segment_outside env layout a :
  a < shared_memory_ptr env \/ shared_memory_ptr env + sizeof_layout env <= a ->
  fresh_segment env layout a = zero.
Proof.
  intros Ha. unfold fresh_segment, memcpy. rewrite read_to_outside by exact Ha.
  reflexivity.
Qed.

(** X24: the populate pass stays inside its part of the segment that the run
    allocates.  With power-of-two alignments of the element types,
    characters of one byte, a file index path shorter than the address
    space, and the segment within the address space, a run that returns has
    published a region of [sizeof(layout) + GetSizeOfLayout()] bytes in
    which the first [sizeof(layout)] bytes still are the bytes of the layout
    that [memcpy] put there, and every byte in front of the segment and at
    or behind its end is zero as it was: the populate pass, started
    [sizeof(layout)] bytes behind the start of the segment, has written
    neither over the layout nor outside the segment. *)
Theorem Run_populates_inside_segment (abi : ABI) (config : StorageConfig)
    (env : Environment) (max_wait : Z) (w : World) (code : Z) (w' : World) :
  abi_ok abi = true -> sizeof (abi T_char) = 1 ->
  Z.of_nat (length (absolute_file_index_path config)) + 1 < 2 ^ 64 ->
  0 <= shared_memory_ptr env -> 0 <= sizeof_layout env ->
  (forall layout,
     PopulateLayout abi config new_DataLayout = Ok layout ->
     shared_memory_ptr env + sizeof_layout env + size_sum layout < 2 ^ 64) ->
  Run abi config env max_wait w = Returned code w' ->
  exists layout mem,
    regions w' (region (data w'))
    = Some (mkRegion (sizeof_layout env + GetSizeOfLayout layout) (Some layout) mem) /\
    (forall j,
       0 <= j < sizeof_layout env ->
       mem (shared_memory_ptr env + j) = layout_object env layout j) /\
    (forall a,
       a < shared_memory_ptr env \/
       shared_memory_ptr env + (sizeof_layout env + GetSizeOfLayout layout) <= a ->
       mem a = zero).
Proof.
  intros Habi Hchar Hlong Hptr Hsl Hfit H.
  apply Run_returned_world in H as [layout [mem [Hl [Hd [Hmon Hreg]]]]].
  specialize (Hfit layout Hl).
  destruct (PopulateLayout_settles (fun _ b _ => block_ok b = true) abi config
              (fun _ T => block_of_ok abi T 0 Habi)
              (fun _ T n _ => block_of_ok abi T n Habi)
              new_DataLayout new_DataLayout layout layout eq_refl eq_refl Hl Hl)
    as [Hlen [_ Hblocks]].
  assert (Hok : layout_ok layout = true).
  { unfold layout_ok. apply andb_true_intro. split; [apply Nat.eqb_eq; exact Hlen |].
    apply forallb_forall. intros b Hin.
    apply list_elem_of_In, list_elem_of_lookup_total_1 in Hin as [i [Hi <-]].
    apply Hblocks. lia. }
  pose proof (layout_ok_spec layout Hok) as [_ Hall].
  pose proof (bound_sum_nonneg _ Hall) as Hnn. fold (size_sum layout) in Hnn.
  assert (Hsize : GetSizeOfLayout layout = size_sum layout)
    by (rewrite GetSizeOfLayout_wrap by exact Hok; apply wrap64_small; lia).
  assert (Hbase : ptr_add (shared_memory_ptr env) (sizeof_layout env)
                  = shared_memory_ptr env + sizeof_layout env)
    by (unfold ptr_add; apply wrap64_small; lia).
  assert (Hpath : Z.of_nat (length (absolute_file_index_path config))
                  <= GetBlockSize layout FILE_INDEX_PATH).
  { unfold GetBlockSize.
    rewrite (PopulateLayout_file_index_path_block abi config layout Hl).
    unfold block_of, make_block. simpl. rewrite Hchar, Z.mul_1_l.
    rewrite wrap64_small; lia. }
  pose proof (PopulateLayout_reads_fit abi config layout Hl Hpath) as Hreads.
  rewrite (data_monitor _ _ Hmon). cbn [region].
  rewrite Hbase in Hd.
  assert (Hout : forall a,
             a < shared_memory_ptr env + sizeof_layout env \/
             shared_memory_ptr env + (sizeof_layout env + GetSizeOfLayout layout) <= a ->
             mem a = fresh_segment env layout a).
  { intros a Ha.
    pose proof (touches_PopulateData abi config layout
                  (shared_memory_ptr env + sizeof_layout env) Hok ltac:(lia) Hfit
                  Hreads (fresh_segment env layout))
      as Ht.
    rewrite Hd in Ht. destruct Ht as [_ Ht]. apply Ht.
    intros bid _ Hbid Hfoot.
    pose proof (block_room layout (shared_memory_ptr env + sizeof_layout env) Hok
                  ltac:(lia) Hfit bid Hbid).
    unfold footprint in Hfoot. lia. }
  exists layout, mem. split; [| split].
  - rewrite Hreg. f_equal. f_equal. apply wrap64_small. lia.
  - intros j Hj. rewrite Hout by lia. apply fresh_segment_front. exact Hj.
  - intros a Ha. rewrite Hout by lia. apply fresh_segment_outside. lia.
Qed.

Lemma Run_populates_inside_segment_witness :
  exists layout mem,
    regions (world_of (Run demo_abi demo_config demo_env 2 (live_world 5)))
      (region (data (world_of (Run demo_abi demo_config demo_env 2 (live_world 5)))))
    = Some (mkRegion (sizeof_layout demo_env + GetSizeOfLayout layout) (Some layout)
              mem) /\
    mem (shared_memory_ptr demo_env + 8) = layout_object demo_env layout 8 /\
    mem (shared_memory_ptr demo_env - 1) = zero.
Proof.
  destruct (Run_populates_inside_segment demo_abi demo_config demo_env 2 (live_world 5)
              EXIT_SUCCESS
              (world_of (Run demo_abi demo_config demo_env 2 (live_world 5))))
    as [layout [mem [Hreg [Hfront Hout]]]].
  - vm_compute. reflexivity.
  - reflexivity.
  - vm_compute. reflexivity.
  - vm_compute. discriminate.
  - vm_compute. discriminate.
  - intros layout H.
    assert (E : Ok layout = Ok (sized demo_abi demo_config))
      by (rewrite <- H; vm_compute; reflexivity).
    injection E as ->. vm_compute. reflexivity.
  - apply returned_spec. vm_compute. reflexivity.
  - exists layout, mem. split; [exact Hreg |]. split.
    + apply Hfront. simpl. lia.
    + apply Hout. left. lia.
Defined.
